(** * Image streaming with adaptive throttling: a shallow embedding

    This development models [block/stream.c] and [block/iops_tracker.c]
    and states the properties of the streaming job over that model.

    The block layer and the job host (allocation queries, reads, sleeps,
    the error policy, graph surgery) are external to these files.  They
    are represented by a record of operations over an abstract world
    [W]; every call the code makes is logged as an [Event], so that a
    run can be inspected after the fact. *)

From Stdlib Require Import ZArith List Bool Lia String SpecFloat.
Import ListNotations.
Local Open Scope Z_scope.

(** ** Machine integers *)

Module Int.

(** Two's complement reading of [x] on [bits] bits. *)
Definition wrap (bits : Z) (x : Z) : Z :=
  (x + 2 ^ (bits - 1)) mod 2 ^ bits - 2 ^ (bits - 1).

Definition int32 : Z -> Z := wrap 32.
Definition int64 : Z -> Z := wrap 64.
Definition uint64 (x : Z) : Z := x mod 2 ^ 64.

Definition INT64_MIN : Z := - 2 ^ 63.
Definition INT64_MAX : Z := 2 ^ 63 - 1.
Definition SIZE_MAX : Z := 2 ^ 64 - 1.

Definition in_int64 (x : Z) : Prop := INT64_MIN <= x <= INT64_MAX.

Definition add64 (a b : Z) : Z := int64 (a + b).
Definition sub64 (a b : Z) : Z := int64 (a - b).
Definition neg32 (a : Z) : Z := int32 (- a).

End Int.

(** ** IEEE 754 binary64, as the C type [double] *)

Module Double.

Definition t : Type := spec_float.

Definition prec : Z := 53.
Definition emax : Z := 1024.

Definition add : t -> t -> t := SFadd prec emax.
Definition mul : t -> t -> t := SFmul prec emax.
Definition div : t -> t -> t := SFdiv prec emax.
Definition ltb : t -> t -> bool := SFltb.

(** Conversion of an integer, as in [(double)x]. *)
Definition of_Z (x : Z) : t := binary_normalize prec emax x 0 false.

Definition zero : t := S754_zero false.
Definition one : t := of_Z 1.
Definition three : t := of_Z 3.

End Double.

(** ** Types of the block layer that the job manipulates *)

(** A [BlockDriverState *] is a handle into the node graph, or NULL. *)
Definition BlockDriverState : Type := nat.
Definition bs_ptr : Type := option BlockDriverState.

Definition bs_ptr_eqb (a b : bs_ptr) : bool :=
  match a, b with
  | None, None => true
  | Some x, Some y => Nat.eqb x y
  | _, _ => false
  end.

Inductive BlockdevOnError : Type :=
| BLOCKDEV_ON_ERROR_REPORT
| BLOCKDEV_ON_ERROR_IGNORE
| BLOCKDEV_ON_ERROR_ENOSPC
| BLOCKDEV_ON_ERROR_STOP
| BLOCKDEV_ON_ERROR_AUTO.

Inductive BlockErrorAction : Type :=
| BLOCK_ERROR_ACTION_REPORT
| BLOCK_ERROR_ACTION_IGNORE
| BLOCK_ERROR_ACTION_STOP.

(** The part of a [BlockDriver] that [stream_prepare] reads. *)
Record BlockDriver : Type := mkBlockDriver {
  format_name : string;
  protocol_name : option string;
  is_filter : bool
}.

(** [STREAM_CHUNK]: maximum chunk size fed to copy-on-read, in bytes. *)
Definition STREAM_CHUNK : Z := 512 * 1024.

Definition EPERM : Z := 1.

Record StreamBlockJob : Type := mkStreamBlockJob {
  base_overlay : bs_ptr;
  above_base : bs_ptr;
  cor_filter_bs : bs_ptr;
  target_bs : bs_ptr;
  on_error : BlockdevOnError;
  backing_file_str : option string;
  backing_mask_protocol : bool;
  bs_read_only : bool;
  adaptive_stream : bool;
  adaptive_threshold : Double.t;
  pause_time : Z
}.

Definition set_adaptive_threshold (s : StreamBlockJob) (v : Double.t) :=
  mkStreamBlockJob (base_overlay s) (above_base s) (cor_filter_bs s)
  (target_bs s) (on_error s) (backing_file_str s)
  (backing_mask_protocol s) (bs_read_only s) (adaptive_stream s) v
  (pause_time s).

Definition set_cor_filter_bs (s : StreamBlockJob) (p : bs_ptr) :=
  mkStreamBlockJob (base_overlay s) (above_base s) p
  (target_bs s) (on_error s) (backing_file_str s)
  (backing_mask_protocol s) (bs_read_only s) (adaptive_stream s)
  (adaptive_threshold s) (pause_time s).

(** Permission bits, kept symbolic: a mask is the list of its bits. *)
Inductive BlkPerm : Type :=
| BLK_PERM_CONSISTENT_READ
| BLK_PERM_WRITE
| BLK_PERM_WRITE_UNCHANGED
| BLK_PERM_RESIZE.

(** ** Calls into the host, as observable events *)

Inductive Event : Type :=
| EvProgressSetRemaining (len : Z)
| EvEnableTracker (bs : bs_ptr) (ok : bool)
| EvDisableTracker (bs : bs_ptr) (ok : bool)
| EvSleepNs (ns : Z)
| EvGetRwThroughput (bs : bs_ptr) (v : Double.t)
| EvRatelimitSleep
| EvIsCancelled (c : bool)
| EvAdaptivePause (bs : bs_ptr) (threshold : Double.t) (pause : Z)
| EvIsAllocated (offset bytes ret pnum : Z)
| EvIsAllocatedAbove (offset bytes ret pnum : Z)
| EvPreadv (offset bytes ret : Z)
| EvErrorAction (on_err : BlockdevOnError) (errno : Z)
  (action : BlockErrorAction)
| EvProgressUpdate (n : Z)
| EvRatelimitProcessed (n : Z)
| EvCorFilterDrop (bs : bs_ptr)
| EvDrainedBegin (bs : bs_ptr)
| EvDrainedEnd (bs : bs_ptr)
| EvRef (bs : bs_ptr)
| EvUnref (bs : bs_ptr)
| EvSetBackingHd (bs backing : bs_ptr) (failed : bool)
| EvChangeBackingFile (bs : bs_ptr) (backing_file backing_fmt : option string)
  (ret : Z)
| EvFreezeBackingChain (bs base : bs_ptr) (ret : Z)
| EvUnfreezeBackingChain (bs base : bs_ptr)
| EvReopenSetReadOnly (bs : bs_ptr) (read_only : bool) (ret : Z)
| EvInsertNode (bs : bs_ptr) (bottom : string) (node_name : option string)
  (filter : bs_ptr)
| EvSetImplicit (bs : bs_ptr)
| EvBlockJobCreate (job_id : option string) (bs : bs_ptr) (speed : Z)
  (ok : bool)
| EvBlkNewWithBs (bs : bs_ptr) (ok : bool)
| EvBlockJobAddBdrv (name : string) (bs : bs_ptr) (shared : list BlkPerm)
  (ret : Z)
| EvJobStart
| EvJobEarlyFail.

(** The external collaborators.  Functions returning a new world may
    suspend the coroutine or change the graph; the others only read. *)
Set Implicit Arguments.

Record Host (W : Type) : Type := mkHost {
  (* graph queries *)
  bdrv_skip_filters : W -> bs_ptr -> bs_ptr;
  bdrv_cow_bs : W -> bs_ptr -> bs_ptr;
  bdrv_filter_or_cow_bs : W -> bs_ptr -> bs_ptr;
  bs_filename : W -> BlockDriverState -> string;
  bs_drv : W -> BlockDriverState -> option BlockDriver;
  bdrv_co_getlength : W -> bs_ptr -> Z;
  (* allocation queries: the result is (return value, *pnum) *)
  bdrv_co_is_allocated : W -> bs_ptr -> Z -> Z -> (Z * Z) * W;
  bdrv_co_is_allocated_above :
    W -> bs_ptr -> bs_ptr -> bool -> Z -> Z -> (Z * Z) * W;
  blk_co_preadv : W -> Z -> Z -> Z * W;
  (* job host *)
  job_progress_set_remaining : W -> Z -> W;
  job_progress_update : W -> Z -> W;
  job_sleep_ns : W -> Z -> W;
  job_is_cancelled : W -> bool;
  block_job_ratelimit_sleep : W -> W;
  block_job_ratelimit_processed_bytes : W -> Z -> W;
  block_job_error_action :
    W -> BlockdevOnError -> bool -> Z -> BlockErrorAction * W;
  block_job_adaptive_pause : W -> bs_ptr -> Double.t -> Z -> W;
  (* throughput tracking attached to a node *)
  enable_iops_tracker : W -> bs_ptr -> bool * W;
  disable_iops_tracker : W -> bs_ptr -> bool * W;
  is_iops_tracker_enabled : W -> bs_ptr -> bool;
  iops_tracker_get_rwthroughput : W -> bs_ptr -> Double.t * W;
  (* graph surgery *)
  bdrv_cor_filter_drop : W -> bs_ptr -> W;
  bdrv_drained_begin : W -> bs_ptr -> W;
  bdrv_drained_end : W -> bs_ptr -> W;
  bdrv_ref : W -> bs_ptr -> W;
  bdrv_unref : W -> bs_ptr -> W;
  (* [true] when [local_err] was set *)
  bdrv_set_backing_hd_drained : W -> bs_ptr -> bs_ptr -> bool * W;
  bdrv_change_backing_file :
    W -> bs_ptr -> option string -> option string -> Z * W;
  (* used by stream_start *)
  bdrv_find_overlay : W -> bs_ptr -> bs_ptr -> bs_ptr;
  bdrv_filter_bs : W -> bs_ptr -> bs_ptr;
  bs_node_name : W -> BlockDriverState -> string;
  bdrv_is_read_only : W -> bs_ptr -> bool;
  bdrv_freeze_backing_chain : W -> bs_ptr -> bs_ptr -> Z * W;
  bdrv_unfreeze_backing_chain : W -> bs_ptr -> bs_ptr -> W;
  bdrv_reopen_set_read_only : W -> bs_ptr -> bool -> Z * W;
  (* options: "file", "bottom", optional "node-name" *)
  bdrv_insert_node : W -> bs_ptr -> string -> option string -> bs_ptr * W;
  bs_set_implicit : W -> bs_ptr -> W;
  block_job_create : W -> option string -> bs_ptr -> Z -> bool * W;
  blk_new_with_bs : W -> bs_ptr -> bool * W;
  block_job_add_bdrv : W -> string -> bs_ptr -> list BlkPerm -> Z * W;
  job_start : W -> W;
  job_early_fail : W -> W
}.

Unset Implicit Arguments.

(** ** A small monad: world passing plus an event log *)

Section Monad.
Context {W : Type}.

Definition M (A : Type) : Type := W -> A * list Event * W.

Definition ret {A} (a : A) : M A := fun w => (a, [], w).

Definition bind {A B} (m : M A) (k : A -> M B) : M B :=
  fun w =>
    let '(a, e1, w1) := m w in
    let '(b, e2, w2) := k a w1 in
    (b, e1 ++ e2, w2).

(** A read-only query of the world. *)
Definition ask {A} (f : W -> A) : M A := fun w => (f w, [], w).

(** A call that returns a value, logged through [ev]. *)
Definition call {A} (f : W -> A * W) (ev : A -> Event) : M A :=
  fun w => let '(a, w1) := f w in (a, [ev a], w1).

(** A call that returns nothing. *)
Definition exec (f : W -> W) (ev : Event) : M unit :=
  fun w => (tt, [ev], f w).

(** A logged read of the world. *)
Definition peek {A} (f : W -> A) (ev : A -> Event) : M A :=
  fun w => (f w, [ev (f w)], w).
End Monad.

Declare Scope monad_scope.
Delimit Scope monad_scope with monad.
Notation "x <- m ;; k" := (bind m (fun x => k))
  (at level 61, m at next level, right associativity) : monad_scope.
Notation "' p <- m ;; k" := (bind m (fun p => k))
  (at level 61, p pattern, m at next level, right associativity)
  : monad_scope.
Notation "m ;; k" := (bind m (fun _ => k))
  (at level 61, right associativity) : monad_scope.
Local Open Scope monad_scope.

(** ** The copy loop of [stream_run] *)

(** How one pass through the loop body ends.  [FlowStop] is the
    [continue] of the stop action, [FlowEnd] the end of the body; both
    run the increment [offset += n].  [FlowCancelled] and [FlowReport]
    are the two [break]s.  [FlowAssert] is a failed [assert]. *)
Inductive Flow : Type :=
| FlowCancelled
| FlowStop
| FlowReport
| FlowEnd
| FlowAssert.

(** The locals of [stream_run] after one pass: [n], [error], and the
    last value of [ret] when it was assigned. *)
Record Body : Type := mkBody {
  b_flow : Flow;
  b_n : Z;
  b_error : Z;
  b_ret : option Z
}.

Record IterRecord : Type := mkIter {
  ir_offset : Z;
  ir_events : list Event;
  ir_flow : Flow;
  ir_n : Z;
  ir_error : Z;
  ir_ret : option Z
}.

Inductive LoopExit : Type :=
| ExitCondition
| ExitBreak
| ExitAssert.

Inductive RunStatus : Type :=
| RunReturned (ret : Z)
| RunAborted.

Section Stream.
Context {W : Type} (H : Host W).

Record LoopResult : Type := mkLoop {
  lr_exit : LoopExit;
  lr_offset : Z;
  lr_n : Z;
  lr_error : Z;
  lr_history : list IterRecord;
  lr_world : W
}.

Record RunResult : Type := mkRun {
  rr_status : RunStatus;
  rr_job : StreamBlockJob;
  rr_setup : list Event;
  rr_loop : option LoopResult;
  rr_teardown : list Event;
  rr_world : W
}.

(** [stream_populate]: [bytes] is the [uint64_t] reading of [n];
    [None] stands for the failed [assert(bytes < SIZE_MAX)]. *)
Definition stream_populate (offset n : Z) : M (option Z) :=
  let bytes := Int.uint64 n in
  if bytes <? Int.SIZE_MAX then
    r <- call (fun w => blk_co_preadv H w offset (Int.int64 bytes))
              (EvPreadv offset (Int.int64 bytes)) ;;
    ret (Some r)
  else ret None.

(** The classification under [WITH_GRAPH_RDLOCK_GUARD] in the loop:
    returns [ret], [n] and [copy]. *)
Definition stream_classify (s : StreamBlockJob) (unfiltered_bs : bs_ptr)
  (len offset : Z) : M (Z * Z * bool) :=
  a <- call (fun w => bdrv_co_is_allocated H w unfiltered_bs offset
                        STREAM_CHUNK)
            (fun a => EvIsAllocated offset STREAM_CHUNK (fst a) (snd a)) ;;
  let r := fst a in
  let n := snd a in
  if r =? 1 then ret (r, n, false)
  else if 0 <=? r then
    cow <- ask (fun w => bdrv_cow_bs H w unfiltered_bs) ;;
    a' <- call (fun w => bdrv_co_is_allocated_above H w cow (base_overlay s)
                           true offset n)
               (fun a => EvIsAllocatedAbove offset n (fst a) (snd a)) ;;
    let r' := fst a' in
    let n' := snd a' in
    let n'' := if (r' =? 0) && (n' =? 0) then Int.sub64 len offset else n' in
    ret (r', n'', 0 <? r')
  else ret (r, n, false).

(** The tail of the body: publish progress, and account the bytes with
    the rate limiter when a copy was issued. *)
Definition stream_publish (n : Z) (copy : bool) : M unit :=
  exec (fun w => job_progress_update H w n) (EvProgressUpdate n) ;;
  if copy then
    exec (fun w => block_job_ratelimit_processed_bytes H w n)
         (EvRatelimitProcessed n)
  else ret tt.

Definition stream_run_body (s : StreamBlockJob)
  (unfiltered_bs tracking_overlay : bs_ptr) (len offset n error : Z)
  : M Body :=
  exec (block_job_ratelimit_sleep H) EvRatelimitSleep ;;
  c <- peek (job_is_cancelled H) EvIsCancelled ;;
  if c then ret (mkBody FlowCancelled n error None)
  else
    (if adaptive_stream s then
       exec (fun w => block_job_adaptive_pause H w tracking_overlay
                        (adaptive_threshold s) (pause_time s))
            (EvAdaptivePause tracking_overlay (adaptive_threshold s)
                             (pause_time s))
     else ret tt) ;;
    cl <- stream_classify s unfiltered_bs len offset ;;
    let '(r, n1, copy) := cl in
    pr <- (if copy then stream_populate offset n1 else ret (Some r)) ;;
    match pr with
    | None => ret (mkBody FlowAssert n1 error None)
    | Some r2 =>
      if r2 <? 0 then
        action <- call (fun w => block_job_error_action H w (on_error s) true
                                   (Int.neg32 r2))
                       (EvErrorAction (on_error s) (Int.neg32 r2)) ;;
        match action with
        | BLOCK_ERROR_ACTION_STOP =>
            ret (mkBody FlowStop 0 error (Some r2))
        | BLOCK_ERROR_ACTION_REPORT =>
            ret (mkBody FlowReport n1 (if error =? 0 then r2 else error)
                        (Some r2))
        | BLOCK_ERROR_ACTION_IGNORE =>
            stream_publish n1 copy ;;
            ret (mkBody FlowEnd n1 (if error =? 0 then r2 else error)
                        (Some r2))
        end
      else
        stream_publish n1 copy ;;
        ret (mkBody FlowEnd n1 error (Some r2))
    end.

(** [for ( ; offset < len; offset += n) { body }].  The loop need not
    terminate (a stop action retries for ever), hence the fuel; [None]
    means the fuel ran out. *)
Fixpoint stream_run_loop (fuel : nat) (s : StreamBlockJob)
  (unfiltered_bs tracking_overlay : bs_ptr) (len offset n error : Z) (w : W)
  : option LoopResult :=
  if offset <? len then
    match fuel with
    | O => None
    | S fuel' =>
      let '(b, evs, w1) :=
        stream_run_body s unfiltered_bs tracking_overlay len offset n error w
      in
      let it := mkIter offset evs (b_flow b) (b_n b) (b_error b) (b_ret b) in
      match b_flow b with
      | FlowCancelled | FlowReport =>
          Some (mkLoop ExitBreak offset (b_n b) (b_error b) [it] w1)
      | FlowAssert =>
          Some (mkLoop ExitAssert offset (b_n b) (b_error b) [it] w1)
      | FlowStop | FlowEnd =>
          match stream_run_loop fuel' s unfiltered_bs tracking_overlay len
                  (Int.add64 offset (b_n b)) (b_n b) (b_error b) w1 with
          | Some r =>
              Some (mkLoop (lr_exit r) (lr_offset r) (lr_n r) (lr_error r)
                           (it :: lr_history r) (lr_world r))
          | None => None
          end
      end
    end
  else Some (mkLoop ExitCondition offset n error [] w).

(** The calibration loop [for (int i = 0; i < 3; i++)]; [count] is the
    number of rounds left.  [5e9] nanoseconds are passed to
    [job_sleep_ns]. *)
Fixpoint stream_calibration_loop (count : nat) (tracking_overlay : bs_ptr)
  (threshold_percentage threshold : Double.t) : M Double.t :=
  match count with
  | O => ret threshold
  | S count' =>
      exec (fun w => job_sleep_ns H w 5000000000) (EvSleepNs 5000000000) ;;
      v <- call (fun w => iops_tracker_get_rwthroughput H w tracking_overlay)
                (EvGetRwThroughput tracking_overlay) ;;
      stream_calibration_loop count' tracking_overlay threshold_percentage
        (Double.add threshold (Double.mul v threshold_percentage))
  end.

(** The two [if]s that start tracking and calibrate the threshold. *)
Definition stream_calibrate (s : StreamBlockJob) : M StreamBlockJob :=
  let tracking_overlay := cor_filter_bs s in
  (if adaptive_stream s then
     _ <- call (fun w => enable_iops_tracker H w tracking_overlay)
               (EvEnableTracker tracking_overlay) ;;
     ret tt
   else ret tt) ;;
  enabled <- ask (fun w => is_iops_tracker_enabled H w tracking_overlay) ;;
  if enabled && Double.ltb (adaptive_threshold s) Double.one then
    threshold <- stream_calibration_loop 3 tracking_overlay
                   (adaptive_threshold s) Double.zero ;;
    ret (set_adaptive_threshold s (Double.div threshold Double.three))
  else ret s.

Definition stream_run (fuel : nat) (s : StreamBlockJob) (w : W)
  : option RunResult :=
  let tracking_overlay := cor_filter_bs s in
  let unfiltered_bs := bdrv_skip_filters H w (target_bs s) in
  if bs_ptr_eqb unfiltered_bs (base_overlay s) then
    (* Nothing to stream *)
    Some (mkRun (RunReturned 0) s [] None [] w)
  else
    let len := bdrv_co_getlength H w (target_bs s) in
    if len <? 0 then
      Some (mkRun (RunReturned (Int.int32 len)) s [] None [] w)
    else
      let '(s1, setup, w1) :=
        (exec (fun w => job_progress_set_remaining H w len)
              (EvProgressSetRemaining len) ;;
         stream_calibrate s) w in
      match stream_run_loop fuel s1 unfiltered_bs tracking_overlay len
              0 0 0 w1 with
      | None => None
      | Some r =>
          match lr_exit r with
          | ExitAssert => Some (mkRun RunAborted s1 setup (Some r) [] (lr_world r))
          | _ =>
              let '(_, teardown, w2) :=
                call (fun w => disable_iops_tracker H w tracking_overlay)
                     (EvDisableTracker tracking_overlay) (lr_world r) in
              Some (mkRun (RunReturned (lr_error r)) s1 setup (Some r)
                          teardown w2)
          end
      end.

End Stream.

(** ** Completion: [stream_prepare] *)

Section Prepare.
Context {W : Type} (H : Host W).

(** The strings handed to [bdrv_change_backing_file]: the block
    [if (unfiltered_base) { ... }] of [stream_prepare]. *)
Definition stream_backing_ref (s : StreamBlockJob) (unfiltered_base : bs_ptr)
  (w : W) : option string * option string :=
  match unfiltered_base with
  | Some ub =>
      let base_id :=
        match backing_file_str s with
        | Some str => Some str
        | None => Some (bs_filename H w ub)
        end in
      let base_fmt :=
        match bs_drv H w ub with
        | Some drv =>
            match backing_mask_protocol s, protocol_name drv with
            | true, Some _ => Some "raw"%string
            | _, _ => Some (format_name drv)
            end
        | None => None
        end in
      (base_id, base_fmt)
  | None => (None, None)
  end.

Definition stream_prepare (s : StreamBlockJob) : M (Z * StreamBlockJob) :=
  unfiltered_bs <- ask (fun w => bdrv_skip_filters H w (target_bs s)) ;;
  unfiltered_bs_cow <- ask (fun w => bdrv_cow_bs H w unfiltered_bs) ;;
  (* We should drop filter at this point, as filter hold the backing chain *)
  exec (fun w => bdrv_cor_filter_drop H w (cor_filter_bs s))
       (EvCorFilterDrop (cor_filter_bs s)) ;;
  let s' := set_cor_filter_bs s None in
  exec (fun w => bdrv_drained_begin H w unfiltered_bs)
       (EvDrainedBegin unfiltered_bs) ;;
  (match unfiltered_bs_cow with
   | Some _ =>
       exec (fun w => bdrv_ref H w unfiltered_bs_cow)
            (EvRef unfiltered_bs_cow) ;;
       exec (fun w => bdrv_drained_begin H w unfiltered_bs_cow)
            (EvDrainedBegin unfiltered_bs_cow)
   | None => ret tt
   end) ;;
  base <- ask (fun w => bdrv_filter_or_cow_bs H w (above_base s)) ;;
  unfiltered_base <- ask (fun w => bdrv_skip_filters H w base) ;;
  r <- (match unfiltered_bs_cow with
        | Some _ =>
            ref <- ask (stream_backing_ref s unfiltered_base) ;;
            local_err <- call (fun w => bdrv_set_backing_hd_drained H w
                                          unfiltered_bs base)
                              (EvSetBackingHd unfiltered_bs base) ;;
            r <- call (fun w => bdrv_change_backing_file H w unfiltered_bs
                                  (fst ref) (snd ref))
                      (EvChangeBackingFile unfiltered_bs (fst ref) (snd ref)) ;;
            ret (if local_err : bool then - EPERM else r)
        | None => ret 0
        end) ;;
  (match unfiltered_bs_cow with
   | Some _ =>
       exec (fun w => bdrv_drained_end H w unfiltered_bs_cow)
            (EvDrainedEnd unfiltered_bs_cow) ;;
       exec (fun w => bdrv_unref H w unfiltered_bs_cow)
            (EvUnref unfiltered_bs_cow)
   | None => ret tt
   end) ;;
  exec (fun w => bdrv_drained_end H w unfiltered_bs)
       (EvDrainedEnd unfiltered_bs) ;;
  ret (r, s').

End Prepare.

(** ** Setup: [stream_start] *)

Inductive StartOutcome : Type :=
| StartAssertFailed (condition : string)
| StartNullDeref
| StartError
| StartFail
| StartOutOfFuel
| StartStarted (s : StreamBlockJob).

Record StartArgs : Type := mkStartArgs {
  sa_job_id : option string;
  sa_bs : BlockDriverState;
  sa_base : bs_ptr;
  sa_backing_file_str : option string;
  sa_backing_mask_protocol : bool;
  sa_bottom : bs_ptr;
  sa_creation_flags : Z;
  sa_speed : Z;
  sa_on_error : BlockdevOnError;
  sa_filter_node_name : option string;
  sa_adaptive_stream : bool;
  sa_adaptive_threshold : Double.t;
  sa_pause_time : Z
}.

Definition is_some {A} (o : option A) : bool :=
  match o with Some _ => true | None => false end.

Definition basic_flags : list BlkPerm :=
  [BLK_PERM_CONSISTENT_READ; BLK_PERM_WRITE_UNCHANGED].

Section Start.
Context {W : Type} (H : Host W).

(** [while (bdrv_filter_bs(above_base) != base)
       above_base = bdrv_filter_bs(above_base);] *)
Fixpoint stream_walk_filters (fuel : nat) (w : W) (above_base base : bs_ptr)
  : option bs_ptr :=
  if bs_ptr_eqb (bdrv_filter_bs H w above_base) base then Some above_base
  else
    match fuel with
    | O => None
    | S fuel' =>
        stream_walk_filters fuel' w (bdrv_filter_bs H w above_base) base
    end.

(** The selection of [base_overlay] and [above_base], after the two
    entry assertions.  The result is an outcome that ends the call, or
    the two nodes. *)
Definition stream_start_boundary (fuel : nat) (a : StartArgs) (w : W)
  : StartOutcome + (BlockDriverState * bs_ptr) :=
  match sa_bottom a with
  | Some bottom =>
      match bs_drv H w bottom with
      | None => inl StartNullDeref
      | Some drv =>
          if is_filter drv
          then inl (StartAssertFailed "!bottom->drv->is_filter")
          else inr (bottom, Some bottom)
      end
  | None =>
      match bdrv_find_overlay H w (Some (sa_bs a)) (sa_base a) with
      | None => inl StartError
      | Some base_overlay =>
          if bs_ptr_eqb (bdrv_cow_bs H w (Some base_overlay)) (sa_base a)
          then inr (base_overlay, Some base_overlay)
          else
            match stream_walk_filters fuel w
                    (bdrv_cow_bs H w (Some base_overlay)) (sa_base a) with
            | Some above_base => inr (base_overlay, above_base)
            | None => inl StartOutOfFuel
            end
      end
  end.

(** The label [fail:]. *)
Definition stream_start_fail (have_job : bool) (cor_filter_bs : bs_ptr)
  (bs_read_only : bool) (bs : BlockDriverState) : M StartOutcome :=
  (if have_job then exec (job_early_fail H) EvJobEarlyFail else ret tt) ;;
  (if is_some cor_filter_bs then
     exec (fun w => bdrv_cor_filter_drop H w cor_filter_bs)
          (EvCorFilterDrop cor_filter_bs)
   else ret tt) ;;
  (if bs_read_only then
     _ <- call (fun w => bdrv_reopen_set_read_only H w (Some bs) true)
               (EvReopenSetReadOnly (Some bs) true) ;;
     ret tt
   else ret tt) ;;
  ret StartFail.

(** [for (iter = bdrv_filter_or_cow_bs(bs); iter != base; ...)]:
    [Some r] is the last return value of [block_job_add_bdrv] (0 when
    the loop ran to its end), [None] means out of fuel. *)
Fixpoint stream_block_intermediates (fuel : nat) (iter base : bs_ptr)
  : M (option Z) :=
  if bs_ptr_eqb iter base then ret (Some 0)
  else
    match fuel with
    | O => ret None
    | S fuel' =>
        r <- call (fun w => block_job_add_bdrv H w "intermediate node" iter
                              basic_flags)
                  (EvBlockJobAddBdrv "intermediate node" iter basic_flags) ;;
        if r <? 0 then ret (Some r)
        else
          next <- ask (fun w => bdrv_filter_or_cow_bs H w iter) ;;
          stream_block_intermediates fuel' next base
    end.

Definition stream_start (fuel : nat) (a : StartArgs) : M StartOutcome :=
  if is_some (sa_base a) && is_some (sa_bottom a)
  then ret (StartAssertFailed "!(base && bottom)")
  else if is_some (sa_backing_file_str a) && is_some (sa_bottom a)
  then ret (StartAssertFailed "!(backing_file_str && bottom)")
  else
    boundary <- ask (stream_start_boundary fuel a) ;;
    match boundary with
    | inl outcome => ret outcome
    | inr (base_overlay, above_base) =>
      let bs := sa_bs a in
      (* Make sure that the image is opened in read-write mode *)
      bs_read_only <- ask (fun w => bdrv_is_read_only H w (Some bs)) ;;
      reopened <-
        (if bs_read_only : bool then
           fr <- call (fun w => bdrv_freeze_backing_chain H w (Some bs)
                                  above_base)
                      (EvFreezeBackingChain (Some bs) above_base) ;;
           if fr <? 0 then ret false
           else
             r <- call (fun w => bdrv_reopen_set_read_only H w (Some bs) false)
                       (EvReopenSetReadOnly (Some bs) false) ;;
             exec (fun w => bdrv_unfreeze_backing_chain H w (Some bs)
                              above_base)
                  (EvUnfreezeBackingChain (Some bs) above_base) ;;
             ret (negb (r <? 0))
         else ret true) ;;
      if negb reopened then ret StartError
      else
        bottom_name <- ask (fun w => bs_node_name H w base_overlay) ;;
        cor_filter_bs <-
          call (fun w => bdrv_insert_node H w (Some bs) bottom_name
                           (sa_filter_node_name a))
               (EvInsertNode (Some bs) bottom_name (sa_filter_node_name a)) ;;
        if negb (is_some cor_filter_bs)
        then stream_start_fail false cor_filter_bs bs_read_only bs
        else
          (if is_some (sa_filter_node_name a) then ret tt
           else exec (fun w => bs_set_implicit H w cor_filter_bs)
                     (EvSetImplicit cor_filter_bs)) ;;
          created <-
            call (fun w => block_job_create H w (sa_job_id a) cor_filter_bs
                             (sa_speed a))
                 (EvBlockJobCreate (sa_job_id a) cor_filter_bs (sa_speed a)) ;;
          if negb created
          then stream_start_fail false cor_filter_bs bs_read_only bs
          else
            blk <- call (fun w => blk_new_with_bs H w cor_filter_bs)
                        (EvBlkNewWithBs cor_filter_bs) ;;
            if negb blk
            then stream_start_fail true cor_filter_bs bs_read_only bs
            else
              r <- call (fun w => block_job_add_bdrv H w "active node"
                                    (Some bs) (basic_flags ++ [BLK_PERM_WRITE]))
                        (EvBlockJobAddBdrv "active node" (Some bs)
                           (basic_flags ++ [BLK_PERM_WRITE])) ;;
              if negb (r =? 0)
              then stream_start_fail true cor_filter_bs bs_read_only bs
              else
                base <- ask (fun w => bdrv_filter_or_cow_bs H w above_base) ;;
                first <- ask (fun w => bdrv_filter_or_cow_bs H w (Some bs)) ;;
                blocked <- stream_block_intermediates fuel first base ;;
                match blocked with
                | None => ret StartOutOfFuel
                | Some r' =>
                    if r' <? 0
                    then stream_start_fail true cor_filter_bs bs_read_only bs
                    else
                      exec (job_start H) EvJobStart ;;
                      ret (StartStarted
                             (mkStreamBlockJob (Some base_overlay) above_base
                                cor_filter_bs (Some bs) (sa_on_error a)
                                (sa_backing_file_str a)
                                (sa_backing_mask_protocol a) bs_read_only
                                (sa_adaptive_stream a)
                                (sa_adaptive_threshold a) (sa_pause_time a)))
                end
    end.

End Start.

(** ** The throughput tracker of [block/iops_tracker.c] *)

Record IOPSTracker : Type := mkIOPSTracker {
  operations : Z;
  start_time_ns : Z
}.

(** [iops_tracker_init]; [now] is the value read from the clock. *)
Definition iops_tracker_init (now : Z) (tracker : IOPSTracker)
  : IOPSTracker :=
  mkIOPSTracker 0 now.

(** [iops_tracker_update]: the addition, made between lock and unlock. *)
Definition iops_tracker_update (tracker : IOPSTracker) (ops : Z)
  : IOPSTracker :=
  mkIOPSTracker (Int.add64 (operations tracker) ops) (start_time_ns tracker).

(** The part of [iops_tracker_get_iops] between lock and unlock: it
    reads the clock and the counter and computes the rate. *)
Definition iops_tracker_get_iops_locked (now_ns : Z) (tracker : IOPSTracker)
  : Double.t :=
  let elapsed_ns := Int.sub64 now_ns (start_time_ns tracker) in
  let elapsed_sec := Double.div (Double.of_Z elapsed_ns)
                                (Double.of_Z 1000000000) in
  Double.div (Double.of_Z (operations tracker)) elapsed_sec.

(** [iops_tracker_get_iops] run without interference: [now_ns] is the
    clock inside the critical section, [now_init] the clock read by
    [iops_tracker_init] after the unlock. *)
Definition iops_tracker_get_iops (now_ns now_init : Z) (tracker : IOPSTracker)
  : Double.t * IOPSTracker :=
  (iops_tracker_get_iops_locked now_ns tracker,
   iops_tracker_init now_init tracker).

(** *** Interleavings

    The mutex makes the body of [iops_tracker_update] and the locked
    part of [iops_tracker_get_iops] atomic with respect to each other.
    The reset of [iops_tracker_get_iops] runs after the unlock, so it
    is a step of its own. *)
Inductive TrackerStep : Type :=
| StepUpdate (ops : Z)
| StepSampleLocked (now_ns : Z)
| StepSampleInit (now_ns : Z).

(** What a sample saw: the counter it divided, and the rate. *)
Record Sample : Type := mkSample {
  sample_operations : Z;
  sample_iops : Double.t
}.

Record TrackerState : Type := mkTrackerState {
  ts_tracker : IOPSTracker;
  ts_samples : list Sample;
  ts_recorded : Z
}.

Definition tracker_step (st : TrackerState) (step : TrackerStep)
  : TrackerState :=
  match step with
  | StepUpdate ops =>
      mkTrackerState (iops_tracker_update (ts_tracker st) ops)
        (ts_samples st) (ts_recorded st + ops)
  | StepSampleLocked now_ns =>
      mkTrackerState (ts_tracker st)
        (ts_samples st ++
           [mkSample (operations (ts_tracker st))
                     (iops_tracker_get_iops_locked now_ns (ts_tracker st))])
        (ts_recorded st)
  | StepSampleInit now_ns =>
      mkTrackerState (iops_tracker_init now_ns (ts_tracker st))
        (ts_samples st) (ts_recorded st)
  end.

Definition tracker_run (schedule : list TrackerStep) (st : TrackerState)
  : TrackerState :=
  fold_left tracker_step schedule st.

(** A schedule of one sampling thread: locked part and reset alternate,
    starting with a locked part; updates may fall anywhere. *)
Fixpoint sampler_in_order (in_sample : bool) (schedule : list TrackerStep)
  : bool :=
  match schedule with
  | [] => negb in_sample
  | StepUpdate _ :: rest => sampler_in_order in_sample rest
  | StepSampleLocked _ :: rest =>
      negb in_sample && sampler_in_order true rest
  | StepSampleInit _ :: rest => in_sample && sampler_in_order false rest
  end.

(** A schedule in which no update falls between the locked part of a
    sample and its reset. *)
Fixpoint sampler_atomic (schedule : list TrackerStep) : bool :=
  match schedule with
  | [] => true
  | StepUpdate _ :: rest => sampler_atomic rest
  | StepSampleLocked _ :: StepSampleInit _ :: rest => sampler_atomic rest
  | _ => false
  end.

Definition sampled_total (samples : list Sample) : Z :=
  fold_right (fun s acc => sample_operations s + acc) 0 samples.

Definition tracker_new (now : Z) : TrackerState :=
  mkTrackerState (iops_tracker_init now (mkIOPSTracker 0 0)) [] 0.

(** ** A scripted host, for running the model on concrete scenarios *)

Record SimWorld : Type := mkSim {
  sw_sleeps : nat;
  sw_reads : nat;
  sw_samples : nat;
  sw_tracker : bool
}.

Record Scenario : Type := mkScenario {
  (* length of the top image *)
  sc_len : Z;
  (* indices of the chunks allocated in the top image *)
  sc_top : list Z;
  (* indices of the chunks allocated in an intermediate image *)
  sc_mid : list Z;
  (* where the backing files end *)
  sc_backing_len : Z;
  (* results of the successive reads; 0 once the list is used up *)
  sc_read_rets : list Z;
  (* cancellation is requested after that many rate-limiter sleeps *)
  sc_cancel_after : option nat;
  (* successive throughput readings *)
  sc_throughput : list Double.t;
  (* the graph: child of each node, filter nodes, drivers *)
  sc_child : list (nat * nat);
  sc_filters : list nat;
  sc_drv : nat -> option BlockDriver;
  sc_filename : nat -> string;
  sc_read_only : bool;
  (* results of the two steps of the backing rewrite *)
  sc_set_backing_fails : bool;
  sc_change_backing_ret : Z
}.

Definition ENOSPC : Z := 28.
Definition EIO : Z := 5.

Definition sim_mem (x : Z) (l : list Z) : bool := existsb (Z.eqb x) l.

Definition sim_child (sc : Scenario) (p : bs_ptr) : bs_ptr :=
  match p with
  | Some x =>
      match find (fun e => Nat.eqb (fst e) x) (sc_child sc) with
      | Some e => Some (snd e)
      | None => None
      end
  | None => None
  end.

Definition sim_is_filter (sc : Scenario) (p : bs_ptr) : bool :=
  match p with
  | Some x => existsb (Nat.eqb x) (sc_filters sc)
  | None => false
  end.

Fixpoint sim_skip_filters (fuel : nat) (sc : Scenario) (p : bs_ptr) : bs_ptr :=
  match fuel with
  | O => p
  | S fuel' =>
      if sim_is_filter sc p then sim_skip_filters fuel' sc (sim_child sc p)
      else p
  end.

Definition sim_cow_bs (sc : Scenario) (p : bs_ptr) : bs_ptr :=
  if sim_is_filter sc p then None else sim_child sc p.

Definition sim_filter_bs (sc : Scenario) (p : bs_ptr) : bs_ptr :=
  if sim_is_filter sc p then sim_child sc p else None.

Fixpoint sim_find_overlay (fuel : nat) (sc : Scenario) (active bs : bs_ptr)
  : bs_ptr :=
  match fuel, active with
  | S fuel', Some _ =>
      let next := sim_skip_filters 8 sc (sim_cow_bs sc active) in
      if bs_ptr_eqb bs next then active
      else sim_find_overlay fuel' sc next bs
  | _, _ => None
  end.

Definition sim_chunk_end (offset : Z) : Z :=
  (offset / STREAM_CHUNK + 1) * STREAM_CHUNK.

Definition sim_is_allocated (sc : Scenario) (offset bytes : Z) : Z * Z :=
  if sc_len sc <=? offset then (0, 0)
  else
    (if sim_mem (offset / STREAM_CHUNK) (sc_top sc) then 1 else 0,
     Z.min bytes (Z.min (sc_len sc - offset) (sim_chunk_end offset - offset))).

Definition sim_is_allocated_above (sc : Scenario) (offset bytes : Z) : Z * Z :=
  if sc_backing_len sc <=? offset then (0, 0)
  else
    (if sim_mem (offset / STREAM_CHUNK) (sc_mid sc) then 1 else 0,
     Z.min bytes
       (Z.min (sc_backing_len sc - offset) (sim_chunk_end offset - offset))).

(** The failure policy of the job host. *)
Definition sim_error_action (on_err : BlockdevOnError) (errno : Z)
  : BlockErrorAction :=
  match on_err with
  | BLOCKDEV_ON_ERROR_REPORT => BLOCK_ERROR_ACTION_REPORT
  | BLOCKDEV_ON_ERROR_IGNORE => BLOCK_ERROR_ACTION_IGNORE
  | BLOCKDEV_ON_ERROR_STOP => BLOCK_ERROR_ACTION_STOP
  | BLOCKDEV_ON_ERROR_ENOSPC | BLOCKDEV_ON_ERROR_AUTO =>
      if errno =? ENOSPC then BLOCK_ERROR_ACTION_STOP
      else BLOCK_ERROR_ACTION_REPORT
  end.

Definition sim_slept (w : SimWorld) : SimWorld :=
  mkSim (S (sw_sleeps w)) (sw_reads w) (sw_samples w) (sw_tracker w).

Definition sim_read (w : SimWorld) : SimWorld :=
  mkSim (sw_sleeps w) (S (sw_reads w)) (sw_samples w) (sw_tracker w).

Definition sim_sampled (w : SimWorld) : SimWorld :=
  mkSim (sw_sleeps w) (sw_reads w) (S (sw_samples w)) (sw_tracker w).

Definition sim_set_tracker (w : SimWorld) (b : bool) : SimWorld :=
  mkSim (sw_sleeps w) (sw_reads w) (sw_samples w) b.

Definition sim_cancelled (sc : Scenario) (w : SimWorld) : bool :=
  match sc_cancel_after sc with
  | Some k => Nat.leb k (sw_sleeps w)
  | None => false
  end.

Definition sim_host (sc : Scenario) : Host SimWorld :=
  mkHost
    (fun _ p => sim_skip_filters 8 sc p)
    (fun _ p => sim_cow_bs sc p)
    (fun _ p => sim_child sc p)
    (fun _ x => sc_filename sc x)
    (fun _ x => sc_drv sc x)
    (fun _ _ => sc_len sc)
    (fun w _ offset bytes => (sim_is_allocated sc offset bytes, w))
    (fun w _ _ _ offset bytes => (sim_is_allocated_above sc offset bytes, w))
    (fun w _ _ => (nth (sw_reads w) (sc_read_rets sc) 0, sim_read w))
    (fun w _ => w)
    (fun w _ => w)
    (fun w _ => w)
    (sim_cancelled sc)
    sim_slept
    (fun w _ => w)
    (fun w on_err _ errno => (sim_error_action on_err errno, w))
    (fun w _ _ _ => w)
    (fun w _ => (true, sim_set_tracker w true))
    (fun w _ => (sw_tracker w, sim_set_tracker w false))
    (fun w _ => sw_tracker w)
    (fun w _ => (nth (sw_samples w) (sc_throughput sc) Double.zero,
                 sim_sampled w))
    (fun w _ => w)
    (fun w _ => w)
    (fun w _ => w)
    (fun w _ => w)
    (fun w _ => w)
    (fun w _ _ => (sc_set_backing_fails sc, w))
    (fun w _ _ _ => (sc_change_backing_ret sc, w))
    (fun _ active bs =>
       sim_find_overlay 8 sc (sim_skip_filters 8 sc active)
         (sim_skip_filters 8 sc bs))
    (fun _ p => sim_filter_bs sc p)
    (fun _ x => sc_filename sc x)
    (fun _ _ => sc_read_only sc)
    (fun w _ _ => (0, w))
    (fun w _ _ => w)
    (fun w _ _ => (0, w))
    (fun w _ _ _ => (Some 100%nat, w))
    (fun w _ => w)
    (fun w _ _ _ => (true, w))
    (fun w _ => (true, w))
    (fun w _ _ _ => (0, w))
    (fun w => w)
    (fun w => w).

Definition sim_world0 : SimWorld := mkSim 0 0 0 false.

Definition MiB : Z := 1024 * 1024.

(** A chain [1 (top) -> 2 (intermediate) -> 3 (base)], all qcow2. *)
Definition sim_drv (x : nat) : option BlockDriver :=
  Some (mkBlockDriver "qcow2" None false).

Definition sim_filename (x : nat) : string :=
  match x with
  | 1%nat => "top.qcow2"
  | 2%nat => "mid.qcow2"
  | _ => "base.qcow2"
  end.

(** The end-to-end scenario: 2 MiB, only [1 MiB, 1.5 MiB) allocated,
    in the intermediate image. *)
Definition scenario_2MiB : Scenario :=
  mkScenario (2 * MiB) [] [2] (2 * MiB) [] None []
    [(1, 2); (2, 3)]%nat [] sim_drv sim_filename false false 0.

(** Nothing is allocated above the base. *)
Definition scenario_empty : Scenario :=
  mkScenario (2 * MiB) [] [] (2 * MiB) [] None []
    [(1, 2); (2, 3)]%nat [] sim_drv sim_filename false false 0.

Definition sim_job (on_err : BlockdevOnError) (adaptive : bool)
  (threshold : Double.t) : StreamBlockJob :=
  mkStreamBlockJob (Some 2%nat) (Some 2%nat) (Some 100%nat) (Some 1%nat)
    on_err None false false adaptive threshold 1000000000.

(** ** Reading a run *)

(** All the calls of the loop, in order. *)
Definition history_trace (h : list IterRecord) : list Event :=
  flat_map ir_events h.

(** Progress published through [job_progress_update]. *)
Fixpoint published (evs : list Event) : Z :=
  match evs with
  | [] => 0
  | EvProgressUpdate n :: rest => n + published rest
  | _ :: rest => published rest
  end.

(** Bytes accounted with the rate limiter. *)
Fixpoint ratelimited (evs : list Event) : Z :=
  match evs with
  | [] => 0
  | EvRatelimitProcessed n :: rest => n + ratelimited rest
  | _ :: rest => ratelimited rest
  end.

(** Bytes requested from [blk_co_preadv]. *)
Fixpoint read_bytes (evs : list Event) : Z :=
  match evs with
  | [] => 0
  | EvPreadv _ bytes _ :: rest => bytes + read_bytes rest
  | _ :: rest => read_bytes rest
  end.

Definition is_read (ev : Event) : bool :=
  match ev with EvPreadv _ _ _ => true | _ => false end.

Definition is_progress (ev : Event) : bool :=
  match ev with EvProgressUpdate _ => true | _ => false end.

Definition is_error_action (ev : Event) : bool :=
  match ev with EvErrorAction _ _ _ => true | _ => false end.

Definition is_cancel_seen (ev : Event) : bool :=
  match ev with EvIsCancelled true => true | _ => false end.

(** The answer of an allocation query says "allocated above the base". *)
Definition is_allocated_above_answer (ev : Event) : bool :=
  match ev with
  | EvIsAllocatedAbove _ _ r _ => 0 <? r
  | _ => false
  end.

(** The calls that classify or copy a chunk, or report on it. *)
Definition is_chunk_event (ev : Event) : bool :=
  match ev with
  | EvIsAllocated _ _ _ _ | EvIsAllocatedAbove _ _ _ _ | EvPreadv _ _ _
  | EvErrorAction _ _ _ | EvProgressUpdate _ | EvRatelimitProcessed _ => true
  | _ => false
  end.

(** Every error action of the trace is [a]. *)
Definition action_eqb (a b : BlockErrorAction) : bool :=
  match a, b with
  | BLOCK_ERROR_ACTION_REPORT, BLOCK_ERROR_ACTION_REPORT
  | BLOCK_ERROR_ACTION_IGNORE, BLOCK_ERROR_ACTION_IGNORE
  | BLOCK_ERROR_ACTION_STOP, BLOCK_ERROR_ACTION_STOP => true
  | _, _ => false
  end.

Definition acts_only (a : BlockErrorAction) (ev : Event) : bool :=
  match ev with
  | EvErrorAction _ _ a' => action_eqb a a'
  | _ => true
  end.

Definition has_action (a : BlockErrorAction) (ev : Event) : bool :=
  match ev with
  | EvErrorAction _ _ a' => action_eqb a a'
  | _ => false
  end.

(** What the block layer promises about [*pnum]: a query on the top
    image answers a length that is not negative and stays inside the
    image; a query on the backing chain answers a length that is not
    negative and is at most the length asked. *)
Definition answer_in_image (len : Z) (ev : Event) : bool :=
  match ev with
  | EvIsAllocated offset _ _ pnum => (0 <=? pnum) && (offset + pnum <=? len)
  | EvIsAllocatedAbove _ bytes _ pnum => (0 <=? pnum) && (pnum <=? bytes)
  | _ => true
  end.

(** A host that makes progress on an image of [len] bytes, for a job
    with error mode [on_err]: a query on the top image inside the image
    answers a positive length that stays inside it; a query on the
    backing chain answers a positive length of at most the length
    asked, or "nothing allocated, nothing left"; and the error policy
    never asks to stop. *)
Definition host_progress {W} (H : Host W) (len : Z) (on_err : BlockdevOnError)
  : Prop :=
  (forall w bs offset,
      0 <= offset < len ->
      0 < snd (fst (bdrv_co_is_allocated H w bs offset STREAM_CHUNK)) /\
      offset + snd (fst (bdrv_co_is_allocated H w bs offset STREAM_CHUNK))
      <= len) /\
  (forall w top base offset bytes,
      0 <= offset -> 0 < bytes ->
      let a := fst (bdrv_co_is_allocated_above H w top base true offset bytes)
      in 0 < snd a <= bytes \/ (fst a = 0 /\ snd a = 0)) /\
  (forall w errno,
      fst (block_job_error_action H w on_err true errno)
      <> BLOCK_ERROR_ACTION_STOP).

(** The passes that end in the increment [offset += n], as chunks
    (start, length). *)
Definition advances_flow (f : Flow) : bool :=
  match f with
  | FlowStop | FlowEnd => true
  | _ => false
  end.

Definition advances (it : IterRecord) : bool := advances_flow (ir_flow it).

Definition chunks (h : list IterRecord) : list (Z * Z) :=
  map (fun it => (ir_offset it, ir_n it)) (filter advances h).

(** [contiguous lo hi cs]: the chunks follow one another from [lo] to
    [hi], none of negative length. *)
Fixpoint contiguous (lo hi : Z) (cs : list (Z * Z)) : Prop :=
  match cs with
  | [] => lo = hi
  | (o, n) :: rest => o = lo /\ 0 <= n /\ contiguous (lo + n) hi rest
  end.

Definition covers (b : Z) (c : Z * Z) : bool :=
  (fst c <=? b) && (b <? fst c + snd c).

(** Number of chunks that contain byte [b]. *)
Definition covering (b : Z) (cs : list (Z * Z)) : nat :=
  List.length (filter (covers b) cs).

(** The order of the calls within one pass of the loop. *)
Definition iteration_in_order (adaptive : bool) (evs : list Event) : bool :=
  match evs with
  | [EvRatelimitSleep; EvIsCancelled true] => true
  | EvRatelimitSleep :: EvIsCancelled false :: rest =>
      if adaptive then
        match rest with
        | EvAdaptivePause _ _ _ :: EvIsAllocated _ _ _ _ :: rest' =>
            forallb is_chunk_event rest'
        | _ => false
        end
      else
        match rest with
        | EvIsAllocated _ _ _ _ :: rest' => forallb is_chunk_event rest'
        | _ => false
        end
  | _ => false
  end.

(** The pass failed: [ret] was negative at its end. *)
Definition failed (it : IterRecord) : bool :=
  match ir_ret it with
  | Some r => r <? 0
  | None => false
  end.


(** The value of [error] on entry to the pass that follows [pre], in a
    loop entered with [error = e0]. *)
Definition error_before (e0 : Z) (pre : list IterRecord) : Z :=
  last (map ir_error pre) e0.

(** The two calls that rewrite the backing reference of the top image. *)
Definition is_rewrite_event (ev : Event) : bool :=
  match ev with
  | EvSetBackingHd _ _ _ | EvChangeBackingFile _ _ _ _ => true
  | _ => false
  end.

(** The backing file name to record: nothing when there is no base;
    else the string the caller supplied, else the file name of the
    base. *)
Definition spec_backing_file (override : option string)
  (base_filename : option string) : option string :=
  match base_filename with
  | None => None
  | Some filename =>
      Some (match override with Some str => str | None => filename end)
  end.

(** The backing format to record: nothing when the base has no driver;
    else "raw" when masking is asked for and the driver is a protocol
    driver, else the format name of the driver. *)
Definition spec_backing_format (mask : bool) (drv : option BlockDriver)
  : option string :=
  match drv with
  | None => None
  | Some d =>
      Some (if mask && is_some (protocol_name d) then "raw"%string
            else format_name d)
  end.

(** The mean of three doubles, summed from 0 in the order of the
    calibration loop. *)
Definition mean3 (a b c : Double.t) : Double.t :=
  Double.div (Double.add (Double.add (Double.add Double.zero a) b) c)
             Double.three.

Definition calibration_interval_ns : Z := 5000000000.

(** The calls of a complete calibration that read [v1], [v2], [v3]. *)
Definition calibration_events (tracking_overlay : bs_ptr)
  (v1 v2 v3 : Double.t) : list Event :=
  [EvSleepNs calibration_interval_ns; EvGetRwThroughput tracking_overlay v1;
   EvSleepNs calibration_interval_ns; EvGetRwThroughput tracking_overlay v2;
   EvSleepNs calibration_interval_ns; EvGetRwThroughput tracking_overlay v3].

(** The two assertions at the entry of [stream_start]. *)
Definition stream_start_precondition (a : StartArgs) : bool :=
  negb (is_some (sa_base a) && is_some (sa_bottom a)) &&
  negb (is_some (sa_backing_file_str a) && is_some (sa_bottom a)).

Definition entry_assertion_failed (o : StartOutcome) : bool :=
  match o with
  | StartAssertFailed c =>
      String.eqb c "!(base && bottom)" ||
      String.eqb c "!(backing_file_str && bottom)"
  | _ => false
  end.

(** No update of the schedule overflows the 64-bit counter; [count] is
    the value of the counter before the schedule. *)
Fixpoint updates_fit (count : Z) (schedule : list TrackerStep) : bool :=
  match schedule with
  | [] => true
  | StepUpdate ops :: rest =>
      (Int.INT64_MIN <=? count + ops) && (count + ops <=? Int.INT64_MAX) &&
      updates_fit (count + ops) rest
  | StepSampleLocked _ :: rest => updates_fit count rest
  | StepSampleInit _ :: rest => updates_fit 0 rest
  end.

(** ** Scenarios *)

(** Every chunk of a 2 MiB image must be copied; the second read fails
    with [EIO], the third with [ENOSPC]. *)
Definition scenario_read_fails : Scenario :=
  mkScenario (2 * MiB) [] [0; 1; 2; 3] (2 * MiB) [0; - EIO; - ENOSPC] None []
    [(1, 2); (2, 3)]%nat [] sim_drv sim_filename false false 0.

(** Cancellation is requested during the third rate-limiter sleep. *)
Definition scenario_cancel : Scenario :=
  mkScenario (2 * MiB) [] [2] (2 * MiB) [] (Some 3%nat) []
    [(1, 2); (2, 3)]%nat [] sim_drv sim_filename false false 0.

(** Foreground throughput of 100, 200 and 300 operations per second. *)
Definition scenario_samples : Scenario :=
  mkScenario (2 * MiB) [] [2] (2 * MiB) [] None
    [Double.of_Z 100; Double.of_Z 200; Double.of_Z 300]
    [(1, 2); (2, 3)]%nat [] sim_drv sim_filename false false 0.

(** The whole chain is streamed: [1 (top) -> 2], nothing below 2. *)
Definition scenario_no_base : Scenario :=
  mkScenario (2 * MiB) [] [2] (2 * MiB) [] None []
    [(1, 2)]%nat [] sim_drv sim_filename false false 0.

Definition minus_half : Double.t :=
  Double.div (Double.of_Z (-1)) (Double.of_Z 2).

(** A job on the chain of [scenario_no_base], with a backing file
    string supplied by the caller. *)
Definition sim_job_no_base : StreamBlockJob :=
  mkStreamBlockJob (Some 2%nat) (Some 2%nat) (Some 100%nat) (Some 1%nat)
    BLOCKDEV_ON_ERROR_REPORT (Some "new.img"%string) false false false
    Double.zero 0.

Definition sim_start_args (base bottom : bs_ptr)
  (backing_file_str : option string) : StartArgs :=
  mkStartArgs (Some "job0"%string) 1%nat base backing_file_str false bottom 0 0
    BLOCKDEV_ON_ERROR_REPORT None false Double.zero 0.

(** An update lands between the unlock of a sample and its reset. *)
Definition schedule_lost_update : list TrackerStep :=
  [StepUpdate 5;
   StepSampleLocked 1000000000;
   StepUpdate 3;
   StepSampleInit 1000000001;
   StepSampleLocked 2000000000;
   StepSampleInit 2000000001].

(** ** Cleanup: [stream_clean] *)

(** The calls of [stream_clean]: calls into the host that the job
    already makes elsewhere, the release of the block backend and the
    release of the backing file string. *)
Inductive CleanCall : Type :=
| CleanHost (ev : Event)
| CleanBlkUnref
| CleanFree (str : option string).

Section Clean.
Context {W : Type} (H : Host W).

(** [blk_unref] of the job's backend; the handle [s->blk] itself is not
    a field of the model. *)
Variable blk_unref : W -> W.

Definition stream_clean (s : StreamBlockJob) (w : W)
  : StreamBlockJob * list CleanCall * W :=
  let '(s1, calls1, w1) :=
    match cor_filter_bs s with
    | Some _ =>
        (set_cor_filter_bs s None,
         [CleanHost (EvCorFilterDrop (cor_filter_bs s))],
         bdrv_cor_filter_drop H w (cor_filter_bs s))
    | None => (s, [], w)
    end in
  let w2 := blk_unref w1 in
  (* Reopen the image back in read-only mode if necessary *)
  let '(calls3, w3) :=
    if bs_read_only s1 then
      let '(r, w') := bdrv_reopen_set_read_only H w2 (target_bs s1) true in
      ([CleanHost (EvReopenSetReadOnly (target_bs s1) true r)], w')
    else ([], w2) in
  (s1,
   calls1 ++ [CleanBlkUnref] ++ calls3 ++ [CleanFree (backing_file_str s1)],
   w3).

End Clean.

(** ** Reading the calls of setup, completion and cleanup *)

Definition dropped_filter (ev : Event) : option bs_ptr :=
  match ev with
  | EvCorFilterDrop bs => Some bs
  | _ => None
  end.

(** The filter nodes dropped, in order. *)
Fixpoint dropped_filters (evs : list Event) : list bs_ptr :=
  match evs with
  | [] => []
  | EvCorFilterDrop bs :: rest => bs :: dropped_filters rest
  | _ :: rest => dropped_filters rest
  end.

(** The filter nodes that [bdrv_insert_node] returned, in order. *)
Fixpoint inserted_filters (evs : list Event) : list bs_ptr :=
  match evs with
  | [] => []
  | EvInsertNode _ _ _ (Some f) :: rest => Some f :: inserted_filters rest
  | _ :: rest => inserted_filters rest
  end.

(** The modes asked of [bdrv_reopen_set_read_only], in order. *)
Fixpoint reopen_modes (evs : list Event) : list bool :=
  match evs with
  | [] => []
  | EvReopenSetReadOnly _ read_only _ :: rest => read_only :: reopen_modes rest
  | _ :: rest => reopen_modes rest
  end.

Definition is_job_start (ev : Event) : bool :=
  match ev with EvJobStart => true | _ => false end.

Definition is_job_early_fail (ev : Event) : bool :=
  match ev with EvJobEarlyFail => true | _ => false end.

Definition is_job_create_ok (ev : Event) : bool :=
  match ev with EvBlockJobCreate _ _ _ true => true | _ => false end.

Definition host_calls (calls : list CleanCall) : list Event :=
  flat_map (fun c => match c with CleanHost ev => [ev] | _ => [] end) calls.

(** Drained sections and references are well nested: [open] is the
    stack of what is held; a rewrite of the backing reference is only
    made while the top image is drained. *)
Inductive Held : Type :=
| HeldDrain (bs : bs_ptr)
| HeldRef (bs : bs_ptr).

Definition held_eqb (a b : Held) : bool :=
  match a, b with
  | HeldDrain x, HeldDrain y => bs_ptr_eqb x y
  | HeldRef x, HeldRef y => bs_ptr_eqb x y
  | _, _ => false
  end.

Fixpoint well_bracketed (held : list Held) (evs : list Event) : bool :=
  match evs with
  | [] => match held with [] => true | _ => false end
  | EvDrainedBegin bs :: rest => well_bracketed (HeldDrain bs :: held) rest
  | EvRef bs :: rest => well_bracketed (HeldRef bs :: held) rest
  | EvDrainedEnd bs :: rest =>
      match held with
      | h :: held' => held_eqb h (HeldDrain bs) && well_bracketed held' rest
      | [] => false
      end
  | EvUnref bs :: rest =>
      match held with
      | h :: held' => held_eqb h (HeldRef bs) && well_bracketed held' rest
      | [] => false
      end
  | EvSetBackingHd bs _ _ :: rest | EvChangeBackingFile bs _ _ _ :: rest =>
      existsb (held_eqb (HeldDrain bs)) held && well_bracketed held rest
  | _ :: rest => well_bracketed held rest
  end.

(** ** Reading the reads of the copy loop *)

(** Within one pass: a query on the backing chain follows a query on
    the top image that answered "not allocated" for the same offset, and
    asks about the length that query answered; a read follows a query
    on the backing chain that answered "allocated" for the same offset,
    and reads the length that query answered. *)
Fixpoint reads_justified (prev : option Event) (evs : list Event) : bool :=
  match evs with
  | [] => true
  | ev :: rest =>
      match ev with
      | EvIsAllocatedAbove offset bytes _ _ =>
          match prev with
          | Some (EvIsAllocated offset' _ r pnum) =>
              (offset =? offset') && (bytes =? pnum) && (0 <=? r) &&
              negb (r =? 1)
          | _ => false
          end
      | EvPreadv offset bytes _ =>
          match prev with
          | Some (EvIsAllocatedAbove offset' _ r pnum) =>
              (offset =? offset') && (0 <? r) &&
              (bytes =? Int.int64 (Int.uint64 pnum))
          | _ => false
          end
      | _ => true
      end && reads_justified (Some ev) rest
  end.

(** A read stays inside an image of [len] bytes. *)
Definition read_in_image (len : Z) (ev : Event) : bool :=
  match ev with
  | EvPreadv offset bytes _ =>
      (0 <=? offset) && (0 <=? bytes) && (offset + bytes <=? len)
  | _ => true
  end.

(** The query on the backing chain found the end of the backing files:
    nothing allocated and nothing left. *)
Definition is_end_of_backing (ev : Event) : bool :=
  match ev with
  | EvIsAllocatedAbove _ _ r pnum => (r =? 0) && (pnum =? 0)
  | _ => false
  end.

(** The error policy was asked once, about [errno], for mode [on_err]. *)
Definition error_actions (evs : list Event)
  : list (BlockdevOnError * Z) :=
  flat_map (fun ev => match ev with
                      | EvErrorAction on_err errno _ => [(on_err, errno)]
                      | _ => []
                      end) evs.

(** ** Reading a schedule of the tracker *)

Fixpoint updates_nonneg (schedule : list TrackerStep) : bool :=
  match schedule with
  | [] => true
  | StepUpdate ops :: rest => (0 <=? ops) && updates_nonneg rest
  | _ :: rest => updates_nonneg rest
  end.

(** Two samples, each taken whole, with updates before each. *)
Definition schedule_atomic : list TrackerStep :=
  [StepUpdate 5;
   StepSampleLocked 1000000000;
   StepSampleInit 1000000001;
   StepUpdate 3;
   StepSampleLocked 2000000000;
   StepSampleInit 2000000001].

(** ** More scenarios *)

(** The backing files end at 1 MiB; the top image is 2 MiB long. *)
Definition scenario_short_backing : Scenario :=
  mkScenario (2 * MiB) [] [0] (1 * MiB) [] None []
    [(1, 2); (2, 3)]%nat [] sim_drv sim_filename false false 0.

(** An image of length 0. *)
Definition scenario_zero_length : Scenario :=
  mkScenario 0 [] [] 0 [] None []
    [(1, 2); (2, 3)]%nat [] sim_drv sim_filename false false 0.

(** A read-only top image [1] over [2] over the base [3]. *)
Definition scenario_read_only : Scenario :=
  mkScenario (2 * MiB) [] [2] (2 * MiB) [] None []
    [(1, 2); (2, 3)]%nat [] sim_drv sim_filename true false 0.

Definition is_tracker_enable (ev : Event) : bool :=
  match ev with EvEnableTracker _ _ => true | _ => false end.

(** ** Failing allocation queries *)




Local Close Scope monad_scope.

(** * Properties *)

(** ** Machine integers *)

Lemma int64_id x : Int.in_int64 x -> Int.int64 x = x.
Proof.
  unfold Int.in_int64, Int.INT64_MIN, Int.INT64_MAX, Int.int64, Int.wrap.
  intros Hx.
  change (2 ^ (64 - 1)) with 9223372036854775808 in *.
  change (2 ^ 63) with 9223372036854775808 in *.
  change (2 ^ 64) with 18446744073709551616.
  rewrite Z.mod_small; lia.
Qed.

Lemma int64_range x : Int.in_int64 (Int.int64 x).
Proof.
  unfold Int.in_int64, Int.INT64_MIN, Int.INT64_MAX, Int.int64, Int.wrap.
  change (2 ^ (64 - 1)) with 9223372036854775808.
  change (2 ^ 63) with 9223372036854775808.
  change (2 ^ 64) with 18446744073709551616.
  pose proof (Z.mod_pos_bound (x + 9223372036854775808) 18446744073709551616).
  lia.
Qed.

Lemma uint64_id x : 0 <= x <= Int.INT64_MAX -> Int.uint64 x = x.
Proof.
  unfold Int.uint64, Int.INT64_MAX.
  change (2 ^ 63) with 9223372036854775808.
  change (2 ^ 64) with 18446744073709551616.
  intros Hx. rewrite Z.mod_small; lia.
Qed.

Lemma add64_zero x : Int.in_int64 x -> Int.add64 x 0 = x.
Proof. intros Hx. unfold Int.add64. rewrite Z.add_0_r. now apply int64_id. Qed.

(** ** Event lists *)

Lemma published_app e1 e2 : published (e1 ++ e2) = published e1 + published e2.
Proof.
  induction e1 as [|ev e1 IH]; cbn; [reflexivity|].
  destruct ev; cbn; rewrite ?IH; lia.
Qed.

Lemma ratelimited_app e1 e2 :
  ratelimited (e1 ++ e2) = ratelimited e1 + ratelimited e2.
Proof.
  induction e1 as [|ev e1 IH]; cbn; [reflexivity|].
  destruct ev; cbn; rewrite ?IH; lia.
Qed.

Lemma read_bytes_app e1 e2 :
  read_bytes (e1 ++ e2) = read_bytes e1 + read_bytes e2.
Proof.
  induction e1 as [|ev e1 IH]; cbn; [reflexivity|].
  destruct ev; cbn; rewrite ?IH; lia.
Qed.

Lemma acts_only_excludes a a' evs :
  forallb (acts_only a) evs = true ->
  existsb (has_action a') evs = true ->
  a' = a.
Proof.
  induction evs as [|ev evs IH]; cbn; [discriminate|].
  rewrite andb_true_iff, orb_true_iff. intros [Hev Hall] [Hx|Hx]; auto.
  destruct ev; cbn in *; try discriminate.
  destruct a, a', action; cbn in *; congruence.
Qed.

Lemma history_trace_cons it h :
  history_trace (it :: h) = ir_events it ++ history_trace h.
Proof. reflexivity. Qed.

Lemma history_trace_app h1 h2 :
  history_trace (h1 ++ h2) = history_trace h1 ++ history_trace h2.
Proof. unfold history_trace. now rewrite flat_map_app. Qed.

Lemma chunks_cons it h :
  chunks (it :: h) =
  if advances_flow (ir_flow it) then (ir_offset it, ir_n it) :: chunks h
  else chunks h.
Proof.
  unfold chunks, advances. cbn. now destruct (advances_flow (ir_flow it)).
Qed.

Ltac loop_simpl :=
  cbn [lr_exit lr_offset lr_n lr_error lr_history lr_world] in *;
  rewrite ?history_trace_cons, ?chunks_cons in *;
  cbn [ir_offset ir_events ir_flow ir_n ir_error ir_ret] in *.


Lemma has_action_error a evs :
  existsb (has_action a) evs = true -> existsb is_error_action evs = true.
Proof.
  induction evs as [|ev evs IH]; cbn; [discriminate|].
  rewrite !orb_true_iff. intros [Hev|Hev]; auto.
  left. now destruct ev.
Qed.

Lemma cons_split {A} (x y : A) h pre post :
  x :: h = pre ++ y :: post ->
  (pre = [] /\ y = x /\ post = h) \/
  (exists pre', pre = x :: pre' /\ h = pre' ++ y :: post).
Proof.
  destruct pre as [|z pre]; cbn; intros [= -> ->]; eauto.
Qed.

Lemma singleton_split {A} (x y : A) pre post :
  [x] = pre ++ y :: post -> pre = [] /\ y = x /\ post = [].
Proof.
  intros Hs. destruct (cons_split _ _ _ _ _ Hs) as [?|(pre' & _ & Hnil)]; auto.
  now destruct pre'.
Qed.

(** ** One pass of the loop body *)

Ltac body_unfold :=
  unfold stream_run_body, stream_classify, stream_populate, stream_publish,
    bind, ret, call, exec, peek, ask in *.

Ltac body_step :=
  match goal with
  | H : context [match ?x with _ => _ end] |- _ =>
      lazymatch x with
      | context [match _ with _ => _ end] => fail
      | _ => destruct x eqn:?
      end
  | H : context [if ?x then _ else _] |- _ =>
      lazymatch x with
      | context [if _ then _ else _] => fail
      | _ => destruct x eqn:?
      end
  end.

Ltac body_cases Hb :=
  body_unfold; repeat (body_step; cbn in * );
  inversion Hb; subst; clear Hb; cbn in *.

Section BodyFacts.
Context {W : Type} (H : Host W).
Variables (s : StreamBlockJob) (unfiltered_bs tracking_overlay : bs_ptr).
Variables (len offset n error : Z) (w w1 : W) (b : Body) (evs : list Event).
Hypothesis Hbody :
  stream_run_body H s unfiltered_bs tracking_overlay len offset n error w
  = (b, evs, w1).

Lemma body_in_order : iteration_in_order (adaptive_stream s) evs = true.
Proof. revert Hbody. intros Hb. body_cases Hb; reflexivity. Qed.

Lemma body_cancelled :
  existsb is_cancel_seen evs = true ->
  b_flow b = FlowCancelled /\ evs = [EvRatelimitSleep; EvIsCancelled true] /\
  b_n b = n /\ b_error b = error.
Proof. revert Hbody. intros Hb. body_cases Hb; intros; try discriminate; auto. Qed.

Lemma body_flow_cancelled :
  b_flow b = FlowCancelled -> existsb is_cancel_seen evs = true.
Proof. revert Hbody. intros Hb. body_cases Hb; intros; try discriminate; auto. Qed.

Lemma body_stop :
  existsb (has_action BLOCK_ERROR_ACTION_STOP) evs = true ->
  b_flow b = FlowStop.
Proof. revert Hbody. intros Hb. body_cases Hb; intros; try discriminate; auto. Qed.

Lemma body_flow_stop :
  b_flow b = FlowStop ->
  existsb (has_action BLOCK_ERROR_ACTION_STOP) evs = true /\
  b_n b = 0 /\ b_error b = error /\
  forallb (fun ev => negb (is_progress ev)) evs = true /\
  exists r, b_ret b = Some r /\ r < 0.
Proof.
  revert Hbody. intros Hb.
  body_cases Hb; intros; try discriminate; repeat split; auto;
    eexists; split; eauto; lia.
Qed.

Lemma body_flow_report :
  b_flow b = FlowReport ->
  exists r pre,
    b_ret b = Some r /\ r < 0 /\
    b_error b = (if error =? 0 then r else error) /\
    evs = pre ++ [EvErrorAction (on_error s) (Int.neg32 r)
                    BLOCK_ERROR_ACTION_REPORT] /\
    forallb (fun ev => negb (is_progress ev)) evs = true.
Proof.
  revert Hbody. intros Hb.
  body_cases Hb; intros; try discriminate;
    match goal with
    | |- exists r pre, Some ?x = Some r /\ _ =>
        exists x;
        match goal with
        | |- exists pre, _ /\ _ /\ _ /\ ?l = _ /\ _ =>
            exists (removelast l)
        end
    end; cbn; repeat split; auto; lia.
Qed.

Lemma body_flow_end :
  b_flow b = FlowEnd ->
  exists r,
    b_ret b = Some r /\
    b_error b = (if r <? 0 then (if error =? 0 then r else error) else error) /\
    (r < 0 -> existsb (has_action BLOCK_ERROR_ACTION_IGNORE) evs = true) /\
    (0 <= r -> existsb is_error_action evs = false).
Proof.
  revert Hbody. intros Hb.
  body_cases Hb; intros; try discriminate; eexists; split; eauto;
    repeat match goal with
      | Hlt : (?x <? 0) = _ |- _ =>
          first [ rewrite Hlt | apply Z.ltb_lt in Hlt | apply Z.ltb_ge in Hlt ]
      end; repeat split; auto; intros; lia.
Qed.

Lemma body_flow_break_ret :
  b_flow b = FlowCancelled \/ b_flow b = FlowAssert ->
  b_ret b = None /\ b_error b = error.
Proof.
  revert Hbody. intros Hb.
  body_cases Hb; intros [?|?]; try discriminate; auto.
Qed.


Lemma body_published :
  published evs = if advances_flow (b_flow b) then b_n b else 0.
Proof.
  revert Hbody. intros Hb. body_cases Hb; try reflexivity; lia.
Qed.

Lemma body_no_copy :
  existsb is_allocated_above_answer evs = false ->
  existsb is_read evs = false /\ ratelimited evs = 0.
Proof.
  revert Hbody. intros Hb.
  body_cases Hb; intros; auto;
    repeat match goal with
      | Hx : (0 <? ?x) = _, Hy : context [0 <? ?x] |- _ =>
          rewrite Hx in Hy; cbn in Hy
      end; try discriminate; auto.
Qed.

Lemma body_advance_bounds :
  0 <= offset < len -> len <= Int.INT64_MAX ->
  forallb (answer_in_image len) evs = true ->
  b_flow b = FlowStop \/ b_flow b = FlowEnd ->
  0 <= b_n b /\ offset + b_n b <= len.
Proof.
  revert Hbody. intros Hb Hoff Hlen.
  body_cases Hb; intros Hans [?|?]; try discriminate; try lia;
    repeat match goal with
      | Hx : _ && _ = true |- _ => apply andb_true_iff in Hx; destruct Hx
      | Hx : (_ <=? _) = true |- _ => apply Z.leb_le in Hx
      | Hx : (_ =? _) = true |- _ => apply Z.eqb_eq in Hx
      end; subst; cbn in *;
    try (unfold Int.sub64; rewrite int64_id;
         [| unfold Int.in_int64, Int.INT64_MIN, Int.INT64_MAX in *]); lia.
Qed.


End BodyFacts.

(** ** The loop as a whole *)

Section LoopFacts.
Context {W : Type} (H : Host W).
Variables (s : StreamBlockJob) (unfiltered_bs tracking_overlay : bs_ptr).
Variable len : Z.

(** Induction over the passes of a loop that came to an end. *)
Lemma stream_run_loop_ind
  (P : Z -> Z -> Z -> W -> @LoopResult W -> Prop) :
  (forall offset n error w,
      len <= offset ->
      P offset n error w (mkLoop ExitCondition offset n error [] w)) ->
  (forall offset n error w b evs w1,
      offset < len ->
      stream_run_body H s unfiltered_bs tracking_overlay len offset n error w
      = (b, evs, w1) ->
      b_flow b = FlowCancelled \/ b_flow b = FlowReport ->
      P offset n error w
        (mkLoop ExitBreak offset (b_n b) (b_error b)
           [mkIter offset evs (b_flow b) (b_n b) (b_error b) (b_ret b)] w1)) ->
  (forall offset n error w b evs w1,
      offset < len ->
      stream_run_body H s unfiltered_bs tracking_overlay len offset n error w
      = (b, evs, w1) ->
      b_flow b = FlowAssert ->
      P offset n error w
        (mkLoop ExitAssert offset (b_n b) (b_error b)
           [mkIter offset evs (b_flow b) (b_n b) (b_error b) (b_ret b)] w1)) ->
  (forall offset n error w b evs w1 r,
      offset < len ->
      stream_run_body H s unfiltered_bs tracking_overlay len offset n error w
      = (b, evs, w1) ->
      b_flow b = FlowStop \/ b_flow b = FlowEnd ->
      P (Int.add64 offset (b_n b)) (b_n b) (b_error b) w1 r ->
      P offset n error w
        (mkLoop (lr_exit r) (lr_offset r) (lr_n r) (lr_error r)
           (mkIter offset evs (b_flow b) (b_n b) (b_error b) (b_ret b)
              :: lr_history r) (lr_world r))) ->
  forall fuel offset n error w r,
    stream_run_loop H fuel s unfiltered_bs tracking_overlay len offset n error w
    = Some r ->
    P offset n error w r.
Proof.
  intros Hdone Hbreak Hassert Hstep.
  induction fuel as [|fuel IH]; intros offset n error w r; cbn [stream_run_loop].
  - destruct (offset <? len) eqn:Hlt; [discriminate|].
    intros [= <-]. apply Hdone. now apply Z.ltb_ge.
  - destruct (offset <? len) eqn:Hlt.
    + apply Z.ltb_lt in Hlt.
      destruct (stream_run_body _ _ _ _ _ _ _ _ _) as [[b evs] w1] eqn:Hb.
      destruct (b_flow b) eqn:Hf.
      * intros [= <-]. rewrite <- Hf. apply Hbreak; auto.
      * destruct (stream_run_loop _ fuel _ _ _ _ _ _ _ _) as [r'|] eqn:Hr; [|discriminate].
        intros [= <-]. rewrite <- Hf. eapply Hstep; eauto.
      * intros [= <-]. rewrite <- Hf. apply Hbreak; auto.
      * destruct (stream_run_loop _ fuel _ _ _ _ _ _ _ _) as [r'|] eqn:Hr; [|discriminate].
        intros [= <-]. rewrite <- Hf. eapply Hstep; eauto.
      * intros [= <-]. rewrite <- Hf. apply Hassert; auto.
    + intros [= <-]. apply Hdone. now apply Z.ltb_ge.
Qed.

Lemma loop_partition :
  len <= Int.INT64_MAX ->
  forall fuel offset n error w r,
    stream_run_loop H fuel s unfiltered_bs tracking_overlay len offset n error w
    = Some r ->
    0 <= offset <= len ->
    forallb (answer_in_image len) (history_trace (lr_history r)) = true ->
    contiguous offset (lr_offset r) (chunks (lr_history r)) /\
    lr_offset r <= len /\
    (lr_exit r = ExitCondition -> lr_offset r = len) /\
    published (history_trace (lr_history r)) = lr_offset r - offset /\
    Forall (fun it => ir_flow it = FlowStop -> ir_n it = 0) (lr_history r).
Proof.
  intros Hmax fuel offset n error w r Hrun.
  refine (stream_run_loop_ind
    (fun offset n error w r =>
      0 <= offset <= len ->
      forallb (answer_in_image len) (history_trace (lr_history r)) = true ->
      contiguous offset (lr_offset r) (chunks (lr_history r)) /\
      lr_offset r <= len /\
      (lr_exit r = ExitCondition -> lr_offset r = len) /\
      published (history_trace (lr_history r)) = lr_offset r - offset /\
      Forall (fun it => ir_flow it = FlowStop -> ir_n it = 0) (lr_history r))
    _ _ _ _ fuel offset n error w r Hrun);
    clear fuel offset n error w r Hrun.
  - intros offset n error w Hge Hoff _. cbn. repeat split; auto; intros; try lia.
  - intros offset n error w b evs w1 Hlt Hb Hf Hoff _.
    pose proof (body_published H _ _ _ _ _ _ _ _ _ _ _ Hb) as Hp.
    loop_simpl. cbn. rewrite app_nil_r, Hp.
    destruct Hf as [Hf|Hf]; rewrite Hf; cbn;
      repeat split; try lia; try discriminate;
      constructor; auto; cbn; congruence.
  - intros offset n error w b evs w1 Hlt Hb Hf Hoff _.
    pose proof (body_published H _ _ _ _ _ _ _ _ _ _ _ Hb) as Hp.
    loop_simpl. cbn. rewrite app_nil_r, Hp, Hf. cbn.
    repeat split; try lia; try discriminate.
    constructor; auto; cbn; congruence.
  - intros offset n error w b evs w1 r Hlt Hb Hf IH Hoff Hans.
    loop_simpl. rewrite forallb_app in Hans.
    apply andb_true_iff in Hans. destruct Hans as [Hans1 Hans2].
    pose proof (body_advance_bounds H _ _ _ _ _ _ _ _ _ _ _ Hb
                  (conj (proj1 Hoff) Hlt) Hmax Hans1 Hf) as [Hn0 Hn1].
    pose proof (body_published H _ _ _ _ _ _ _ _ _ _ _ Hb) as Hp.
    assert (Hadd : Int.add64 offset (b_n b) = offset + b_n b).
    { unfold Int.add64. apply int64_id.
      unfold Int.in_int64, Int.INT64_MIN, Int.INT64_MAX in *. lia. }
    rewrite Hadd in IH.
    destruct IH as (Hc & Hle & Hex & Hpub & Hstop); [lia|assumption|].
    assert (Hadv : advances_flow (b_flow b) = true)
      by (destruct Hf as [Hf|Hf]; rewrite Hf; reflexivity).
    rewrite published_app, Hp, Hpub, Hadv. cbn [contiguous].
    repeat split; auto; try lia.
    constructor; auto. cbn. intros Hs.
    now destruct (body_flow_stop H _ _ _ _ _ _ _ _ _ _ _ Hb Hs) as (_ & ? & _).
Qed.

End LoopFacts.

(** ** Chunks that follow one another cover each byte once *)

Lemma contiguous_le lo hi cs : contiguous lo hi cs -> lo <= hi.
Proof.
  revert lo. induction cs as [|[o n] cs IH]; cbn; intros lo.
  - lia.
  - intros (_ & Hn & Hc). specialize (IH _ Hc). lia.
Qed.

Lemma covering_contiguous lo hi cs b :
  contiguous lo hi cs ->
  covering b cs = if (lo <=? b) && (b <? hi) then 1%nat else 0%nat.
Proof.
  revert lo. induction cs as [|[o n] cs IH]; cbn; intros lo.
  - intros <-. unfold covering. cbn.
    destruct (lo <=? b) eqn:H1, (b <? lo) eqn:H2; cbn; auto; lia.
  - intros (-> & Hn & Hc). pose proof (contiguous_le _ _ _ Hc) as Hle.
    specialize (IH _ Hc). unfold covering in *. cbn.
    unfold covers at 1. cbn.
    destruct (lo <=? b) eqn:H1, (b <? lo + n) eqn:H2; cbn;
      rewrite IH;
      destruct (lo + n <=? b) eqn:H3, (b <? hi) eqn:H4; cbn; auto; lia.
Qed.

Section LoopClaims.
Context {W : Type} (H : Host W).
Variables (s : StreamBlockJob) (unfiltered_bs tracking_overlay : bs_ptr).
Variable len : Z.

Lemma loop_no_copy fuel offset n error w r :
  stream_run_loop H fuel s unfiltered_bs tracking_overlay len offset n error w
  = Some r ->
  existsb is_allocated_above_answer (history_trace (lr_history r)) = false ->
  existsb is_read (history_trace (lr_history r)) = false /\
  ratelimited (history_trace (lr_history r)) = 0.
Proof.
  intros Hrun.
  refine (stream_run_loop_ind H s unfiltered_bs tracking_overlay len
    (fun offset n error w r =>
       existsb is_allocated_above_answer (history_trace (lr_history r)) = false ->
       existsb is_read (history_trace (lr_history r)) = false /\
       ratelimited (history_trace (lr_history r)) = 0)
    _ _ _ _ fuel offset n error w r Hrun);
    clear fuel offset n error w r Hrun.
  - intros. cbn. auto.
  - intros offset n error w b evs w1 _ Hb _ Hno. loop_simpl.
    cbn in *. rewrite app_nil_r in *.
    exact (body_no_copy H _ _ _ _ _ _ _ _ _ _ _ Hb Hno).
  - intros offset n error w b evs w1 _ Hb _ Hno. loop_simpl.
    cbn in *. rewrite app_nil_r in *.
    exact (body_no_copy H _ _ _ _ _ _ _ _ _ _ _ Hb Hno).
  - intros offset n error w b evs w1 r _ Hb _ IH Hno. loop_simpl.
    rewrite existsb_app in Hno. apply orb_false_iff in Hno.
    destruct Hno as [Hno1 Hno2].
    destruct (body_no_copy H _ _ _ _ _ _ _ _ _ _ _ Hb Hno1) as [Hr1 Hl1].
    destruct (IH Hno2) as [Hr2 Hl2].
    rewrite existsb_app, ratelimited_app, Hr1, Hr2, Hl1, Hl2. auto.
Qed.

Lemma loop_order fuel offset n error w r :
  stream_run_loop H fuel s unfiltered_bs tracking_overlay len offset n error w
  = Some r ->
  Forall (fun it => iteration_in_order (adaptive_stream s) (ir_events it) = true)
         (lr_history r).
Proof.
  intros Hrun.
  refine (stream_run_loop_ind H s unfiltered_bs tracking_overlay len
    (fun offset n error w r =>
       Forall (fun it =>
                 iteration_in_order (adaptive_stream s) (ir_events it) = true)
              (lr_history r))
    _ _ _ _ fuel offset n error w r Hrun);
    clear fuel offset n error w r Hrun; intros; cbn;
    repeat constructor; auto; cbn;
    eapply body_in_order; eauto.
Qed.

Lemma loop_first_offset fuel offset n error w r :
  stream_run_loop H fuel s unfiltered_bs tracking_overlay len offset n error w
  = Some r ->
  match lr_history r with
  | it :: _ => ir_offset it = offset
  | [] => lr_offset r = offset /\ len <= offset
  end.
Proof.
  destruct fuel; cbn [stream_run_loop];
    destruct (offset <? len) eqn:Hlt; try discriminate;
    try (intros [= <-]; cbn; split; auto; now apply Z.ltb_ge).
  destruct (stream_run_body _ _ _ _ _ _ _ _ _) as [[b evs] w1].
  destruct (b_flow b); try (intros [= <-]; reflexivity);
    destruct (stream_run_loop _ _ _ _ _ _ _ _ _ _); try discriminate;
    intros [= <-]; reflexivity.
Qed.

Lemma loop_cancel fuel offset n error w r :
  stream_run_loop H fuel s unfiltered_bs tracking_overlay len offset n error w
  = Some r ->
  forall pre it post,
    lr_history r = pre ++ it :: post ->
    existsb is_cancel_seen (ir_events it) = true ->
    post = [] /\ lr_exit r = ExitBreak /\ lr_offset r = ir_offset it /\
    ir_flow it = FlowCancelled /\
    ir_events it = [EvRatelimitSleep; EvIsCancelled true].
Proof.
  intros Hrun.
  refine (stream_run_loop_ind H s unfiltered_bs tracking_overlay len
    (fun offset n error w r =>
       forall pre it post,
         lr_history r = pre ++ it :: post ->
         existsb is_cancel_seen (ir_events it) = true ->
         post = [] /\ lr_exit r = ExitBreak /\ lr_offset r = ir_offset it /\
         ir_flow it = FlowCancelled /\
         ir_events it = [EvRatelimitSleep; EvIsCancelled true])
    _ _ _ _ fuel offset n error w r Hrun);
    clear fuel offset n error w r Hrun.
  - intros offset n error w _ pre it post Hs. cbn in Hs. now destruct pre.
  - intros offset n error w b evs w1 _ Hb _ pre it post Hs Hc. cbn in Hs.
    apply singleton_split in Hs. destruct Hs as (-> & -> & ->). cbn in *.
    destruct (body_cancelled H _ _ _ _ _ _ _ _ _ _ _ Hb Hc) as (? & ? & _).
    auto.
  - intros offset n error w b evs w1 _ Hb Hf pre it post Hs Hc. cbn in Hs.
    apply singleton_split in Hs. destruct Hs as (-> & -> & ->). cbn in *.
    destruct (body_cancelled H _ _ _ _ _ _ _ _ _ _ _ Hb Hc) as (? & ? & _).
    congruence.
  - intros offset n error w b evs w1 r _ Hb Hf IH pre it post Hs Hc.
    cbn in Hs. apply cons_split in Hs.
    destruct Hs as [(-> & -> & ->)|(pre' & -> & Hs)].
    + cbn in Hc.
      destruct (body_cancelled H _ _ _ _ _ _ _ _ _ _ _ Hb Hc) as (? & _).
      destruct Hf; congruence.
    + cbn. eapply IH; eauto.
Qed.

End LoopClaims.

Lemma last_cons_default {A} (l : list A) (a d : A) :
  last (a :: l) d = last l a.
Proof.
  revert a d. induction l as [|x l IH]; intros a d; [reflexivity|].
  change (last (a :: x :: l) d) with (last (x :: l) d).
  now rewrite (IH x d), (IH x a).
Qed.

Lemma error_before_cons e it pre :
  error_before e (it :: pre) = error_before (ir_error it) pre.
Proof. unfold error_before. cbn [map]. apply last_cons_default. Qed.


Section LoopErrors.
Context {W : Type} (H : Host W).
Variables (s : StreamBlockJob) (unfiltered_bs tracking_overlay : bs_ptr).
Variable len : Z.



Lemma loop_stop fuel offset n error w r :
  stream_run_loop H fuel s unfiltered_bs tracking_overlay len offset n error w
  = Some r ->
  Int.in_int64 offset ->
  (forall pre it post,
      lr_history r = pre ++ it :: post ->
      existsb (has_action BLOCK_ERROR_ACTION_STOP) (ir_events it) = true ->
      ir_flow it = FlowStop /\ ir_n it = 0 /\
      ir_error it = error_before error pre /\
      forallb (fun ev => negb (is_progress ev)) (ir_events it) = true /\
      exists next post', post = next :: post' /\
                         ir_offset next = ir_offset it) /\
  match lr_history r with
  | it :: _ => ir_offset it = offset
  | [] => len <= offset
  end.
Proof.
  intros Hrun.
  refine (stream_run_loop_ind H s unfiltered_bs tracking_overlay len
    (fun offset n error w r =>
       Int.in_int64 offset ->
       (forall pre it post,
           lr_history r = pre ++ it :: post ->
           existsb (has_action BLOCK_ERROR_ACTION_STOP) (ir_events it) = true ->
           ir_flow it = FlowStop /\ ir_n it = 0 /\
           ir_error it = error_before error pre /\
           forallb (fun ev => negb (is_progress ev)) (ir_events it) = true /\
           exists next post', post = next :: post' /\
                              ir_offset next = ir_offset it) /\
       match lr_history r with
       | it :: _ => ir_offset it = offset
       | [] => len <= offset
       end)
    _ _ _ _ fuel offset n error w r Hrun);
    clear fuel offset n error w r Hrun.
  - intros offset n error w Hge _. cbn. split; auto.
    intros pre it post Hs. now destruct pre.
  - intros offset n error w b evs w1 _ Hb Hf _. cbn. split; auto.
    intros pre it post Hs Hst. apply singleton_split in Hs.
    destruct Hs as (-> & -> & ->). cbn in Hst.
    pose proof (body_stop H _ _ _ _ _ _ _ _ _ _ _ Hb Hst).
    destruct Hf; congruence.
  - intros offset n error w b evs w1 _ Hb Hf _. cbn. split; auto.
    intros pre it post Hs Hst. apply singleton_split in Hs.
    destruct Hs as (-> & -> & ->). cbn in Hst.
    pose proof (body_stop H _ _ _ _ _ _ _ _ _ _ _ Hb Hst). congruence.
  - intros offset n error w b evs w1 r Hlt Hb Hf IH Hin. cbn. split; auto.
    destruct (IH (int64_range _)) as [IH1 IH2].
    intros pre it post Hs Hst. apply cons_split in Hs.
    destruct Hs as [(-> & -> & ->)|(pre' & -> & Hs)].
    + cbn in Hst. pose proof (body_stop H _ _ _ _ _ _ _ _ _ _ _ Hb Hst) as Hfs.
      destruct (body_flow_stop H _ _ _ _ _ _ _ _ _ _ _ Hb Hfs)
        as (_ & Hn & He & Hnp & _).
      cbn. repeat split; auto.
      rewrite Hn, add64_zero in IH2 by assumption.
      destruct (lr_history r) as [|next post']; [lia|]. eauto.
    + rewrite error_before_cons. cbn [ir_error]. eapply IH1; eauto.
Qed.

Lemma loop_stop_error fuel offset n error w r :
  stream_run_loop H fuel s unfiltered_bs tracking_overlay len offset n error w
  = Some r ->
  forallb (acts_only BLOCK_ERROR_ACTION_STOP) (history_trace (lr_history r))
  = true ->
  lr_error r = error /\
  Forall (fun it => ir_error it = error) (lr_history r).
Proof.
  intros Hrun.
  refine (stream_run_loop_ind H s unfiltered_bs tracking_overlay len
    (fun offset n error w r =>
       forallb (acts_only BLOCK_ERROR_ACTION_STOP)
         (history_trace (lr_history r)) = true ->
       lr_error r = error /\
       Forall (fun it => ir_error it = error) (lr_history r))
    _ _ _ _ fuel offset n error w r Hrun);
    clear fuel offset n error w r Hrun.
  - intros. cbn. auto.
  - intros offset n error w b evs w1 _ Hb Hf Hall. loop_simpl.
    cbn in Hall. rewrite app_nil_r in Hall.
    assert (b_error b = error) as ->; [|cbn; auto].
    destruct Hf as [Hf|Hf].
    + now destruct (body_flow_break_ret H _ _ _ _ _ _ _ _ _ _ _ Hb
                      (or_introl Hf)).
    + destruct (body_flow_report H _ _ _ _ _ _ _ _ _ _ _ Hb Hf)
        as (ret & evs' & _ & _ & _ & Hevs & _).
      assert (Hx : existsb (has_action BLOCK_ERROR_ACTION_REPORT) evs = true).
      { rewrite Hevs, existsb_app. cbn. now rewrite orb_true_r. }
      pose proof (acts_only_excludes _ _ _ Hall Hx). discriminate.
  - intros offset n error w b evs w1 _ Hb Hf Hall. loop_simpl.
    destruct (body_flow_break_ret H _ _ _ _ _ _ _ _ _ _ _ Hb (or_intror Hf))
      as [_ ->]. cbn. auto.
  - intros offset n error w b evs w1 r _ Hb Hf IH Hall. loop_simpl.
    rewrite forallb_app in Hall. apply andb_true_iff in Hall.
    destruct Hall as [Hall1 Hall2].
    assert (He : b_error b = error).
    { destruct Hf as [Hf|Hf].
      - now destruct (body_flow_stop H _ _ _ _ _ _ _ _ _ _ _ Hb Hf)
          as (_ & _ & ? & _).
      - destruct (body_flow_end H _ _ _ _ _ _ _ _ _ _ _ Hb Hf)
          as (r0 & _ & Herr & Hign & _).
        destruct (r0 <? 0) eqn:Hr0; auto. apply Z.ltb_lt in Hr0.
        pose proof (acts_only_excludes _ _ _ Hall1 (Hign Hr0)). discriminate. }
    rewrite He in IH. destruct (IH Hall2) as [IH1 IH2].
    split; auto.
Qed.

End LoopErrors.

(** ** Termination on a host that makes progress *)

Section Termination.
Context {W : Type} (H : Host W).
Variables (s : StreamBlockJob) (unfiltered_bs tracking_overlay : bs_ptr).
Variable len : Z.
Hypothesis Hlen : len <= Int.INT64_MAX.
Hypothesis Hprogress : host_progress H len (on_error s).

Lemma body_progress offset n error w b evs w1 :
  0 <= offset < len ->
  stream_run_body H s unfiltered_bs tracking_overlay len offset n error w
  = (b, evs, w1) ->
  b_flow b = FlowStop \/ b_flow b = FlowEnd ->
  0 < b_n b /\ offset + b_n b <= len.
Proof.
  destruct Hprogress as (Htop & Habove & Hact).
  intros Hoff Hb.
  assert (Hsub : Int.sub64 len offset = len - offset).
  { unfold Int.sub64. apply int64_id.
    unfold Int.in_int64, Int.INT64_MIN, Int.INT64_MAX in *. lia. }
  unfold stream_run_body, stream_classify, stream_populate, stream_publish,
    bind, ret, call, exec, peek, ask in Hb.
  destruct (job_is_cancelled H (block_job_ratelimit_sleep H w)).
  { inversion Hb; subst; cbn. intros [?|?]; discriminate. }
  destruct (adaptive_stream s);
    match type of Hb with
    | context [bdrv_co_is_allocated H ?wa _ _ _] =>
        pose proof (Htop wa unfiltered_bs offset Hoff) as [Hp1 Hp2];
        destruct (bdrv_co_is_allocated H wa unfiltered_bs offset STREAM_CHUNK)
          as [[r0 n0] w2]
    end;
    cbn [fst snd] in *;
    (destruct (r0 =? 1);
     [|destruct (0 <=? r0);
       [match type of Hb with
        | context [bdrv_co_is_allocated_above H ?wb ?top ?base _ _ _] =>
            pose proof (Habove wb top base offset n0 (proj1 Hoff) Hp1) as Hp3;
            destruct (bdrv_co_is_allocated_above H wb top base true offset n0)
              as [[r1 n1] w3]
        end;
        cbn [fst snd] in *;
        assert (Hn : 0 < (if (r1 =? 0) && (n1 =? 0)
                          then Int.sub64 len offset else n1)
                     /\ offset + (if (r1 =? 0) && (n1 =? 0)
                                  then Int.sub64 len offset else n1) <= len)
          by (rewrite Hsub;
              destruct ((r1 =? 0) && (n1 =? 0)) eqn:Hz; [lia|];
              destruct Hp3 as [Hp3|[-> ->]]; [lia|discriminate]);
        destruct Hn as [Hn1 Hn2];
        destruct (0 <? r1);
        [destruct (Int.uint64 _ <? Int.SIZE_MAX);
         [destruct (blk_co_preadv H _ _ _) as [r2 w4]|]|]
       |]]);
    cbn [fst snd] in Hb;
    repeat match type of Hb with
      | context [if ?c then _ else _] => destruct c
      end;
    try match type of Hb with
      | context [block_job_error_action H ?we ?oe true ?en] =>
          pose proof (Hact we en) as Hns;
          destruct (block_job_error_action H we oe true en) as [[| |] w5];
          cbn [fst snd] in *
      end;
    inversion Hb; subst; cbn [b_flow b_n];
    intros [?|?]; try discriminate; try congruence; split; assumption.
Qed.

(** On such a host the loop ends within [len - offset] passes: each
    pass breaks or advances by at least one byte. *)
Lemma stream_run_loop_terminates fuel :
  forall offset n error w,
    0 <= offset <= len ->
    (Z.to_nat (len - offset) <= fuel)%nat ->
    exists r,
      stream_run_loop H fuel s unfiltered_bs tracking_overlay len
        offset n error w = Some r.
Proof.
  induction fuel as [|fuel IH]; intros offset n error w Hoff Hfuel.
  - cbn. assert ((offset <? len) = false) as -> by (apply Z.ltb_ge; lia). eauto.
  - cbn [stream_run_loop]. destruct (offset <? len) eqn:Hlt; [|eauto].
    apply Z.ltb_lt in Hlt.
    destruct (stream_run_body _ _ _ _ _ _ _ _ _) as [[b evs] w1] eqn:Hb.
    pose proof (body_progress _ _ _ _ _ _ _ (conj (proj1 Hoff) Hlt) Hb) as Hp.
    destruct (b_flow b) eqn:Hf; eauto.
    + destruct Hp as [Hn0 Hn1]; [auto|].
      assert (Hadd : Int.add64 offset (b_n b) = offset + b_n b).
      { unfold Int.add64. apply int64_id.
        unfold Int.in_int64, Int.INT64_MIN, Int.INT64_MAX in *. lia. }
      rewrite Hadd.
      destruct (IH (offset + b_n b) (b_n b) (b_error b) w1) as [r Hr];
        [lia|lia|]. rewrite Hr. eauto.
    + destruct Hp as [Hn0 Hn1]; [auto|].
      assert (Hadd : Int.add64 offset (b_n b) = offset + b_n b).
      { unfold Int.add64. apply int64_id.
        unfold Int.in_int64, Int.INT64_MIN, Int.INT64_MAX in *. lia. }
      rewrite Hadd.
      destruct (IH (offset + b_n b) (b_n b) (b_error b) w1) as [r Hr];
        [lia|lia|]. rewrite Hr. eauto.
Qed.

End Termination.

Lemma stream_calibrate_on_error {W} (H : Host W) s w :
  on_error (fst (fst (stream_calibrate H s w))) = on_error s.
Proof.
  unfold stream_calibrate, bind, ret, call, exec, ask.
  destruct (adaptive_stream s);
    [destruct (enable_iops_tracker H w (cor_filter_bs s)) as [ok w0]|];
    cbn [fst snd];
    (destruct (is_iops_tracker_enabled H _ (cor_filter_bs s) &&
               Double.ltb (adaptive_threshold s) Double.one);
     [|reflexivity]);
    match goal with
    | |- context [stream_calibration_loop H ?c ?t ?p ?z ?w'] =>
        destruct (stream_calibration_loop H c t p z w') as [[th e] w1]
    end; reflexivity.
Qed.

(** [stream_run] returns on a host that makes progress, given fuel for
    one pass per byte. *)
Lemma stream_run_terminates {W} (H : Host W) fuel s w :
  bdrv_co_getlength H w (target_bs s) <= Int.INT64_MAX ->
  host_progress H (bdrv_co_getlength H w (target_bs s)) (on_error s) ->
  (Z.to_nat (bdrv_co_getlength H w (target_bs s)) <= fuel)%nat ->
  exists rr, stream_run H fuel s w = Some rr.
Proof.
  intros Hmax Hprog Hfuel. unfold stream_run.
  destruct (bs_ptr_eqb _ _); [eauto|].
  destruct (bdrv_co_getlength H w (target_bs s) <? 0) eqn:Hlen; [eauto|].
  apply Z.ltb_ge in Hlen.
  pose proof (stream_calibrate_on_error H s
                (job_progress_set_remaining H w
                   (bdrv_co_getlength H w (target_bs s)))) as Hon.
  unfold bind at 1. unfold exec at 1.
  destruct (stream_calibrate H s _) as [[s1 e] w1]. cbn [fst snd] in Hon.
  rewrite <- Hon in Hprog.
  destruct (stream_run_loop_terminates H s1
              (bdrv_skip_filters H w (target_bs s)) (cor_filter_bs s) _
              Hmax Hprog fuel 0 0 0 w1) as [r Hr].
  - lia.
  - now rewrite Z.sub_0_r.
  - rewrite Hr. destruct (lr_exit r); [| |eauto];
      destruct (call _ _ _) as [[? ?] ?]; eauto.
Qed.

(** The scripted host makes progress unless told to stop on errors. *)
Lemma sim_host_progress sc on_err :
  on_err = BLOCKDEV_ON_ERROR_IGNORE \/ on_err = BLOCKDEV_ON_ERROR_REPORT ->
  host_progress (sim_host sc) (sc_len sc) on_err.
Proof.
  intros Hon.
  assert (Hchunk : forall offset, 0 <= offset ->
                                  0 < sim_chunk_end offset - offset).
  { intros offset Hoff. unfold sim_chunk_end, STREAM_CHUNK.
    pose proof (Z.div_mod offset (512 * 1024)).
    pose proof (Z.mod_pos_bound offset (512 * 1024)). lia. }
  split; [|split].
  - intros w bs offset Hoff. cbn [sim_host bdrv_co_is_allocated fst snd].
    unfold sim_is_allocated.
    destruct (sc_len sc <=? offset) eqn:Hle; [apply Z.leb_le in Hle; lia|].
    cbn [snd]. pose proof (Hchunk offset (proj1 Hoff)).
    unfold STREAM_CHUNK at 1 2. lia.
  - intros w top base offset bytes Hoff Hbytes.
    cbn [sim_host bdrv_co_is_allocated_above fst snd].
    unfold sim_is_allocated_above.
    destruct (sc_backing_len sc <=? offset) eqn:Hle; cbn [fst snd]; [auto|].
    apply Z.leb_gt in Hle. pose proof (Hchunk offset Hoff). left. lia.
  - intros w errno. cbn [sim_host block_job_error_action fst].
    destruct Hon as [-> | ->]; discriminate.
Qed.

Lemma no_read_bytes evs : existsb is_read evs = false -> read_bytes evs = 0.
Proof.
  induction evs as [|ev evs IH]; cbn; [reflexivity|].
  intros Hx. apply orb_false_iff in Hx. destruct Hx as [Hev Hx].
  destruct ev; cbn in *; try discriminate; auto.
Qed.

(** ** From [stream_run] to its loop *)

Lemma stream_run_inv {W} (H : Host W) fuel s w rr r :
  stream_run H fuel s w = Some rr ->
  rr_loop rr = Some r ->
  exists s1 w1,
    0 <= bdrv_co_getlength H w (target_bs s) /\
    stream_run_loop H fuel s1 (bdrv_skip_filters H w (target_bs s))
      (cor_filter_bs s) (bdrv_co_getlength H w (target_bs s)) 0 0 0 w1
    = Some r /\
    rr_status rr = match lr_exit r with
                   | ExitAssert => RunAborted
                   | _ => RunReturned (lr_error r)
                   end.
Proof.
  unfold stream_run.
  destruct (bs_ptr_eqb _ _); [intros [= <-]; discriminate|].
  destruct (bdrv_co_getlength H w (target_bs s) <? 0) eqn:Hlen;
    [intros [= <-]; discriminate|].
  apply Z.ltb_ge in Hlen.
  destruct (bind _ _ w) as [[s1 setup] w1].
  destruct (stream_run_loop _ _ _ _ _ _ _ _ _ _) as [r'|] eqn:Hloop;
    [|discriminate].
  destruct (lr_exit r') eqn:Hexit.
  - destruct (call _ _ _) as [[? ?] ?]. intros [= <-]. cbn. intros [= <-].
    exists s1, w1. rewrite Hexit. auto.
  - destruct (call _ _ _) as [[? ?] ?]. intros [= <-]. cbn. intros [= <-].
    exists s1, w1. rewrite Hexit. auto.
  - intros [= <-]. cbn. intros [= <-].
    exists s1, w1. rewrite Hexit. auto.
Qed.

(** ** How a pass and the loop end *)

Section BodyExit.
Context {W : Type} (H : Host W).
Variables (s : StreamBlockJob) (unfiltered_bs tracking_overlay : bs_ptr).
Variables (len offset n error : Z) (w w1 : W) (b : Body) (evs : list Event).
Hypothesis Hbody :
  stream_run_body H s unfiltered_bs tracking_overlay len offset n error w
  = (b, evs, w1).

(** With answers inside the image the assertion of [stream_populate]
    holds. *)
Lemma body_no_assert :
  0 <= offset < len -> len <= Int.INT64_MAX ->
  forallb (answer_in_image len) evs = true ->
  b_flow b <> FlowAssert.
Proof.
  revert Hbody. intros Hb Hoff Hlen.
  body_cases Hb; intros Hans; try discriminate;
    repeat match goal with
      | Hx : _ && _ = true |- _ => apply andb_true_iff in Hx; destruct Hx
      | Hx : (_ <=? _) = true |- _ => apply Z.leb_le in Hx
      | Hx : (_ <? _) = true |- _ => apply Z.ltb_lt in Hx
      | Hx : (_ =? _) = true |- _ => apply Z.eqb_eq in Hx
      end; subst; try lia;
    match goal with
    | Hx : (Int.uint64 ?x <? _) = false |- _ =>
        rewrite uint64_id in Hx;
        [apply Z.ltb_ge in Hx; lia|unfold Int.INT64_MAX; lia]
    end.
Qed.


End BodyExit.

Section LoopExit.
Context {W : Type} (H : Host W).
Variables (s : StreamBlockJob) (unfiltered_bs tracking_overlay : bs_ptr).
Variable len : Z.

(** The loop is left through its condition, or by the [break] of its
    last pass, which saw the cancellation or a "report" action, or by a
    failed assertion in its last pass; the final offset is then the
    offset of that pass. *)
Lemma loop_exit_cause fuel offset n error w r :
  stream_run_loop H fuel s unfiltered_bs tracking_overlay len offset n error w
  = Some r ->
  match lr_exit r with
  | ExitCondition => len <= lr_offset r
  | ExitBreak =>
      exists pre it,
        lr_history r = pre ++ [it] /\ ir_offset it = lr_offset r /\
        lr_offset r < len /\
        (existsb is_cancel_seen (ir_events it) = true \/
         existsb (has_action BLOCK_ERROR_ACTION_REPORT) (ir_events it) = true)
  | ExitAssert =>
      exists pre it,
        lr_history r = pre ++ [it] /\ ir_offset it = lr_offset r /\
        lr_offset r < len /\ ir_flow it = FlowAssert
  end.
Proof.
  intros Hrun.
  refine (stream_run_loop_ind H s unfiltered_bs tracking_overlay len
    (fun offset n error w r =>
       match lr_exit r with
       | ExitCondition => len <= lr_offset r
       | ExitBreak =>
           exists pre it,
             lr_history r = pre ++ [it] /\ ir_offset it = lr_offset r /\
             lr_offset r < len /\
             (existsb is_cancel_seen (ir_events it) = true \/
              existsb (has_action BLOCK_ERROR_ACTION_REPORT) (ir_events it)
              = true)
       | ExitAssert =>
           exists pre it,
             lr_history r = pre ++ [it] /\ ir_offset it = lr_offset r /\
             lr_offset r < len /\ ir_flow it = FlowAssert
       end)
    _ _ _ _ fuel offset n error w r Hrun);
    clear fuel offset n error w r Hrun.
  - intros offset n error w Hge. exact Hge.
  - intros offset n error w b evs w1 Hlt Hb Hf. cbn [lr_exit lr_history lr_offset].
    exists [], (mkIter offset evs (b_flow b) (b_n b) (b_error b) (b_ret b)).
    cbn [ir_offset ir_events]. repeat split; auto.
    destruct Hf as [Hf|Hf].
    + left. exact (body_flow_cancelled H _ _ _ _ _ _ _ _ _ _ _ Hb Hf).
    + right.
      destruct (body_flow_report H _ _ _ _ _ _ _ _ _ _ _ Hb Hf)
        as (ret & evs' & _ & _ & _ & Hevs & _).
      rewrite Hevs, existsb_app. cbn. now rewrite orb_true_r.
  - intros offset n error w b evs w1 Hlt Hb Hf. cbn [lr_exit lr_history lr_offset].
    exists [], (mkIter offset evs (b_flow b) (b_n b) (b_error b) (b_ret b)).
    cbn [ir_offset ir_flow]. repeat split; auto.
  - intros offset n error w b evs w1 r Hlt Hb Hf IH.
    cbn [lr_exit lr_history lr_offset].
    destruct (lr_exit r); [exact IH| |];
      destruct IH as (pre & it & Hh & Hrest);
      exists (mkIter offset evs (b_flow b) (b_n b) (b_error b) (b_ret b) :: pre),
             it; rewrite Hh; split; auto.
Qed.

(** With answers inside the image no assertion fails. *)
Lemma loop_no_assert :
  len <= Int.INT64_MAX ->
  forall fuel offset n error w r,
    stream_run_loop H fuel s unfiltered_bs tracking_overlay len offset n error w
    = Some r ->
    0 <= offset <= len ->
    forallb (answer_in_image len) (history_trace (lr_history r)) = true ->
    lr_exit r <> ExitAssert.
Proof.
  intros Hmax fuel offset n error w r Hrun.
  refine (stream_run_loop_ind H s unfiltered_bs tracking_overlay len
    (fun offset n error w r =>
       0 <= offset <= len ->
       forallb (answer_in_image len) (history_trace (lr_history r)) = true ->
       lr_exit r <> ExitAssert)
    _ _ _ _ fuel offset n error w r Hrun);
    clear fuel offset n error w r Hrun.
  - intros; cbn; discriminate.
  - intros; cbn; discriminate.
  - intros offset n error w b evs w1 Hlt Hb Hf Hoff Hans.
    loop_simpl. cbn in Hans. rewrite app_nil_r in Hans.
    exfalso.
    exact (body_no_assert H _ _ _ _ _ _ _ _ _ _ _ Hb
             (conj (proj1 Hoff) Hlt) Hmax Hans Hf).
  - intros offset n error w b evs w1 r Hlt Hb Hf IH Hoff Hans.
    loop_simpl. rewrite forallb_app in Hans.
    apply andb_true_iff in Hans. destruct Hans as [Hans1 Hans2].
    pose proof (body_advance_bounds H _ _ _ _ _ _ _ _ _ _ _ Hb
                  (conj (proj1 Hoff) Hlt) Hmax Hans1 Hf) as [Hn0 Hn1].
    assert (Hadd : Int.add64 offset (b_n b) = offset + b_n b).
    { unfold Int.add64. apply int64_id.
      unfold Int.in_int64, Int.INT64_MIN, Int.INT64_MAX in *. lia. }
    rewrite Hadd in IH. apply IH; [lia|assumption].
Qed.


End LoopExit.

(** ** Answers of a host that makes progress *)

Section ProgressAnswers.
Context {W : Type} (H : Host W).
Variables (s : StreamBlockJob) (unfiltered_bs tracking_overlay : bs_ptr).
Variable len : Z.
Hypothesis Hlen : len <= Int.INT64_MAX.
Hypothesis Hprogress : host_progress H len (on_error s).

Lemma body_progress_answers offset n error w b evs w1 :
  0 <= offset < len ->
  stream_run_body H s unfiltered_bs tracking_overlay len offset n error w
  = (b, evs, w1) ->
  forallb (answer_in_image len) evs = true.
Proof.
  destruct Hprogress as (Htop & Habove & Hact).
  intros Hoff Hb.
  unfold stream_run_body, stream_classify, stream_populate, stream_publish,
    bind, ret, call, exec, peek, ask in Hb.
  destruct (job_is_cancelled H (block_job_ratelimit_sleep H w)).
  { inversion Hb; subst; reflexivity. }
  destruct (adaptive_stream s);
    match type of Hb with
    | context [bdrv_co_is_allocated H ?wa _ _ _] =>
        pose proof (Htop wa unfiltered_bs offset Hoff) as [Hp1 Hp2];
        destruct (bdrv_co_is_allocated H wa unfiltered_bs offset STREAM_CHUNK)
          as [[r0 n0] w2]
    end;
    cbn [fst snd] in *;
    (destruct (r0 =? 1);
     [|destruct (0 <=? r0);
       [match type of Hb with
        | context [bdrv_co_is_allocated_above H ?wb ?top ?base _ _ _] =>
            pose proof (Habove wb top base offset n0 (proj1 Hoff) Hp1) as Hp3;
            destruct (bdrv_co_is_allocated_above H wb top base true offset n0)
              as [[r1 n1] w3]
        end;
        cbn [fst snd] in *;
        assert (Hn : 0 <= n1 <= n0)
          by (destruct Hp3 as [Hp3|[_ ->]]; lia);
        destruct (0 <? r1);
        [destruct (Int.uint64 _ <? Int.SIZE_MAX);
         [destruct (blk_co_preadv H _ _ _) as [r2 w4]|]|]
       |]]);
    cbn [fst snd] in Hb;
    repeat match type of Hb with
      | context [if ?c then _ else _] => destruct c
      end;
    try match type of Hb with
      | context [block_job_error_action H ?we ?oe true ?en] =>
          destruct (block_job_error_action H we oe true en) as [[| |] w5];
          cbn [fst snd] in *
      end;
    inversion Hb; subst; cbn;
    repeat (apply andb_true_iff; split); try reflexivity;
    try (apply Z.leb_le; lia).
Qed.

Lemma loop_progress_answers fuel offset n error w r :
  stream_run_loop H fuel s unfiltered_bs tracking_overlay len offset n error w
  = Some r ->
  0 <= offset <= len ->
  forallb (answer_in_image len) (history_trace (lr_history r)) = true.
Proof.
  intros Hrun.
  refine (stream_run_loop_ind H s unfiltered_bs tracking_overlay len
    (fun offset n error w r =>
       0 <= offset <= len ->
       forallb (answer_in_image len) (history_trace (lr_history r)) = true)
    _ _ _ _ fuel offset n error w r Hrun);
    clear fuel offset n error w r Hrun.
  - intros; reflexivity.
  - intros offset n error w b evs w1 Hlt Hb Hf Hoff. loop_simpl.
    cbn. rewrite app_nil_r.
    exact (body_progress_answers _ _ _ _ _ _ _ (conj (proj1 Hoff) Hlt) Hb).
  - intros offset n error w b evs w1 Hlt Hb Hf Hoff. loop_simpl.
    cbn. rewrite app_nil_r.
    exact (body_progress_answers _ _ _ _ _ _ _ (conj (proj1 Hoff) Hlt) Hb).
  - intros offset n error w b evs w1 r Hlt Hb Hf IH Hoff. loop_simpl.
    rewrite forallb_app.
    rewrite (body_progress_answers _ _ _ _ _ _ _ (conj (proj1 Hoff) Hlt) Hb).
    cbn [andb].
    pose proof (body_progress H s unfiltered_bs tracking_overlay len Hlen
                  Hprogress _ _ _ _ _ _ _ (conj (proj1 Hoff) Hlt) Hb Hf)
      as [Hn0 Hn1].
    assert (Hadd : Int.add64 offset (b_n b) = offset + b_n b).
    { unfold Int.add64. apply int64_id.
      unfold Int.in_int64, Int.INT64_MIN, Int.INT64_MAX in *. lia. }
    rewrite Hadd in IH. apply IH. lia.
Qed.

End ProgressAnswers.

(** ** [stream_run] on a host that makes progress *)



(** ** The offsets visited *)

(** C1.  On an image of [len] bytes, for the loop entered at offset 0.
    In a loop that came to an end and whose allocation queries answered
    lengths inside the image: the chunks of the passes that reach the
    increment follow one another from 0 to the final offset, each pass
    advancing by the [n] it determined and a stop retry by 0; every
    byte below the final offset lies in exactly one chunk and no byte
    lies in two; the final offset never passes [len]; when the loop
    leaves through its condition the chunks partition [0, len); and it
    leaves otherwise only by the [break] of its last pass, which saw
    the cancellation or a "report" action at the final offset, so that
    without these the chunks do partition [0, len).  On a host that
    makes progress the loop does come to an end, within one pass per
    byte, with answers inside the image. *)
Theorem stream_run_offsets_partition :
  forall {W} (H : Host W) fuel s unfiltered_bs tracking_overlay len w,
    0 <= len <= Int.INT64_MAX ->
    (forall r,
        stream_run_loop H fuel s unfiltered_bs tracking_overlay len 0 0 0 w
        = Some r ->
        forallb (answer_in_image len) (history_trace (lr_history r)) = true ->
        contiguous 0 (lr_offset r) (chunks (lr_history r)) /\
        Forall (fun it => ir_flow it = FlowStop -> ir_n it = 0)
               (lr_history r) /\
        (forall b, 0 <= b < lr_offset r ->
                   covering b (chunks (lr_history r)) = 1%nat) /\
        (forall b, (covering b (chunks (lr_history r)) <= 1)%nat) /\
        lr_offset r <= len /\
        (lr_exit r = ExitCondition ->
         lr_offset r = len /\
         forall b, 0 <= b < len ->
                   covering b (chunks (lr_history r)) = 1%nat) /\
        (lr_exit r <> ExitCondition ->
         lr_exit r = ExitBreak /\ lr_offset r < len /\
         exists pre it,
           lr_history r = pre ++ [it] /\ ir_offset it = lr_offset r /\
           (existsb is_cancel_seen (ir_events it) = true \/
            existsb (has_action BLOCK_ERROR_ACTION_REPORT) (ir_events it)
            = true)) /\
        (existsb is_cancel_seen (history_trace (lr_history r)) = false ->
         existsb (has_action BLOCK_ERROR_ACTION_REPORT)
           (history_trace (lr_history r)) = false ->
         lr_exit r = ExitCondition)) /\
    (host_progress H len (on_error s) ->
     (Z.to_nat len <= fuel)%nat ->
     exists r,
       stream_run_loop H fuel s unfiltered_bs tracking_overlay len 0 0 0 w
       = Some r /\
       forallb (answer_in_image len) (history_trace (lr_history r)) = true).
Proof.
  intros W H fuel s ubs trk len w Hlen. split.
  - intros r Hrun Hans.
    destruct (loop_partition H s ubs trk len (proj2 Hlen) _ _ _ _ _ _ Hrun)
      as (Hc & Hle & Hex & _ & Hstop); [lia|assumption|].
    assert (Hcov : forall b, 0 <= b < lr_offset r ->
                             covering b (chunks (lr_history r)) = 1%nat).
    { intros b Hb. rewrite (covering_contiguous _ _ _ b Hc).
      destruct (0 <=? b) eqn:H1, (b <? lr_offset r) eqn:H2; cbn; auto; lia. }
    pose proof (loop_exit_cause H s ubs trk len _ _ _ _ _ _ Hrun) as Hcause.
    pose proof (loop_no_assert H s ubs trk len (proj2 Hlen) _ _ _ _ _ _ Hrun
                  (conj (Z.le_refl 0) (proj1 Hlen)) Hans) as Hna.
    assert (Hbreak : lr_exit r <> ExitCondition ->
      lr_exit r = ExitBreak /\ lr_offset r < len /\
      exists pre it,
        lr_history r = pre ++ [it] /\ ir_offset it = lr_offset r /\
        (existsb is_cancel_seen (ir_events it) = true \/
         existsb (has_action BLOCK_ERROR_ACTION_REPORT) (ir_events it) = true)).
    { intros Hne. destruct (lr_exit r); [contradiction| |contradiction].
      destruct Hcause as (pre & it & Hh & Ho & Hlt & Hwhy).
      split; [reflexivity|]. split; [exact Hlt|]. exists pre, it. auto. }
    split; [exact Hc|]. split; [exact Hstop|]. split; [exact Hcov|].
    split.
    { intros b. rewrite (covering_contiguous _ _ _ b Hc).
      destruct ((0 <=? b) && (b <? lr_offset r)); auto. }
    split; [exact Hle|]. split.
    { intros Hx. split; [exact (Hex Hx)|].
      intros b Hb. apply Hcov. rewrite (Hex Hx). exact Hb. }
    split; [exact Hbreak|].
    intros Hnc Hnr.
    destruct (lr_exit r) eqn:Hexit; [reflexivity| |contradiction].
    destruct Hbreak as (_ & _ & pre & it & Hh & _ & Hwhy); [discriminate|].
    rewrite Hh, history_trace_app, history_trace_cons in Hnc, Hnr.
    cbn [history_trace flat_map] in Hnc, Hnr.
    rewrite app_nil_r, existsb_app in Hnc, Hnr.
    apply orb_false_iff in Hnc. apply orb_false_iff in Hnr.
    destruct Hwhy as [Hw|Hw]; rewrite Hw in *;
      [destruct Hnc|destruct Hnr]; discriminate.
  - intros Hprog Hfuel.
    destruct (stream_run_loop_terminates H s ubs trk len (proj2 Hlen) Hprog
                fuel 0 0 0 w) as [r Hr].
    + lia.
    + now rewrite Z.sub_0_r.
    + exists r. split; [exact Hr|].
      exact (loop_progress_answers H s ubs trk len (proj2 Hlen) Hprog
               _ _ _ _ _ _ Hr (conj (Z.le_refl 0) (proj1 Hlen))).
Qed.

(** The end-to-end scenario of 2 MiB is a host that makes progress: the
    loop comes to an end after four passes of 512 KiB each, leaves
    through its condition, and every byte of the image lies in exactly
    one chunk. *)
Lemma stream_run_offsets_partition_witness :
  exists r,
    stream_run_loop (sim_host scenario_2MiB) (Z.to_nat (2 * MiB))
      (sim_job BLOCKDEV_ON_ERROR_REPORT false Double.zero)
      (Some 1%nat) (Some 100%nat) (2 * MiB) 0 0 0 sim_world0 = Some r /\
    forallb (answer_in_image (2 * MiB)) (history_trace (lr_history r)) = true /\
    chunks (lr_history r)
    = [(0, STREAM_CHUNK); (STREAM_CHUNK, STREAM_CHUNK);
       (2 * STREAM_CHUNK, STREAM_CHUNK); (3 * STREAM_CHUNK, STREAM_CHUNK)] /\
    contiguous 0 (2 * MiB) (chunks (lr_history r)) /\
    lr_exit r = ExitCondition /\
    lr_offset r = 2 * MiB /\
    forall b, 0 <= b < 2 * MiB -> covering b (chunks (lr_history r)) = 1%nat.
Proof.
  destruct (stream_run_offsets_partition (sim_host scenario_2MiB)
              (Z.to_nat (2 * MiB))
              (sim_job BLOCKDEV_ON_ERROR_REPORT false Double.zero)
              (Some 1%nat) (Some 100%nat) (2 * MiB) sim_world0)
    as [Hany Hret].
  { vm_compute. split; discriminate. }
  destruct Hret as (r & Hr & Hans).
  { apply (sim_host_progress scenario_2MiB BLOCKDEV_ON_ERROR_REPORT).
    right. reflexivity. }
  { apply le_n. }
  destruct (Hany r Hr Hans) as (Hc & _ & _ & _ & _ & Hfull & _ & Hexit).
  assert (Hr' := Hr). vm_compute in Hr'. injection Hr' as Hr'.
  assert (Hx : lr_exit r = ExitCondition).
  { apply Hexit; rewrite <- Hr'; vm_compute; reflexivity. }
  destruct (Hfull Hx) as [Hoff Hcov].
  exists r. split; [exact Hr|]. split; [exact Hans|].
  split; [rewrite <- Hr'; vm_compute; reflexivity|].
  split; [rewrite <- Hoff; exact Hc|].
  split; [exact Hx|]. split; [exact Hoff|exact Hcov].
Defined.

(** ** Progress and copies *)

(** C2, as amended.  In a loop that came to an end under the conditions
    of C1: the progress published is the final offset, that is the
    length of everything classified, copied or not, and it is [len]
    when the loop leaves through its condition; when no query answers
    "allocated above the base", no read is issued and nothing is
    accounted with the rate limiter. *)
Theorem stream_run_progress_is_offset :
  forall {W} (H : Host W) fuel s unfiltered_bs tracking_overlay len w r,
    0 <= len <= Int.INT64_MAX ->
    stream_run_loop H fuel s unfiltered_bs tracking_overlay len 0 0 0 w
    = Some r ->
    forallb (answer_in_image len) (history_trace (lr_history r)) = true ->
    published (history_trace (lr_history r)) = lr_offset r /\
    (lr_exit r = ExitCondition ->
     published (history_trace (lr_history r)) = len) /\
    (existsb is_allocated_above_answer (history_trace (lr_history r)) = false ->
     existsb is_read (history_trace (lr_history r)) = false /\
     read_bytes (history_trace (lr_history r)) = 0 /\
     ratelimited (history_trace (lr_history r)) = 0).
Proof.
  intros W H fuel s ubs trk len w r Hlen Hrun Hans.
  destruct (loop_partition H s ubs trk len (proj2 Hlen) _ _ _ _ _ _ Hrun)
    as (_ & _ & Hex & Hpub & _); [lia|assumption|].
  rewrite Z.sub_0_r in Hpub. split; [assumption|]. split.
  - intros He. rewrite Hpub. auto.
  - intros Hno.
    destruct (loop_no_copy H s ubs trk len _ _ _ _ _ _ Hrun Hno) as [Hr Hl].
    auto using no_read_bytes.
Qed.

(** The end-to-end scenario of 2 MiB meets the conditions of
    [stream_run_progress_is_offset]. *)
Lemma stream_run_progress_is_offset_witness :
  exists r,
    stream_run_loop (sim_host scenario_2MiB) 10
      (sim_job BLOCKDEV_ON_ERROR_REPORT false Double.zero)
      (Some 1%nat) (Some 100%nat) (2 * MiB) 0 0 0 sim_world0 = Some r /\
    published (history_trace (lr_history r)) = lr_offset r /\
    (lr_exit r = ExitCondition ->
     published (history_trace (lr_history r)) = 2 * MiB) /\
    (existsb is_allocated_above_answer (history_trace (lr_history r)) = false ->
     existsb is_read (history_trace (lr_history r)) = false /\
     read_bytes (history_trace (lr_history r)) = 0 /\
     ratelimited (history_trace (lr_history r)) = 0).
Proof.
  eexists. split; [vm_compute; reflexivity|].
  apply (stream_run_progress_is_offset (sim_host scenario_2MiB) 10
           (sim_job BLOCKDEV_ON_ERROR_REPORT false Double.zero)
           (Some 1%nat) (Some 100%nat) (2 * MiB) sim_world0).
  - vm_compute. split; discriminate.
  - vm_compute. reflexivity.
  - vm_compute. reflexivity.
Defined.

(** C2 as stated fails.  On a 2 MiB image with nothing allocated above
    the base, no read is issued and yet the progress published ends at
    2 MiB, not 0; when only [1 MiB, 1.5 MiB) needs copying, 512 KiB are
    read and the progress published again ends at 2 MiB. *)
Lemma stream_run_progress_counterexample :
  (exists rr r,
      stream_run (sim_host scenario_empty) 10
        (sim_job BLOCKDEV_ON_ERROR_REPORT false Double.zero) sim_world0
      = Some rr /\
      rr_loop rr = Some r /\
      existsb is_allocated_above_answer (history_trace (lr_history r)) = false /\
      existsb is_read (history_trace (lr_history r)) = false /\
      published (history_trace (lr_history r)) = 2 * MiB /\
      published (history_trace (lr_history r)) <> 0) /\
  (exists rr r,
      stream_run (sim_host scenario_2MiB) 10
        (sim_job BLOCKDEV_ON_ERROR_REPORT false Double.zero) sim_world0
      = Some rr /\
      rr_loop rr = Some r /\
      read_bytes (history_trace (lr_history r)) = 512 * 1024 /\
      published (history_trace (lr_history r)) = 2 * MiB /\
      published (history_trace (lr_history r)) <> 512 * 1024).
Proof.
  split; do 2 eexists;
    (split; [vm_compute; reflexivity|]);
    (split; [reflexivity|]);
    vm_compute; repeat split; try reflexivity; discriminate.
Qed.

(** ** The report action *)



(** ** The ignore action *)







(** ** The stop action *)

(** C9.  In a run of [stream_run]: a pass whose error action is "stop"
    sets [n] to 0, leaves [error] as it was on entry, publishes no
    progress, and is followed by a pass at the same offset; and a run
    that returned and whose error actions are all "stop" returns 0,
    [error] being 0 after every pass. *)
Theorem stream_run_stop_retries :
  forall {W} (H : Host W) fuel s w rr r,
    stream_run H fuel s w = Some rr ->
    rr_loop rr = Some r ->
    (forall pre it post,
        lr_history r = pre ++ it :: post ->
        existsb (has_action BLOCK_ERROR_ACTION_STOP) (ir_events it) = true ->
        ir_flow it = FlowStop /\ ir_n it = 0 /\
        ir_error it = error_before 0 pre /\
        forallb (fun ev => negb (is_progress ev)) (ir_events it) = true /\
        exists next post', post = next :: post' /\
                           ir_offset next = ir_offset it) /\
    (forallb (acts_only BLOCK_ERROR_ACTION_STOP)
       (history_trace (lr_history r)) = true ->
     rr_status rr <> RunAborted ->
     rr_status rr = RunReturned 0 /\
     Forall (fun it => ir_error it = 0) (lr_history r)).
Proof.
  intros W H fuel s w rr r Hrun Hloop.
  destruct (stream_run_inv H _ _ _ _ _ Hrun Hloop)
    as (s1 & w1 & Hlen & Hl & Hst).
  split.
  - assert (Hin : Int.in_int64 0)
      by (unfold Int.in_int64, Int.INT64_MIN, Int.INT64_MAX; lia).
    exact (proj1 (loop_stop H _ _ _ _ _ _ _ _ _ _ Hl Hin)).
  - intros Hall Hret.
    destruct (loop_stop_error H _ _ _ _ _ _ _ _ _ _ Hl Hall) as [Herr Hfa].
    split; [|assumption].
    rewrite Hst, Herr. destruct (lr_exit r) eqn:Hx; auto.
    rewrite Hst in Hret. contradiction.
Qed.

(** Under [on_error = stop], the run whose second and third reads fail
    meets the conditions of [stream_run_stop_retries], and stops do occur. *)
Lemma stream_run_stop_retries_witness :
  exists rr r,
    stream_run (sim_host scenario_read_fails) 10
      (sim_job BLOCKDEV_ON_ERROR_STOP false Double.zero) sim_world0
    = Some rr /\
    rr_loop rr = Some r /\
    existsb (has_action BLOCK_ERROR_ACTION_STOP)
      (history_trace (lr_history r)) = true /\
    (forall pre it post,
        lr_history r = pre ++ it :: post ->
        existsb (has_action BLOCK_ERROR_ACTION_STOP) (ir_events it) = true ->
        ir_flow it = FlowStop /\ ir_n it = 0 /\
        ir_error it = error_before 0 pre /\
        forallb (fun ev => negb (is_progress ev)) (ir_events it) = true /\
        exists next post', post = next :: post' /\
                           ir_offset next = ir_offset it) /\
    (forallb (acts_only BLOCK_ERROR_ACTION_STOP)
       (history_trace (lr_history r)) = true ->
     rr_status rr <> RunAborted ->
     rr_status rr = RunReturned 0 /\
     Forall (fun it => ir_error it = 0) (lr_history r)).
Proof.
  do 2 eexists. split; [vm_compute; reflexivity|]. split; [reflexivity|].
  split; [vm_compute; reflexivity|].
  apply (stream_run_stop_retries (sim_host scenario_read_fails) 10
           (sim_job BLOCKDEV_ON_ERROR_STOP false Double.zero) sim_world0).
  - vm_compute. reflexivity.
  - reflexivity.
Defined.

(** ** The order of the steps *)

(** C6.  In a loop that came to an end, every pass starts with the
    rate-limiter sleep, then reads the cancellation flag; when the flag
    is set the pass makes no other call, it is the last pass, the loop
    breaks with the offset where it was and the progress published so
    far stands; when the flag is clear the adaptive pause comes next if
    and only if adaptive mode is on, then the allocation query, and
    only calls about that chunk follow. *)
Theorem stream_run_iteration_order :
  forall {W} (H : Host W) fuel s unfiltered_bs tracking_overlay len w r,
    stream_run_loop H fuel s unfiltered_bs tracking_overlay len 0 0 0 w
    = Some r ->
    Forall (fun it =>
              iteration_in_order (adaptive_stream s) (ir_events it) = true)
           (lr_history r) /\
    (forall pre it post,
        lr_history r = pre ++ it :: post ->
        existsb is_cancel_seen (ir_events it) = true ->
        ir_events it = [EvRatelimitSleep; EvIsCancelled true] /\
        post = [] /\ lr_exit r = ExitBreak /\ lr_offset r = ir_offset it /\
        published (history_trace (lr_history r))
        = published (history_trace pre)).
Proof.
  intros W H fuel s ubs trk len w r Hrun. split.
  - exact (loop_order H _ _ _ _ _ _ _ _ _ _ Hrun).
  - intros pre it post Hs Hc.
    destruct (loop_cancel H _ _ _ _ _ _ _ _ _ _ Hrun _ _ _ Hs Hc)
      as (-> & Hexit & Hoff & _ & Hevs).
    repeat split; auto.
    rewrite Hs, history_trace_app, published_app, history_trace_cons, Hevs.
    cbn. lia.
Qed.

(** An adaptive run that is cancelled in its third pass meets the
    condition of [stream_run_iteration_order]. *)
Lemma stream_run_iteration_order_witness :
  exists r,
    stream_run_loop (sim_host scenario_cancel) 10
      (sim_job BLOCKDEV_ON_ERROR_REPORT true Double.one)
      (Some 1%nat) (Some 100%nat) (2 * MiB) 0 0 0 sim_world0 = Some r /\
    existsb is_cancel_seen (history_trace (lr_history r)) = true /\
    Forall (fun it => iteration_in_order true (ir_events it) = true)
           (lr_history r) /\
    (forall pre it post,
        lr_history r = pre ++ it :: post ->
        existsb is_cancel_seen (ir_events it) = true ->
        ir_events it = [EvRatelimitSleep; EvIsCancelled true] /\
        post = [] /\ lr_exit r = ExitBreak /\ lr_offset r = ir_offset it /\
        published (history_trace (lr_history r))
        = published (history_trace pre)).
Proof.
  eexists. split; [vm_compute; reflexivity|].
  split; [vm_compute; reflexivity|].
  apply (stream_run_iteration_order (sim_host scenario_cancel) 10
           (sim_job BLOCKDEV_ON_ERROR_REPORT true Double.one)
           (Some 1%nat) (Some 100%nat) (2 * MiB) sim_world0).
  vm_compute. reflexivity.
Defined.

(** ** Calibration *)

(** C5, as amended.  [stream_run] turns tracking on only in adaptive
    mode.  Calibration runs exactly when the tracker of the filter node
    is then enabled and the threshold supplied is below 1, negative
    values included: it makes three rounds, each a sleep of 5 seconds
    followed by one throughput reading, and stores the mean of the
    three readings, each multiplied by the threshold supplied.
    Otherwise (a threshold of 1 or more, or no tracker) it makes no
    call and leaves the threshold as supplied. *)
Theorem stream_calibrate_samples :
  forall {W} (H : Host W) s w,
    let tracking_overlay := cor_filter_bs s in
    let started :=
      if adaptive_stream s then enable_iops_tracker H w tracking_overlay
      else (false, w) in
    let start_events :=
      if adaptive_stream s
      then [EvEnableTracker tracking_overlay (fst started)] else [] in
    let calibrated := stream_calibrate H s w in
    let s1 := fst (fst calibrated) in
    let evs := snd (fst calibrated) in
    if is_iops_tracker_enabled H (snd started) tracking_overlay &&
       Double.ltb (adaptive_threshold s) Double.one
    then
      exists v1 v2 v3,
        evs = start_events ++ calibration_events tracking_overlay v1 v2 v3 /\
        s1 = set_adaptive_threshold s
               (mean3 (Double.mul v1 (adaptive_threshold s))
                      (Double.mul v2 (adaptive_threshold s))
                      (Double.mul v3 (adaptive_threshold s)))
    else evs = start_events /\ s1 = s.
Proof.
  intros W H s w. cbv zeta.
  unfold stream_calibrate, bind, ret, call, exec, ask.
  destruct (adaptive_stream s).
  - destruct (enable_iops_tracker H w (cor_filter_bs s)) as [ok w0].
    cbn [fst snd].
    destruct (is_iops_tracker_enabled H w0 (cor_filter_bs s) &&
              Double.ltb (adaptive_threshold s) Double.one);
      [|cbn; auto].
    cbn [stream_calibration_loop]. unfold bind, ret, call, exec.
    destruct (iops_tracker_get_rwthroughput _ _ _) as [v1 w1].
    destruct (iops_tracker_get_rwthroughput _ _ _) as [v2 w2].
    destruct (iops_tracker_get_rwthroughput _ _ _) as [v3 w3].
    exists v1, v2, v3. split; reflexivity.
  - cbn [fst snd].
    destruct (is_iops_tracker_enabled H w (cor_filter_bs s) &&
              Double.ltb (adaptive_threshold s) Double.one);
      [|cbn; auto].
    cbn [stream_calibration_loop]. unfold bind, ret, call, exec.
    destruct (iops_tracker_get_rwthroughput _ _ _) as [v1 w1].
    destruct (iops_tracker_get_rwthroughput _ _ _) as [v2 w2].
    destruct (iops_tracker_get_rwthroughput _ _ _) as [v3 w3].
    exists v1, v2, v3. split; reflexivity.
Qed.

(** C5 as stated fails: with adaptive mode on and a threshold of -0.5,
    which is not in [0, 1), calibration runs; it reads three samples and
    sets the threshold to -100. *)
Lemma stream_calibrate_negative_counterexample :
  Double.ltb minus_half Double.zero = true /\
  exists s1 w1,
    stream_calibrate (sim_host scenario_samples)
      (sim_job BLOCKDEV_ON_ERROR_REPORT true minus_half) sim_world0
    = (s1,
       EvEnableTracker (Some 100%nat) true ::
       calibration_events (Some 100%nat)
         (Double.of_Z 100) (Double.of_Z 200) (Double.of_Z 300),
       w1) /\
    adaptive_threshold s1 = Double.of_Z (-100).
Proof.
  split; [vm_compute; reflexivity|].
  do 2 eexists. split; vm_compute; reflexivity.
Qed.

(** ** The completion step *)

(** C7, as amended.  [stream_prepare] first drops the filter and clears
    [cor_filter_bs].  When the unfiltered top image has no COW child it
    rewrites nothing and returns 0.  Otherwise it makes the child of
    the node above the base (the base, possibly none) the new backing
    node, then records the backing file and format: both none when
    there is no base, else the string supplied by the caller when there
    is one and the file name of the unfiltered base when not, with the
    format "raw" when masking is on and the driver of the base has a
    protocol name, and the format name of the driver otherwise.  It
    returns [-EPERM] when setting the backing node failed, else the
    result of recording; so a failure of either step gives a negative
    result.  The result of the copy loop is not an input. *)
Theorem stream_prepare_rewrites_backing :
  forall {W} (H : Host W) s w,
    let result := stream_prepare H s w in
    let r := fst (fst (fst result)) in
    let s' := snd (fst (fst result)) in
    let evs := snd (fst result) in
    let unfiltered_bs := bdrv_skip_filters H w (target_bs s) in
    cor_filter_bs s' = None /\
    hd_error evs = Some (EvCorFilterDrop (cor_filter_bs s)) /\
    match bdrv_cow_bs H w unfiltered_bs with
    | None => filter is_rewrite_event evs = [] /\ r = 0
    | Some _ =>
        exists wq failed cr,
          let base := bdrv_filter_or_cow_bs H wq (above_base s) in
          let unfiltered_base := bdrv_skip_filters H wq base in
          filter is_rewrite_event evs =
            [EvSetBackingHd unfiltered_bs base failed;
             EvChangeBackingFile unfiltered_bs
               (spec_backing_file (backing_file_str s)
                  (option_map (bs_filename H wq) unfiltered_base))
               (spec_backing_format (backing_mask_protocol s)
                  (match unfiltered_base with
                   | Some ub => bs_drv H wq ub
                   | None => None
                   end))
               cr] /\
          r = (if failed then - EPERM else cr) /\
          (failed = true \/ cr < 0 -> r < 0)
    end.
Proof.
  intros W H s w. cbv zeta.
  unfold stream_prepare, bind, ret, call, exec, ask.
  destruct (bdrv_cow_bs H w (bdrv_skip_filters H w (target_bs s)))
    as [cow|] eqn:Hcow.
  - cbn.
    set (wq := bdrv_drained_begin H _ (Some cow)).
    destruct (bdrv_set_backing_hd_drained H wq _ _) as [failed w2] eqn:Hset.
    destruct (bdrv_change_backing_file H w2 _ _ _) as [cr w3] eqn:Hch.
    cbn. split; [reflexivity|]. split; [reflexivity|].
    exists wq, failed, cr. cbn.
    split; [|split].
    + f_equal. f_equal. f_equal.
      * unfold stream_backing_ref, spec_backing_file.
        destruct (bdrv_skip_filters H wq _) as [ub|]; cbn; [|reflexivity].
        now destruct (backing_file_str s).
      * unfold stream_backing_ref, spec_backing_format.
        destruct (bdrv_skip_filters H wq _) as [ub|]; cbn; [|reflexivity].
        destruct (bs_drv H wq ub) as [drv|]; cbn; [|reflexivity].
        now destruct (backing_mask_protocol s), (protocol_name drv).
    + reflexivity.
    + intros [->|Hneg]; [unfold EPERM; lia|].
      destruct failed; [unfold EPERM; lia|assumption].
  - cbn. auto.
Qed.

(** C7 as stated fails.  The whole chain [1 -> 2] is streamed, node 2 is
    the node above the (absent) base and the caller supplied the
    backing file string "new.img": the top image does have a backing
    reference (node 2), but the rewrite makes the new backing node
    none, not node 2, and records no backing file, not "new.img". *)
Lemma stream_prepare_counterexample :
  backing_file_str sim_job_no_base = Some "new.img"%string /\
  above_base sim_job_no_base = Some 2%nat /\
  bdrv_cow_bs (sim_host scenario_no_base) sim_world0
    (bdrv_skip_filters (sim_host scenario_no_base) sim_world0
       (target_bs sim_job_no_base)) = Some 2%nat /\
  filter is_rewrite_event
    (snd (fst (stream_prepare (sim_host scenario_no_base) sim_job_no_base
                 sim_world0)))
  = [EvSetBackingHd (Some 1%nat) None false;
     EvChangeBackingFile (Some 1%nat) None None 0].
Proof. repeat split; vm_compute; reflexivity. Qed.

(** ** The entry assertions of [stream_start] *)

(** C10.  [stream_start] fails one of its two entry assertions exactly
    when [bottom] is given together with [base] or together with the
    backing file string; it then stops before any call into the host. *)
Theorem stream_start_entry_assertions :
  forall {W} (H : Host W) fuel a w,
    let result := stream_start H fuel a w in
    entry_assertion_failed (fst (fst result))
    = negb (stream_start_precondition a) /\
    entry_assertion_failed (fst (fst result))
    = (is_some (sa_base a) && is_some (sa_bottom a)) ||
      (is_some (sa_backing_file_str a) && is_some (sa_bottom a)) /\
    (if stream_start_precondition a then True
     else snd (fst result) = [] /\ snd result = w).
Proof.
  intros W H fuel a w. cbv zeta.
  unfold stream_start, stream_start_precondition.
  destruct (is_some (sa_base a) && is_some (sa_bottom a)) eqn:H1;
    [cbn; auto|].
  destruct (is_some (sa_backing_file_str a) && is_some (sa_bottom a)) eqn:H2;
    [cbn; auto|].
  cbn [negb andb orb].
  split; [|split; [|exact I]];
    unfold stream_start_boundary, stream_start_fail, bind, ret, call, exec,
      ask;
    repeat match goal with
      | |- context [match ?x with _ => _ end] =>
          lazymatch x with
          | context [match _ with _ => _ end] => fail
          | _ => destruct x eqn:?
          end
      | |- context [if ?x then _ else _] =>
          lazymatch x with
          | context [if _ then _ else _] => fail
          | _ => destruct x eqn:?
          end
      end; reflexivity.
Qed.

(** ** The throughput tracker *)

Lemma sampled_total_app l1 l2 :
  sampled_total (l1 ++ l2) = sampled_total l1 + sampled_total l2.
Proof.
  unfold sampled_total. induction l1 as [|x l1 IH]; cbn; [reflexivity|].
  rewrite IH. lia.
Qed.

(** When no update falls between the locked part of a sample and its
    reset, the counts sampled and the count still pending add up to
    what was recorded. *)
Lemma iops_tracker_atomic_samples_exact (k : nat) :
  forall schedule st,
    (List.length schedule <= k)%nat ->
    sampler_atomic schedule = true ->
    updates_fit (operations (ts_tracker st)) schedule = true ->
    sampled_total (ts_samples st) + operations (ts_tracker st)
    = ts_recorded st ->
    sampled_total (ts_samples (tracker_run schedule st)) +
    operations (ts_tracker (tracker_run schedule st))
    = ts_recorded (tracker_run schedule st).
Proof.
  induction k as [|k IH]; intros schedule st Hlen Hat Hfit Hinv.
  - destruct schedule; [exact Hinv|cbn in Hlen; lia].
  - destruct schedule as [|[ops|now1|now2] rest]; [exact Hinv| | |].
    + cbn [sampler_atomic updates_fit List.length] in Hat, Hfit, Hlen.
      apply andb_true_iff in Hfit. destruct Hfit as [Hrange Hfit].
      apply andb_true_iff in Hrange. destruct Hrange as [Hlo Hhi].
      apply Z.leb_le in Hlo, Hhi.
      assert (Hadd : Int.add64 (operations (ts_tracker st)) ops
                     = operations (ts_tracker st) + ops).
      { unfold Int.add64. apply int64_id. split; assumption. }
      unfold tracker_run. cbn [fold_left].
      apply IH; [now apply le_S_n|assumption| |];
        cbn [tracker_step ts_tracker ts_samples ts_recorded
             iops_tracker_update operations]; rewrite Hadd;
        [assumption|lia].
    + destruct rest as [|[ops|now1'|now2] rest]; try discriminate.
      cbn [sampler_atomic updates_fit List.length] in Hat, Hfit, Hlen.
      unfold tracker_run. cbn [fold_left].
      apply IH; [apply le_S_n in Hlen; now apply Nat.lt_le_incl|assumption| |];
        cbn [tracker_step ts_tracker ts_samples ts_recorded
             iops_tracker_init operations]; [assumption|].
      rewrite sampled_total_app. cbn. lia.
    + discriminate.
Qed.

(** C8 does not hold of the code: [iops_tracker_get_iops] resets the
    counter after it has released the mutex.  In this schedule 5 then 3
    operations are recorded, the second update falling between the
    unlock and the reset of the first sample: the two samples count 5
    and 0, nothing is pending, and 3 of the 8 recorded operations are
    lost. *)
Theorem iops_tracker_sample_loses_update :
  sampler_in_order false schedule_lost_update = true /\
  ts_recorded (tracker_run schedule_lost_update (tracker_new 0)) = 8 /\
  map sample_operations
    (ts_samples (tracker_run schedule_lost_update (tracker_new 0))) = [5; 0] /\
  operations (ts_tracker (tracker_run schedule_lost_update (tracker_new 0)))
  = 0 /\
  sampled_total (ts_samples (tracker_run schedule_lost_update (tracker_new 0)))
  <> ts_recorded (tracker_run schedule_lost_update (tracker_new 0)).
Proof. repeat split; try (vm_compute; reflexivity). vm_compute. discriminate. Qed.

(** * Further properties of the copy loop *)

Lemma error_actions_app e1 e2 :
  error_actions (e1 ++ e2) = error_actions e1 ++ error_actions e2.
Proof. unfold error_actions. apply flat_map_app. Qed.

Section BodyMore.
Context {W : Type} (H : Host W).
Variables (s : StreamBlockJob) (unfiltered_bs tracking_overlay : bs_ptr).
Variables (len offset n error : Z) (w w1 : W) (b : Body) (evs : list Event).
Hypothesis Hbody :
  stream_run_body H s unfiltered_bs tracking_overlay len offset n error w
  = (b, evs, w1).

Lemma body_error_actions :
  error_actions evs =
  match b_ret b with
  | Some r => if r <? 0 then [(on_error s, Int.neg32 r)] else []
  | None => []
  end.
Proof.
  revert Hbody. intros Hb. body_cases Hb;
    repeat match goal with
      | Hx : (?x <? 0) = _ |- context [?x <? 0] => rewrite Hx
      end; reflexivity.
Qed.

Lemma body_reads_justified : reads_justified None evs = true.
Proof.
  revert Hbody. intros Hb. body_cases Hb;
    rewrite ?Z.eqb_refl;
    repeat match goal with
      | Hx : ?x = _ |- context [?x] => rewrite Hx
      end; try reflexivity;
    repeat match goal with
      | Hx : (_ =? _) = true |- _ => apply Z.eqb_eq in Hx
      | Hx : (_ <? _) = true |- _ => apply Z.ltb_lt in Hx
      | Hx : (_ <=? _) = false |- _ => apply Z.leb_gt in Hx
      | Hx : _ && _ = true |- _ => apply andb_true_iff in Hx; destruct Hx
      end; subst; try lia; cbn; rewrite ?Z.eqb_refl; reflexivity.
Qed.

Lemma body_no_error_keeps :
  existsb is_error_action evs = false -> b_error b = error.
Proof.
  revert Hbody. intros Hb. body_cases Hb; intros; try discriminate; auto.
Qed.

Lemma body_error_origin :
  b_error b = error \/
  exists r, b_ret b = Some r /\ r < 0 /\ b_error b = r.
Proof.
  revert Hbody. intros Hb.
  body_cases Hb; auto;
    right; eexists; repeat split; eauto; now apply Z.ltb_lt.
Qed.

Lemma body_end_of_backing :
  0 <= offset < len -> len <= Int.INT64_MAX ->
  existsb is_end_of_backing evs = true ->
  b_flow b = FlowEnd /\ b_n b = len - offset /\
  existsb is_read evs = false /\ existsb is_error_action evs = false.
Proof.
  revert Hbody. intros Hb Hoff Hmax.
  assert (Hsub : Int.sub64 len offset = len - offset).
  { unfold Int.sub64. apply int64_id.
    unfold Int.in_int64, Int.INT64_MIN, Int.INT64_MAX in *. lia. }
  body_cases Hb; intros Hend;
    repeat match goal with
      | Hx : ?x = _, Hy : context [?x] |- _ => rewrite Hx in Hy; cbn in Hy
      end; try discriminate;
    repeat match goal with
      | Hx : (_ =? _) = true |- _ => apply Z.eqb_eq in Hx
      | Hx : (_ <? _) = true |- _ => apply Z.ltb_lt in Hx
      | Hx : _ && _ = true |- _ => apply andb_true_iff in Hx; destruct Hx
      end; subst; try lia; auto.
Qed.

Lemma body_reads_in_image :
  0 <= offset < len -> len <= Int.INT64_MAX ->
  forallb (answer_in_image len) evs = true ->
  forallb (read_in_image len) evs = true /\
  0 <= read_bytes evs /\
  ratelimited evs = (match b_flow b with
                     | FlowEnd => read_bytes evs
                     | _ => 0
                     end).
Proof.
  revert Hbody. intros Hb Hoff Hmax.
  body_cases Hb; intros Hans; try (repeat split; (reflexivity || lia));
    repeat match goal with
      | Hx : _ && _ = true |- _ => apply andb_true_iff in Hx; destruct Hx
      | Hx : (_ <=? _) = true |- _ => apply Z.leb_le in Hx
      | Hx : (_ =? _) = true |- _ => apply Z.eqb_eq in Hx
      | Hx : (_ <? _) = true |- _ => apply Z.ltb_lt in Hx
      end; subst; try lia;
    match goal with
    | |- context [Int.int64 (Int.uint64 ?x)] =>
        assert (Hid : Int.int64 (Int.uint64 x) = x)
          by (rewrite uint64_id, int64_id;
              unfold Int.in_int64, Int.INT64_MIN, Int.INT64_MAX in *; lia);
        rewrite Hid
    end;
    (split; [|split; lia]);
    repeat (apply andb_true_iff; split); try reflexivity;
    first [apply Z.leb_le | apply Z.ltb_lt]; lia.
Qed.

End BodyMore.

Section LoopMore.
Context {W : Type} (H : Host W).
Variables (s : StreamBlockJob) (unfiltered_bs tracking_overlay : bs_ptr).
Variable len : Z.

Lemma loop_pass_facts fuel offset n error w r :
  stream_run_loop H fuel s unfiltered_bs tracking_overlay len offset n error w
  = Some r ->
  Forall (fun it =>
            reads_justified None (ir_events it) = true /\
            error_actions (ir_events it) =
              match ir_ret it with
              | Some r => if r <? 0 then [(on_error s, Int.neg32 r)] else []
              | None => []
              end) (lr_history r).
Proof.
  intros Hrun.
  refine (stream_run_loop_ind H s unfiltered_bs tracking_overlay len
    (fun offset n error w r =>
       Forall (fun it =>
                 reads_justified None (ir_events it) = true /\
                 error_actions (ir_events it) =
                   match ir_ret it with
                   | Some r =>
                       if r <? 0 then [(on_error s, Int.neg32 r)] else []
                   | None => []
                   end) (lr_history r))
    _ _ _ _ fuel offset n error w r Hrun);
    clear fuel offset n error w r Hrun; intros; cbn;
    repeat constructor; auto; cbn;
    first [eapply body_reads_justified; eauto
          |eapply body_error_actions; eauto].
Qed.

Lemma loop_error_origin fuel offset n error w r :
  stream_run_loop H fuel s unfiltered_bs tracking_overlay len offset n error w
  = Some r ->
  (existsb is_error_action (history_trace (lr_history r)) = false ->
   lr_error r = error) /\
  (lr_error r = error \/
   exists it, In it (lr_history r) /\ ir_ret it = Some (lr_error r) /\
              lr_error r < 0).
Proof.
  intros Hrun.
  refine (stream_run_loop_ind H s unfiltered_bs tracking_overlay len
    (fun offset n error w r =>
       (existsb is_error_action (history_trace (lr_history r)) = false ->
        lr_error r = error) /\
       (lr_error r = error \/
        exists it, In it (lr_history r) /\ ir_ret it = Some (lr_error r) /\
                   lr_error r < 0))
    _ _ _ _ fuel offset n error w r Hrun);
    clear fuel offset n error w r Hrun.
  - intros. cbn. auto.
  - intros offset n error w b evs w1 _ Hb _. loop_simpl. split.
    + cbn. rewrite app_nil_r. exact (body_no_error_keeps H _ _ _ _ _ _ _ _ _ _ _ Hb).
    + destruct (body_error_origin H _ _ _ _ _ _ _ _ _ _ _ Hb)
        as [?|(r0 & Hr & Hneg & He)]; auto.
      right. eexists. split; [left; reflexivity|]. cbn. rewrite He. auto.
  - intros offset n error w b evs w1 _ Hb _. loop_simpl. split.
    + cbn. rewrite app_nil_r. exact (body_no_error_keeps H _ _ _ _ _ _ _ _ _ _ _ Hb).
    + destruct (body_error_origin H _ _ _ _ _ _ _ _ _ _ _ Hb)
        as [?|(r0 & Hr & Hneg & He)]; auto.
      right. eexists. split; [left; reflexivity|]. cbn. rewrite He. auto.
  - intros offset n error w b evs w1 r _ Hb _ [IH1 IH2]. loop_simpl. split.
    + intros Hno. rewrite existsb_app in Hno. apply orb_false_iff in Hno.
      destruct Hno as [Hno1 Hno2].
      rewrite (IH1 Hno2).
      exact (body_no_error_keeps H _ _ _ _ _ _ _ _ _ _ _ Hb Hno1).
    + destruct IH2 as [IH2|(it & Hin & Hr & Hneg)].
      * rewrite IH2.
        destruct (body_error_origin H _ _ _ _ _ _ _ _ _ _ _ Hb)
          as [?|(r0 & Hr & Hneg & He)]; auto.
        right. eexists. split; [left; reflexivity|]. cbn. rewrite He. auto.
      * right. exists it. split; [right; assumption|auto].
Qed.

Lemma loop_reads fuel offset n error w r :
  len <= Int.INT64_MAX ->
  stream_run_loop H fuel s unfiltered_bs tracking_overlay len offset n error w
  = Some r ->
  0 <= offset <= len ->
  forallb (answer_in_image len) (history_trace (lr_history r)) = true ->
  forallb (read_in_image len) (history_trace (lr_history r)) = true /\
  0 <= ratelimited (history_trace (lr_history r))
    <= read_bytes (history_trace (lr_history r)) /\
  (forallb (acts_only BLOCK_ERROR_ACTION_IGNORE)
     (history_trace (lr_history r)) = true ->
   ratelimited (history_trace (lr_history r))
   = read_bytes (history_trace (lr_history r))).
Proof.
  intros Hmax Hrun.
  refine (stream_run_loop_ind H s unfiltered_bs tracking_overlay len
    (fun offset n error w r =>
       0 <= offset <= len ->
       forallb (answer_in_image len) (history_trace (lr_history r)) = true ->
       forallb (read_in_image len) (history_trace (lr_history r)) = true /\
       0 <= ratelimited (history_trace (lr_history r))
         <= read_bytes (history_trace (lr_history r)) /\
       (forallb (acts_only BLOCK_ERROR_ACTION_IGNORE)
          (history_trace (lr_history r)) = true ->
        ratelimited (history_trace (lr_history r))
        = read_bytes (history_trace (lr_history r))))
    _ _ _ _ fuel offset n error w r Hrun);
    clear fuel offset n error w r Hrun.
  - intros. cbn. repeat split; auto; lia.
  - intros offset n error w b evs w1 Hlt Hb Hf Hoff Hans. loop_simpl.
    cbn in *. rewrite app_nil_r in *.
    destruct (body_reads_in_image H _ _ _ _ _ _ _ _ _ _ _ Hb
                (conj (proj1 Hoff) Hlt) Hmax Hans) as (Hin & Hpos & Hrl).
    split; [assumption|]. rewrite Hrl.
    destruct Hf as [Hf|Hf]; rewrite Hf; (split; [lia|]); intros Hall.
    + rewrite (no_read_bytes evs); [reflexivity|].
      destruct (body_cancelled H _ _ _ _ _ _ _ _ _ _ _ Hb
                  (body_flow_cancelled H _ _ _ _ _ _ _ _ _ _ _ Hb Hf))
        as (_ & -> & _). reflexivity.
    + destruct (body_flow_report H _ _ _ _ _ _ _ _ _ _ _ Hb Hf)
        as (ret & evs' & _ & _ & _ & Hevs & _).
      assert (Hx : existsb (has_action BLOCK_ERROR_ACTION_REPORT) evs = true).
      { rewrite Hevs, existsb_app. cbn. now rewrite orb_true_r. }
      pose proof (acts_only_excludes _ _ _ Hall Hx). discriminate.
  - intros offset n error w b evs w1 Hlt Hb Hf Hoff Hans. loop_simpl.
    cbn in *. rewrite app_nil_r in *.
    destruct (body_reads_in_image H _ _ _ _ _ _ _ _ _ _ _ Hb
                (conj (proj1 Hoff) Hlt) Hmax Hans) as (Hin & Hpos & Hrl).
    split; [assumption|]. rewrite Hrl, Hf. split; [lia|]. intros _.
    symmetry. apply no_read_bytes.
    revert Hb Hf. clear. intros Hb Hf.
    body_cases Hb; try discriminate; reflexivity.
  - intros offset n error w b evs w1 r Hlt Hb Hf IH Hoff Hans. loop_simpl.
    rewrite forallb_app in Hans. apply andb_true_iff in Hans.
    destruct Hans as [Hans1 Hans2].
    pose proof (body_advance_bounds H _ _ _ _ _ _ _ _ _ _ _ Hb
                  (conj (proj1 Hoff) Hlt) Hmax Hans1 Hf) as [Hn0 Hn1].
    destruct (body_reads_in_image H _ _ _ _ _ _ _ _ _ _ _ Hb
                (conj (proj1 Hoff) Hlt) Hmax Hans1) as (Hin & Hpos & Hrl).
    assert (Hadd : Int.add64 offset (b_n b) = offset + b_n b).
    { unfold Int.add64. apply int64_id.
      unfold Int.in_int64, Int.INT64_MIN, Int.INT64_MAX in *. lia. }
    rewrite Hadd in IH.
    destruct IH as (IHin & IHle & IHeq); [lia|assumption|].
    rewrite forallb_app, ratelimited_app, read_bytes_app, Hin, IHin, Hrl.
    split; [reflexivity|]. split.
    + destruct (b_flow b); lia.
    + intros Hall. rewrite forallb_app in Hall. apply andb_true_iff in Hall.
      destruct Hall as [Hall1 Hall2]. rewrite (IHeq Hall2).
      destruct Hf as [Hf|Hf]; rewrite Hf; [|reflexivity].
      destruct (body_flow_stop H _ _ _ _ _ _ _ _ _ _ _ Hb Hf) as (Hst & _).
      pose proof (acts_only_excludes _ _ _ Hall1 Hst). discriminate.
Qed.

Lemma loop_end_of_backing fuel offset n error w r :
  len <= Int.INT64_MAX ->
  stream_run_loop H fuel s unfiltered_bs tracking_overlay len offset n error w
  = Some r ->
  0 <= offset <= len ->
  forallb (answer_in_image len) (history_trace (lr_history r)) = true ->
  (len <= offset -> lr_history r = [] /\ lr_exit r = ExitCondition /\
                    lr_offset r = offset) /\
  forall pre it post,
    lr_history r = pre ++ it :: post ->
    existsb is_end_of_backing (ir_events it) = true ->
    post = [] /\ lr_exit r = ExitCondition /\ lr_offset r = len /\
    ir_flow it = FlowEnd /\ ir_n it = len - ir_offset it /\
    existsb is_read (ir_events it) = false.
Proof.
  intros Hmax Hrun.
  refine (stream_run_loop_ind H s unfiltered_bs tracking_overlay len
    (fun offset n error w r =>
       0 <= offset <= len ->
       forallb (answer_in_image len) (history_trace (lr_history r)) = true ->
       (len <= offset -> lr_history r = [] /\ lr_exit r = ExitCondition /\
                         lr_offset r = offset) /\
       forall pre it post,
         lr_history r = pre ++ it :: post ->
         existsb is_end_of_backing (ir_events it) = true ->
         post = [] /\ lr_exit r = ExitCondition /\ lr_offset r = len /\
         ir_flow it = FlowEnd /\ ir_n it = len - ir_offset it /\
         existsb is_read (ir_events it) = false)
    _ _ _ _ fuel offset n error w r Hrun);
    clear fuel offset n error w r Hrun.
  - intros offset n error w Hge Hoff _. cbn. split; [auto|].
    intros pre it post Hs. now destruct pre.
  - intros offset n error w b evs w1 Hlt Hb Hf Hoff _. cbn. split; [lia|].
    intros pre it post Hs Hend. apply singleton_split in Hs.
    destruct Hs as (-> & -> & ->). cbn in Hend.
    destruct (body_end_of_backing H _ _ _ _ _ _ _ _ _ _ _ Hb
                (conj (proj1 Hoff) Hlt) Hmax Hend) as (Hfl & _).
    destruct Hf; congruence.
  - intros offset n error w b evs w1 Hlt Hb Hf Hoff _. cbn. split; [lia|].
    intros pre it post Hs Hend. apply singleton_split in Hs.
    destruct Hs as (-> & -> & ->). cbn in Hend.
    destruct (body_end_of_backing H _ _ _ _ _ _ _ _ _ _ _ Hb
                (conj (proj1 Hoff) Hlt) Hmax Hend) as (Hfl & _).
    congruence.
  - intros offset n error w b evs w1 r Hlt Hb Hf IH Hoff Hans. loop_simpl.
    rewrite forallb_app in Hans. apply andb_true_iff in Hans.
    destruct Hans as [Hans1 Hans2].
    pose proof (body_advance_bounds H _ _ _ _ _ _ _ _ _ _ _ Hb
                  (conj (proj1 Hoff) Hlt) Hmax Hans1 Hf) as [Hn0 Hn1].
    assert (Hadd : Int.add64 offset (b_n b) = offset + b_n b).
    { unfold Int.add64. apply int64_id.
      unfold Int.in_int64, Int.INT64_MIN, Int.INT64_MAX in *. lia. }
    rewrite Hadd in IH.
    destruct IH as (IHend & IHsplit); [lia|assumption|].
    split; [lia|].
    intros pre it post Hs Hend. apply cons_split in Hs.
    destruct Hs as [(-> & -> & ->)|(pre' & -> & Hs)].
    + cbn in Hend.
      destruct (body_end_of_backing H _ _ _ _ _ _ _ _ _ _ _ Hb
                  (conj (proj1 Hoff) Hlt) Hmax Hend) as (Hfl & Hn & Hnr & _).
      destruct IHend as (Hh & Hex & Ho); [lia|].
      cbn. rewrite Hh, Hex, Ho, Hn. repeat split; auto; lia.
    + eapply IHsplit; eauto.
Qed.

End LoopMore.

(** ** The shape of a run *)

Lemma stream_calibrate_enables {W} (H : Host W) s w :
  existsb is_tracker_enable (snd (fst (stream_calibrate H s w)))
  = adaptive_stream s.
Proof.
  unfold stream_calibrate, bind, ret, call, exec, ask.
  destruct (adaptive_stream s);
    [destruct (enable_iops_tracker H w (cor_filter_bs s)) as [ok w0]|];
    cbn [fst snd];
    (destruct (is_iops_tracker_enabled H _ (cor_filter_bs s) &&
               Double.ltb (adaptive_threshold s) Double.one);
     [|reflexivity]);
    cbn [stream_calibration_loop]; unfold bind, ret, call, exec;
    repeat match goal with
      | |- context [iops_tracker_get_rwthroughput H ?w' ?t] =>
          destruct (iops_tracker_get_rwthroughput H w' t) as [? ?]
      end; reflexivity.
Qed.

(** X1.  A run of [stream_run] that returned: when the unfiltered top
    image is the base overlay it returns 0 and when the length query
    fails it returns that result (as an [int]), in both cases without
    a single call into the job host; otherwise it first sets the
    remaining progress to the length, turns tracking on if and only if
    adaptive mode is on, runs the loop, and then, whatever way the loop
    ended, stops tracking exactly once and returns the accumulated
    error. *)
Theorem stream_run_brackets_tracking :
  forall {W} (H : Host W) fuel s w rr,
    stream_run H fuel s w = Some rr ->
    if bs_ptr_eqb (bdrv_skip_filters H w (target_bs s)) (base_overlay s)
    then rr = mkRun (RunReturned 0) s [] None [] w
    else if bdrv_co_getlength H w (target_bs s) <? 0
    then rr = mkRun (RunReturned (Int.int32
                                    (bdrv_co_getlength H w (target_bs s))))
                s [] None [] w
    else
      exists r,
        rr_loop rr = Some r /\
        hd_error (rr_setup rr)
        = Some (EvProgressSetRemaining (bdrv_co_getlength H w (target_bs s))) /\
        existsb is_tracker_enable (rr_setup rr) = adaptive_stream s /\
        match rr_status rr with
        | RunReturned e =>
            e = lr_error r /\ lr_exit r <> ExitAssert /\
            exists ok, rr_teardown rr = [EvDisableTracker (cor_filter_bs s) ok]
        | RunAborted => lr_exit r = ExitAssert /\ rr_teardown rr = []
        end.
Proof.
  intros W H fuel s w rr. unfold stream_run.
  destruct (bs_ptr_eqb _ _); [now intros [= <-]|].
  destruct (bdrv_co_getlength H w (target_bs s) <? 0); [now intros [= <-]|].
  pose proof (stream_calibrate_enables H s
                (job_progress_set_remaining H w
                   (bdrv_co_getlength H w (target_bs s)))) as Hen.
  unfold bind at 1. unfold exec at 1.
  destruct (stream_calibrate H s _) as [[s1 e] w1]. cbn [fst snd] in Hen.
  destruct (stream_run_loop _ _ _ _ _ _ _ _ _ _) as [r|]; [|discriminate].
  destruct (lr_exit r) eqn:Hexit.
  - destruct (call _ _ _) as [[ok td] w2] eqn:Hcall. intros [= <-].
    exists r. cbn. repeat split; auto; [congruence|].
    unfold call in Hcall. destruct (disable_iops_tracker H _ _) as [ok' w'].
    inversion Hcall; subst. eauto.
  - destruct (call _ _ _) as [[ok td] w2] eqn:Hcall. intros [= <-].
    exists r. cbn. repeat split; auto; [congruence|].
    unfold call in Hcall. destruct (disable_iops_tracker H _ _) as [ok' w'].
    inversion Hcall; subst. eauto.
  - intros [= <-]. exists r. cbn. repeat split; auto.
Qed.

(** The adaptive run that is cancelled in its third pass returned. *)
Lemma stream_run_brackets_tracking_witness :
  exists rr,
    stream_run (sim_host scenario_cancel) 10
      (sim_job BLOCKDEV_ON_ERROR_REPORT true Double.one) sim_world0 = Some rr /\
    exists r,
      rr_loop rr = Some r /\
      hd_error (rr_setup rr) = Some (EvProgressSetRemaining (2 * MiB)) /\
      existsb is_tracker_enable (rr_setup rr) = true /\
      match rr_status rr with
      | RunReturned e =>
          e = lr_error r /\ lr_exit r <> ExitAssert /\
          exists ok, rr_teardown rr = [EvDisableTracker (Some 100%nat) ok]
      | RunAborted => lr_exit r = ExitAssert /\ rr_teardown rr = []
      end.
Proof.
  eexists. split; [vm_compute; reflexivity|].
  apply (stream_run_brackets_tracking (sim_host scenario_cancel) 10
           (sim_job BLOCKDEV_ON_ERROR_REPORT true Double.one) sim_world0).
  vm_compute. reflexivity.
Defined.

(** X2.  On an image of length 0 that is not its own base overlay,
    [stream_run] returns 0 for any fuel, without a single pass of the
    loop: no sleep, no cancellation check, no query. *)
Theorem stream_run_empty_image :
  forall {W} (H : Host W) fuel s w,
    bs_ptr_eqb (bdrv_skip_filters H w (target_bs s)) (base_overlay s) = false ->
    bdrv_co_getlength H w (target_bs s) = 0 ->
    exists rr r,
      stream_run H fuel s w = Some rr /\
      rr_loop rr = Some r /\
      lr_history r = [] /\ lr_offset r = 0 /\
      rr_status rr = RunReturned 0.
Proof.
  intros W H fuel s w Hne Hlen. unfold stream_run. rewrite Hne, Hlen.
  cbn [Z.ltb Z.compare].
  destruct (bind _ _ w) as [[s1 setup] w1].
  assert (Hloop : stream_run_loop H fuel s1
            (bdrv_skip_filters H w (target_bs s)) (cor_filter_bs s) 0 0 0 0 w1
          = Some (mkLoop ExitCondition 0 0 0 [] w1)) by (destruct fuel; reflexivity).
  rewrite Hloop. cbn [lr_exit lr_world].
  destruct (call _ _ _) as [[ok td] w2]. do 2 eexists.
  split; [reflexivity|]. cbn. auto.
Qed.

Lemma stream_run_empty_image_witness :
  exists rr r,
    stream_run (sim_host scenario_zero_length) 0
      (sim_job BLOCKDEV_ON_ERROR_REPORT false Double.zero) sim_world0
    = Some rr /\
    rr_loop rr = Some r /\
    lr_history r = [] /\ lr_offset r = 0 /\
    rr_status rr = RunReturned 0.
Proof.
  apply (stream_run_empty_image (sim_host scenario_zero_length) 0
           (sim_job BLOCKDEV_ON_ERROR_REPORT false Double.zero) sim_world0);
    reflexivity.
Defined.

(** ** Where the returned error comes from *)

(** X3.  For a run of [stream_run] that returned the value [e].  When
    the loop was not entered, no call into the job host was made, and
    [e] is 0 if the unfiltered top image is the base overlay, else the
    length query failed and [e] is its result truncated to [int], which
    need not be negative.  When the loop was entered, the length was
    not negative; [e] is 0 when the error policy was never consulted,
    also after a cancellation; and a value other than 0 is negative and
    is the [ret] of one of the passes. *)
Theorem stream_run_error_origin :
  forall {W} (H : Host W) fuel s w rr e,
    stream_run H fuel s w = Some rr ->
    rr_status rr = RunReturned e ->
    match rr_loop rr with
    | None =>
        rr_setup rr = [] /\ rr_teardown rr = [] /\
        if bs_ptr_eqb (bdrv_skip_filters H w (target_bs s)) (base_overlay s)
        then e = 0
        else bdrv_co_getlength H w (target_bs s) < 0 /\
             e = Int.int32 (bdrv_co_getlength H w (target_bs s))
    | Some r =>
        bs_ptr_eqb (bdrv_skip_filters H w (target_bs s)) (base_overlay s)
        = false /\
        0 <= bdrv_co_getlength H w (target_bs s) /\
        (existsb is_error_action (history_trace (lr_history r)) = false ->
         e = 0) /\
        (e = 0 \/
         e < 0 /\ exists it, In it (lr_history r) /\ ir_ret it = Some e)
    end.
Proof.
  intros W H fuel s w rr e Hrun Hst.
  destruct (rr_loop rr) as [r|] eqn:Hloop.
  - destruct (stream_run_inv H _ _ _ _ _ Hrun Hloop)
      as (s1 & w1 & Hlen & Hl & Hst').
    assert (He : e = lr_error r).
    { rewrite Hst in Hst'. destruct (lr_exit r); congruence. }
    destruct (loop_error_origin H _ _ _ _ _ _ _ _ _ _ Hl) as [Hk Ho].
    subst e. split.
    { unfold stream_run in Hrun.
      destruct (bs_ptr_eqb _ _); [|reflexivity].
      injection Hrun as <-. discriminate. }
    split; [assumption|]. split; [assumption|].
    destruct Ho as [?|(it & Hin & Hr & Hneg)]; [auto|right; eauto].
  - unfold stream_run in Hrun.
    destruct (bs_ptr_eqb _ _).
    { injection Hrun as <-. cbn in *. repeat split. congruence. }
    destruct (bdrv_co_getlength H w (target_bs s) <? 0) eqn:Hlen.
    { apply Z.ltb_lt in Hlen. injection Hrun as <-. cbn in *.
      repeat split; [assumption|congruence]. }
    destruct (bind _ _ w) as [[s1 setup] w1].
    destruct (stream_run_loop _ _ _ _ _ _ _ _ _ _) as [r'|]; [|discriminate].
    destruct (lr_exit r');
      [destruct (call _ _ _) as [[? ?] ?]|destruct (call _ _ _) as [[? ?] ?]|];
      injection Hrun as <-; discriminate.
Qed.

(** Under [on_error = ignore], the run whose second and third reads fail
    entered the loop and returned [-EIO], the [ret] of one of its
    passes. *)
Lemma stream_run_error_origin_witness :
  exists rr,
    stream_run (sim_host scenario_read_fails) 10
      (sim_job BLOCKDEV_ON_ERROR_IGNORE false Double.zero) sim_world0
    = Some rr /\
    rr_status rr = RunReturned (- EIO) /\
    match rr_loop rr with
    | None => False
    | Some r =>
        (existsb is_error_action (history_trace (lr_history r)) = false ->
         - EIO = 0) /\
        (- EIO = 0 \/
         - EIO < 0 /\
         exists it, In it (lr_history r) /\ ir_ret it = Some (- EIO))
    end.
Proof.
  eexists. split; [vm_compute; reflexivity|]. split; [reflexivity|].
  match goal with
  | |- match rr_loop ?rr with _ => _ end =>
      pose proof (stream_run_error_origin (sim_host scenario_read_fails) 10
                    (sim_job BLOCKDEV_ON_ERROR_IGNORE false Double.zero)
                    sim_world0 rr (- EIO)) as Hx
  end.
  cbn [rr_loop] in Hx |- *.
  refine (proj2 (proj2 (Hx _ _))).
  - vm_compute. reflexivity.
  - reflexivity.
Defined.

(** X4.  In a loop that came to an end, the error policy is consulted
    exactly once in every pass whose [ret] ends negative, with the
    job's error mode and the errno [-ret], and never in any other
    pass. *)
Theorem stream_run_error_policy_calls :
  forall {W} (H : Host W) fuel s unfiltered_bs tracking_overlay len w r,
    stream_run_loop H fuel s unfiltered_bs tracking_overlay len 0 0 0 w
    = Some r ->
    Forall (fun it =>
              error_actions (ir_events it) =
                match ir_ret it with
                | Some ret =>
                    if ret <? 0 then [(on_error s, Int.neg32 ret)] else []
                | None => []
                end) (lr_history r).
Proof.
  intros W H fuel s ubs trk len w r Hrun.
  eapply Forall_impl; [|exact (loop_pass_facts H _ _ _ _ _ _ _ _ _ _ Hrun)].
  cbn. intros it [_ Ha]. exact Ha.
Qed.

Lemma stream_run_error_policy_calls_witness :
  exists r,
    stream_run_loop (sim_host scenario_read_fails) 10
      (sim_job BLOCKDEV_ON_ERROR_STOP false Double.zero)
      (Some 1%nat) (Some 100%nat) (2 * MiB) 0 0 0 sim_world0 = Some r /\
    error_actions (history_trace (lr_history r))
    = [(BLOCKDEV_ON_ERROR_STOP, EIO); (BLOCKDEV_ON_ERROR_STOP, ENOSPC)] /\
    Forall (fun it =>
              error_actions (ir_events it) =
                match ir_ret it with
                | Some ret =>
                    if ret <? 0
                    then [(BLOCKDEV_ON_ERROR_STOP, Int.neg32 ret)] else []
                | None => []
                end) (lr_history r).
Proof.
  eexists. split; [vm_compute; reflexivity|].
  split; [vm_compute; reflexivity|].
  apply (stream_run_error_policy_calls (sim_host scenario_read_fails) 10
           (sim_job BLOCKDEV_ON_ERROR_STOP false Double.zero)
           (Some 1%nat) (Some 100%nat) (2 * MiB) sim_world0).
  vm_compute. reflexivity.
Defined.

(** ** What is read *)

(** X5.  In a loop that came to an end, within every pass: the backing
    chain is queried only right after a query on the top image that
    answered "not allocated" without failing, for the same offset and
    for the length that query answered; and a read is issued only right
    after a query on the backing chain that answered "allocated", at
    the same offset and for the length that query answered.  So a
    chunk allocated in the top image is never queried below nor read,
    and a chunk allocated nowhere is never read. *)
Theorem stream_run_reads_justified :
  forall {W} (H : Host W) fuel s unfiltered_bs tracking_overlay len w r,
    stream_run_loop H fuel s unfiltered_bs tracking_overlay len 0 0 0 w
    = Some r ->
    Forall (fun it => reads_justified None (ir_events it) = true)
           (lr_history r).
Proof.
  intros W H fuel s ubs trk len w r Hrun.
  eapply Forall_impl; [|exact (loop_pass_facts H _ _ _ _ _ _ _ _ _ _ Hrun)].
  cbn. intros it [Hr _]. exact Hr.
Qed.

Lemma stream_run_reads_justified_witness :
  exists r,
    stream_run_loop (sim_host scenario_2MiB) 10
      (sim_job BLOCKDEV_ON_ERROR_REPORT false Double.zero)
      (Some 1%nat) (Some 100%nat) (2 * MiB) 0 0 0 sim_world0 = Some r /\
    existsb is_read (history_trace (lr_history r)) = true /\
    Forall (fun it => reads_justified None (ir_events it) = true)
           (lr_history r).
Proof.
  eexists. split; [vm_compute; reflexivity|].
  split; [vm_compute; reflexivity|].
  apply (stream_run_reads_justified (sim_host scenario_2MiB) 10
           (sim_job BLOCKDEV_ON_ERROR_REPORT false Double.zero)
           (Some 1%nat) (Some 100%nat) (2 * MiB) sim_world0).
  vm_compute. reflexivity.
Defined.

(** X6.  In a loop that came to an end on an image of [len] bytes whose
    allocation queries answered lengths inside the image, every read
    lies inside the image: its offset and length are not negative and
    it ends at or before [len]. *)
Theorem stream_run_reads_inside_image :
  forall {W} (H : Host W) fuel s unfiltered_bs tracking_overlay len w r,
    0 <= len <= Int.INT64_MAX ->
    stream_run_loop H fuel s unfiltered_bs tracking_overlay len 0 0 0 w
    = Some r ->
    forallb (answer_in_image len) (history_trace (lr_history r)) = true ->
    forallb (read_in_image len) (history_trace (lr_history r)) = true.
Proof.
  intros W H fuel s ubs trk len w r Hlen Hrun Hans.
  destruct (loop_reads H s ubs trk len _ _ _ _ _ _ (proj2 Hlen) Hrun)
    as (Hin & _); [lia|assumption|assumption].
Qed.

Lemma stream_run_reads_inside_image_witness :
  exists r,
    stream_run_loop (sim_host scenario_read_fails) 10
      (sim_job BLOCKDEV_ON_ERROR_IGNORE false Double.zero)
      (Some 1%nat) (Some 100%nat) (2 * MiB) 0 0 0 sim_world0 = Some r /\
    forallb (read_in_image (2 * MiB)) (history_trace (lr_history r)) = true.
Proof.
  eexists. split; [vm_compute; reflexivity|].
  apply (stream_run_reads_inside_image (sim_host scenario_read_fails) 10
           (sim_job BLOCKDEV_ON_ERROR_IGNORE false Double.zero)
           (Some 1%nat) (Some 100%nat) (2 * MiB) sim_world0).
  - vm_compute. split; discriminate.
  - vm_compute. reflexivity.
  - vm_compute. reflexivity.
Defined.

(** X7.  Under the same conditions, the bytes accounted with the rate
    limiter never exceed the bytes read: a read in a pass that is
    retried or that breaks the loop is not accounted.  When every
    error action is "ignore" (or there is no error), the two are
    equal: a read that failed and was ignored is accounted in full. *)
Theorem stream_run_ratelimit_accounts_reads :
  forall {W} (H : Host W) fuel s unfiltered_bs tracking_overlay len w r,
    0 <= len <= Int.INT64_MAX ->
    stream_run_loop H fuel s unfiltered_bs tracking_overlay len 0 0 0 w
    = Some r ->
    forallb (answer_in_image len) (history_trace (lr_history r)) = true ->
    0 <= ratelimited (history_trace (lr_history r))
      <= read_bytes (history_trace (lr_history r)) /\
    (forallb (acts_only BLOCK_ERROR_ACTION_IGNORE)
       (history_trace (lr_history r)) = true ->
     ratelimited (history_trace (lr_history r))
     = read_bytes (history_trace (lr_history r))).
Proof.
  intros W H fuel s ubs trk len w r Hlen Hrun Hans.
  destruct (loop_reads H s ubs trk len _ _ _ _ _ _ (proj2 Hlen) Hrun)
    as (_ & Hle & Heq); [lia|assumption|]. auto.
Qed.

(** The run that stops twice on a failed read reads 3 MiB and accounts
    2 MiB. *)
Lemma stream_run_ratelimit_accounts_reads_witness :
  exists r,
    stream_run_loop (sim_host scenario_read_fails) 10
      (sim_job BLOCKDEV_ON_ERROR_STOP false Double.zero)
      (Some 1%nat) (Some 100%nat) (2 * MiB) 0 0 0 sim_world0 = Some r /\
    read_bytes (history_trace (lr_history r)) = 3 * MiB /\
    ratelimited (history_trace (lr_history r)) = 2 * MiB /\
    0 <= ratelimited (history_trace (lr_history r))
      <= read_bytes (history_trace (lr_history r)) /\
    (forallb (acts_only BLOCK_ERROR_ACTION_IGNORE)
       (history_trace (lr_history r)) = true ->
     ratelimited (history_trace (lr_history r))
     = read_bytes (history_trace (lr_history r))).
Proof.
  eexists. split; [vm_compute; reflexivity|].
  split; [vm_compute; reflexivity|]. split; [vm_compute; reflexivity|].
  apply (stream_run_ratelimit_accounts_reads (sim_host scenario_read_fails) 10
           (sim_job BLOCKDEV_ON_ERROR_STOP false Double.zero)
           (Some 1%nat) (Some 100%nat) (2 * MiB) sim_world0).
  - vm_compute. split; discriminate.
  - vm_compute. reflexivity.
  - vm_compute. reflexivity.
Defined.

(** X8.  Under the same conditions, when the query on the backing chain
    answers "nothing allocated, nothing left", the pass takes the rest
    of the image as its chunk without reading it, and it is the last
    pass: the loop leaves through its condition with the offset at
    [len]. *)
Theorem stream_run_end_of_backing_shortcut :
  forall {W} (H : Host W) fuel s unfiltered_bs tracking_overlay len w r
         pre it post,
    0 <= len <= Int.INT64_MAX ->
    stream_run_loop H fuel s unfiltered_bs tracking_overlay len 0 0 0 w
    = Some r ->
    forallb (answer_in_image len) (history_trace (lr_history r)) = true ->
    lr_history r = pre ++ it :: post ->
    existsb is_end_of_backing (ir_events it) = true ->
    post = [] /\ lr_exit r = ExitCondition /\ lr_offset r = len /\
    ir_flow it = FlowEnd /\ ir_n it = len - ir_offset it /\
    existsb is_read (ir_events it) = false.
Proof.
  intros W H fuel s ubs trk len w r pre it post Hlen Hrun Hans Hs Hend.
  destruct (loop_end_of_backing H s ubs trk len _ _ _ _ _ _ (proj2 Hlen) Hrun)
    as (_ & Hsplit); [lia|assumption|]. eauto.
Qed.

(** The backing files end at 1 MiB: the third pass, at 1 MiB, takes the
    second MiB in one chunk. *)
Lemma stream_run_end_of_backing_shortcut_witness :
  exists r,
    stream_run_loop (sim_host scenario_short_backing) 10
      (sim_job BLOCKDEV_ON_ERROR_REPORT false Double.zero)
      (Some 1%nat) (Some 100%nat) (2 * MiB) 0 0 0 sim_world0 = Some r /\
    exists pre it,
      lr_history r = pre ++ [it] /\
      List.length pre = 2%nat /\ ir_offset it = 1 * MiB /\
      [] = @nil IterRecord /\ lr_exit r = ExitCondition /\
      lr_offset r = 2 * MiB /\
      ir_flow it = FlowEnd /\ ir_n it = 2 * MiB - ir_offset it /\
      existsb is_read (ir_events it) = false.
Proof.
  eexists. split; [vm_compute; reflexivity|].
  match goal with
  | |- exists pre it, lr_history ?r = _ /\ _ =>
      exists (firstn 2 (lr_history r)),
        (nth 2 (lr_history r) (mkIter 0 [] FlowEnd 0 0 None))
  end.
  split; [vm_compute; reflexivity|].
  split; [vm_compute; reflexivity|]. split; [vm_compute; reflexivity|].
  match goal with
  | |- _ /\ lr_exit ?r = _ /\ _ =>
      apply (stream_run_end_of_backing_shortcut
               (sim_host scenario_short_backing) 10
               (sim_job BLOCKDEV_ON_ERROR_REPORT false Double.zero)
               (Some 1%nat) (Some 100%nat) (2 * MiB) sim_world0 r
               (firstn 2 (lr_history r))
               (nth 2 (lr_history r) (mkIter 0 [] FlowEnd 0 0 None)) [])
  end.
  - vm_compute. split; discriminate.
  - vm_compute. reflexivity.
  - vm_compute. reflexivity.
  - vm_compute. reflexivity.
  - vm_compute. reflexivity.
Defined.

(** ** Termination *)

(** X9.  On a host that makes progress (queries answer positive lengths
    inside the image, or "nothing left" below, and the error policy
    never asks to stop), [stream_run] returns, within one pass of the
    loop per byte of the image. *)
Theorem stream_run_returns_on_progress :
  forall {W} (H : Host W) fuel s w,
    bdrv_co_getlength H w (target_bs s) <= Int.INT64_MAX ->
    host_progress H (bdrv_co_getlength H w (target_bs s)) (on_error s) ->
    (Z.to_nat (bdrv_co_getlength H w (target_bs s)) <= fuel)%nat ->
    exists rr, stream_run H fuel s w = Some rr.
Proof. intros W H fuel s w. apply stream_run_terminates. Qed.

Lemma stream_run_returns_on_progress_witness :
  exists rr,
    stream_run (sim_host scenario_read_fails) (Z.to_nat (2 * MiB))
      (sim_job BLOCKDEV_ON_ERROR_IGNORE false Double.zero) sim_world0
    = Some rr.
Proof.
  apply (stream_run_returns_on_progress (sim_host scenario_read_fails)
           (Z.to_nat (2 * MiB))
           (sim_job BLOCKDEV_ON_ERROR_IGNORE false Double.zero) sim_world0).
  - vm_compute. discriminate.
  - apply (sim_host_progress scenario_read_fails BLOCKDEV_ON_ERROR_IGNORE).
    left. reflexivity.
  - apply le_n.
Defined.

(** ** [stream_populate] *)

(** X10.  For a length [n] in the range of [int64_t], the assertion of
    [stream_populate] fails exactly for [n = -1]; for any other [n],
    negative ones included, it issues one prefetch read of [n] bytes at
    [offset] and returns the result of the read. *)
Theorem stream_populate_assert :
  forall {W} (H : Host W) offset n w,
    Int.in_int64 n ->
    stream_populate H offset n w =
    if n =? -1 then (None, [], w)
    else (Some (fst (blk_co_preadv H w offset n)),
          [EvPreadv offset n (fst (blk_co_preadv H w offset n))],
          snd (blk_co_preadv H w offset n)).
Proof.
  intros W H offset n w Hn.
  unfold Int.in_int64, Int.INT64_MIN, Int.INT64_MAX in Hn.
  change (2 ^ 63) with 9223372036854775808 in Hn.
  assert (Hu : Int.uint64 n = if n <? 0 then n + 18446744073709551616 else n).
  { unfold Int.uint64. change (2 ^ 64) with 18446744073709551616.
    destruct (n <? 0) eqn:Hneg.
    - apply Z.ltb_lt in Hneg. symmetry.
      apply (Z.mod_unique_pos _ _ (-1)). lia. lia.
    - apply Z.ltb_ge in Hneg. apply Z.mod_small. lia. }
  assert (Hi : Int.int64 (Int.uint64 n) = n).
  { rewrite Hu. unfold Int.int64, Int.wrap.
    change (2 ^ (64 - 1)) with 9223372036854775808.
    change (2 ^ 64) with 18446744073709551616.
    destruct (n <? 0) eqn:Hneg.
    - apply Z.ltb_lt in Hneg.
      rewrite <- (Z.mod_unique_pos
                    (n + 18446744073709551616 + 9223372036854775808)
                    18446744073709551616 1 (n + 9223372036854775808)); lia.
    - apply Z.ltb_ge in Hneg. rewrite Z.mod_small; lia. }
  unfold stream_populate, bind, ret, call. rewrite Hi, Hu.
  unfold Int.SIZE_MAX. change (2 ^ 64) with 18446744073709551616.
  destruct (n =? -1) eqn:Heq.
  - apply Z.eqb_eq in Heq. subst n. reflexivity.
  - apply Z.eqb_neq in Heq.
    assert (Hlt : ((if n <? 0 then n + 18446744073709551616 else n)
                   <? 18446744073709551616 - 1) = true).
    { apply Z.ltb_lt. destruct (n <? 0) eqn:Hneg;
        [apply Z.ltb_lt in Hneg|apply Z.ltb_ge in Hneg]; lia. }
    rewrite Hlt. destruct (blk_co_preadv H w offset n) as [r w']. reflexivity.
Qed.

Lemma stream_populate_assert_witness :
  Int.in_int64 (-2) /\
  stream_populate (sim_host scenario_2MiB) 0 (-2) sim_world0 =
  if -2 =? -1 then (None, [], sim_world0)
  else (Some (fst (blk_co_preadv (sim_host scenario_2MiB) sim_world0 0 (-2))),
        [EvPreadv 0 (-2)
           (fst (blk_co_preadv (sim_host scenario_2MiB) sim_world0 0 (-2)))],
        snd (blk_co_preadv (sim_host scenario_2MiB) sim_world0 0 (-2))).
Proof.
  assert (Hin : Int.in_int64 (-2)) by (vm_compute; split; discriminate).
  split; [exact Hin|].
  exact (stream_populate_assert (sim_host scenario_2MiB) 0 (-2) sim_world0 Hin).
Defined.

(** ** Completion and cleanup *)

Lemma bs_ptr_eqb_refl p : bs_ptr_eqb p p = true.
Proof. destruct p; cbn; [apply Nat.eqb_refl|reflexivity]. Qed.

Lemma dropped_filters_app e1 e2 :
  dropped_filters (e1 ++ e2) = dropped_filters e1 ++ dropped_filters e2.
Proof.
  induction e1 as [|ev e1 IH]; cbn; [reflexivity|].
  destruct ev; cbn; rewrite ?IH; reflexivity.
Qed.

(** X11.  On every path of [stream_prepare], also when a step of the
    rewrite fails, the drained sections and the reference it takes are
    released in the reverse order of their taking, none is left held,
    and the backing reference is rewritten only while the top image is
    drained. *)
Theorem stream_prepare_well_bracketed :
  forall {W} (H : Host W) s w,
    well_bracketed [] (snd (fst (stream_prepare H s w))) = true.
Proof.
  intros W H s w. unfold stream_prepare, bind, ret, call, exec, ask.
  destruct (bdrv_cow_bs H w (bdrv_skip_filters H w (target_bs s)))
    as [cow|].
  - destruct (bdrv_set_backing_hd_drained H _ _ _) as [failed w2].
    destruct (bdrv_change_backing_file H w2 _ _ _) as [cr w3].
    cbn. rewrite !bs_ptr_eqb_refl. cbn. rewrite !Nat.eqb_refl.
    rewrite ?orb_true_r. reflexivity.
  - cbn. rewrite !bs_ptr_eqb_refl. reflexivity.
Qed.

(** X12.  The filter node is dropped exactly once.  When
    [stream_prepare] ran, it dropped the filter and [stream_clean]
    does not drop it again; when it did not run, [stream_clean] drops
    the filter if there is one.  In both cases [stream_clean] leaves
    [cor_filter_bs] empty, releases the block backend once, and
    reopens the image read-only exactly when [bs_read_only] is set. *)
Theorem stream_clean_drops_filter_once :
  forall {W} (H : Host W) (blk_unref : W -> W) s w,
    let prepared := stream_prepare H s w in
    let s1 := snd (fst (fst prepared)) in
    let after := stream_clean H blk_unref s1 (snd prepared) in
    let alone := stream_clean H blk_unref s w in
    (dropped_filters (snd (fst prepared) ++ host_calls (snd (fst after)))
     = [cor_filter_bs s] /\
     dropped_filters (host_calls (snd (fst after))) = []) /\
    dropped_filters (host_calls (snd (fst alone)))
    = (if is_some (cor_filter_bs s) then [cor_filter_bs s] else []) /\
    cor_filter_bs (fst (fst after)) = None /\
    cor_filter_bs (fst (fst alone)) = None /\
    reopen_modes (host_calls (snd (fst alone)))
    = (if bs_read_only s then [true] else []) /\
    List.length (filter (fun c => match c with
                                  | CleanBlkUnref => true
                                  | _ => false
                                  end) (snd (fst alone))) = 1%nat.
Proof.
  intros W H blk_unref s w. cbv zeta.
  assert (Hprep : snd (fst (fst (stream_prepare H s w)))
                  = set_cor_filter_bs s None /\
                  dropped_filters (snd (fst (stream_prepare H s w)))
                  = [cor_filter_bs s]).
  { unfold stream_prepare, bind, ret, call, exec, ask.
    destruct (bdrv_cow_bs H w (bdrv_skip_filters H w (target_bs s))).
    - destruct (bdrv_set_backing_hd_drained H _ _ _) as [failed w2].
      destruct (bdrv_change_backing_file H w2 _ _ _) as [cr w3].
      cbn. auto.
    - cbn. auto. }
  destruct Hprep as [Hs1 Hd]. rewrite Hs1, dropped_filters_app, Hd.
  assert (Hclean : forall s0 w0,
    dropped_filters (host_calls (snd (fst (stream_clean H blk_unref s0 w0))))
    = (if is_some (cor_filter_bs s0) then [cor_filter_bs s0] else []) /\
    cor_filter_bs (fst (fst (stream_clean H blk_unref s0 w0))) = None /\
    reopen_modes (host_calls (snd (fst (stream_clean H blk_unref s0 w0))))
    = (if bs_read_only s0 then [true] else []) /\
    List.length (filter (fun c => match c with
                                  | CleanBlkUnref => true
                                  | _ => false
                                  end)
                   (snd (fst (stream_clean H blk_unref s0 w0)))) = 1%nat).
  { intros s0 w0. unfold stream_clean.
    destruct (cor_filter_bs s0) as [f|] eqn:Hf; cbn [bs_read_only
      set_cor_filter_bs];
      destruct (bs_read_only s0) eqn:Hro; rewrite ?Hro;
      try destruct (bdrv_reopen_set_read_only H _ _ _) as [r w'];
      cbn; rewrite ?Hf; auto. }
  destruct (Hclean (set_cor_filter_bs s None) (snd (stream_prepare H s w)))
    as (Ha1 & Ha2 & _).
  destruct (Hclean s w) as (Hb1 & Hb2 & Hb3 & Hb4).
  cbn [cor_filter_bs set_cor_filter_bs is_some] in Ha1.
  rewrite Ha1. cbn [app]. auto 10.
Qed.

(** ** Setup *)

Lemma inserted_filters_app e1 e2 :
  inserted_filters (e1 ++ e2) = inserted_filters e1 ++ inserted_filters e2.
Proof.
  induction e1 as [|ev e1 IH]; cbn; [reflexivity|].
  destruct ev; cbn; rewrite ?IH; try reflexivity.
  destruct filter; cbn; rewrite ?IH; reflexivity.
Qed.

Lemma reopen_modes_app e1 e2 :
  reopen_modes (e1 ++ e2) = reopen_modes e1 ++ reopen_modes e2.
Proof.
  induction e1 as [|ev e1 IH]; cbn; [reflexivity|].
  destruct ev; cbn; rewrite ?IH; reflexivity.
Qed.

(** Blocking the intermediate nodes only calls [block_job_add_bdrv]. *)
Lemma stream_block_intermediates_calls {W} (H : Host W) fuel :
  forall iter base w,
    let evs := snd (fst (stream_block_intermediates H fuel iter base w)) in
    inserted_filters evs = [] /\ dropped_filters evs = [] /\
    reopen_modes evs = [] /\ existsb is_job_start evs = false /\
    existsb is_job_early_fail evs = false /\
    existsb is_job_create_ok evs = false.
Proof.
  induction fuel as [|fuel IH]; intros iter base w; cbn;
    destruct (bs_ptr_eqb iter base); cbn; auto 10.
  unfold bind, call, ask, ret.
  destruct (block_job_add_bdrv H w _ iter _) as [r w1].
  destruct (r <? 0); cbn; auto 10.
  specialize (IH (bdrv_filter_or_cow_bs H w1 iter) base w1). cbv zeta in IH.
  destruct (stream_block_intermediates H fuel _ base w1) as [[o e] w2].
  cbn in *. rewrite ?app_nil_r. exact IH.
Qed.

Lemma stream_start_boundary_outcome {W} (H : Host W) fuel a w o :
  stream_start_boundary H fuel a w = inl o ->
  match o with
  | StartStarted _ | StartFail => False
  | _ => True
  end.
Proof.
  unfold stream_start_boundary. intros Hbd.
  repeat match type of Hbd with
    | context [match ?x with _ => _ end] =>
        lazymatch x with
        | context [match _ with _ => _ end] => fail
        | _ => destruct x
        end
    end; inversion Hbd; exact I.
Qed.

(** X13.  [stream_start] cleans up after itself.  When it fails after
    the graph was touched, every filter node it inserted is dropped
    again, an image it reopened read-write is reopened read-only, the
    job is failed early exactly when it had been created, and the job
    is not started.  When it gives up before (an assertion, a base that
    is not in the chain, a failed freeze or reopen), no filter was
    inserted and no job created.  When it succeeds, the one filter it
    inserted is the job's [cor_filter_bs] and is not dropped, the image
    was reopened read-write exactly when it was read-only, and the job
    is started. *)
Theorem stream_start_cleans_up :
  forall {W} (H : Host W) fuel a w,
    let result := stream_start H fuel a w in
    let evs := snd (fst result) in
    match fst (fst result) with
    | StartStarted s =>
        inserted_filters evs = [cor_filter_bs s] /\
        dropped_filters evs = [] /\
        reopen_modes evs = (if bs_read_only s then [false] else []) /\
        existsb is_job_start evs = true /\
        existsb is_job_early_fail evs = false
    | StartFail =>
        dropped_filters evs = inserted_filters evs /\
        (reopen_modes evs = [] \/ reopen_modes evs = [false; true]) /\
        existsb is_job_start evs = false /\
        existsb is_job_early_fail evs = existsb is_job_create_ok evs
    | StartOutOfFuel => True
    | _ =>
        inserted_filters evs = [] /\ dropped_filters evs = [] /\
        (reopen_modes evs = [] \/ reopen_modes evs = [false]) /\
        existsb is_job_start evs = false /\
        existsb is_job_create_ok evs = false
    end.
Proof.
  intros W H fuel a w. cbv zeta.
  unfold stream_start.
  destruct (is_some (sa_base a) && is_some (sa_bottom a)); [cbn; auto 10|].
  destruct (is_some (sa_backing_file_str a) && is_some (sa_bottom a));
    [cbn; auto 10|].
  unfold stream_start_fail, bind, ret, call, exec, ask.
  destruct (stream_start_boundary H fuel a w)
    as [o|[base_overlay above_base]] eqn:Hbd.
  { apply stream_start_boundary_outcome in Hbd.
    destruct o; cbn; auto 10; contradiction. }
  destruct (bdrv_is_read_only H w (Some (sa_bs a))) eqn:Hro.
  - destruct (bdrv_freeze_backing_chain H w _ _) as [fr w1].
    destruct (fr <? 0); [cbn; auto 10|].
    destruct (bdrv_reopen_set_read_only H w1 _ false) as [rr w2].
    destruct (rr <? 0); [cbn; auto 10|]. cbn [negb fst snd].
    destruct (bdrv_insert_node H _ _ _ _) as [[f|] w3]; cbn [is_some negb].
    2:{ destruct (bdrv_reopen_set_read_only H w3 _ true) as [r2 w4].
        cbn. auto 10. }
    destruct (is_some (sa_filter_node_name a));
      (destruct (block_job_create H _ _ _ _) as [[|] w4]; cbn [negb];
       [|destruct (bdrv_reopen_set_read_only H _ _ true) as [r2 w5];
         cbn; auto 10]);
      (destruct (blk_new_with_bs H w4 _) as [[|] w5]; cbn [negb];
       [|destruct (bdrv_reopen_set_read_only H _ _ true) as [r2 w6];
         cbn; auto 10]);
      (destruct (block_job_add_bdrv H w5 _ _ _) as [r w6];
       destruct (r =? 0); cbn [negb];
       [|destruct (bdrv_reopen_set_read_only H _ _ true) as [r2 w7];
         cbn; auto 10]);
      match goal with
      | |- context [stream_block_intermediates H fuel ?i ?b ?w'] =>
          pose proof (stream_block_intermediates_calls H fuel i b w') as Hi;
          cbv zeta in Hi;
          destruct (stream_block_intermediates H fuel i b w')
            as [[[r'|] e] w7]
      end; cbn [fst snd] in Hi;
      destruct Hi as (Hi1 & Hi2 & Hi3 & Hi4 & Hi5 & Hi6);
      try exact I;
      (destruct (r' <? 0);
       [destruct (bdrv_reopen_set_read_only H _ _ true) as [r2 w8]|]);
      cbn;
      rewrite ?inserted_filters_app, ?dropped_filters_app, ?reopen_modes_app,
        ?existsb_app, ?Hi1, ?Hi2, ?Hi3, ?Hi4, ?Hi5, ?Hi6;
      cbn; auto 10.
  - cbn [negb fst snd].
    destruct (bdrv_insert_node H _ _ _ _) as [[f|] w3]; cbn [is_some negb];
      [|cbn; auto 10].
    destruct (is_some (sa_filter_node_name a));
      (destruct (block_job_create H _ _ _ _) as [[|] w4]; cbn [negb];
       [|cbn; auto 10]);
      (destruct (blk_new_with_bs H w4 _) as [[|] w5]; cbn [negb];
       [|cbn; auto 10]);
      (destruct (block_job_add_bdrv H w5 _ _ _) as [r w6];
       destruct (r =? 0); cbn [negb]; [|cbn; auto 10]);
      match goal with
      | |- context [stream_block_intermediates H fuel ?i ?b ?w'] =>
          pose proof (stream_block_intermediates_calls H fuel i b w') as Hi;
          cbv zeta in Hi;
          destruct (stream_block_intermediates H fuel i b w')
            as [[[r'|] e] w7]
      end; cbn [fst snd] in Hi;
      destruct Hi as (Hi1 & Hi2 & Hi3 & Hi4 & Hi5 & Hi6);
      try exact I;
      destruct (r' <? 0);
      cbn;
      rewrite ?inserted_filters_app, ?dropped_filters_app, ?reopen_modes_app,
        ?existsb_app, ?Hi1, ?Hi2, ?Hi3, ?Hi4, ?Hi5, ?Hi6;
      cbn; auto 10.
Qed.

Lemma stream_walk_filters_child {W} (H : Host W) fuel w base :
  forall above above',
    stream_walk_filters H fuel w above base = Some above' ->
    bs_ptr_eqb (bdrv_filter_bs H w above') base = true.
Proof.
  induction fuel as [|fuel IH]; intros above above'; cbn;
    destruct (bs_ptr_eqb (bdrv_filter_bs H w above) base) eqn:Heq;
    try discriminate; try (intros [= <-]; assumption).
  apply IH.
Qed.

Lemma stream_start_boundary_nodes {W} (H : Host W) fuel a w bo ab :
  stream_start_boundary H fuel a w = inr (bo, ab) ->
  match sa_bottom a with
  | Some bottom => bo = bottom /\ ab = Some bottom
  | None =>
      bdrv_find_overlay H w (Some (sa_bs a)) (sa_base a) = Some bo /\
      ((ab = Some bo /\
        bs_ptr_eqb (bdrv_cow_bs H w (Some bo)) (sa_base a) = true) \/
       bs_ptr_eqb (bdrv_filter_bs H w ab) (sa_base a) = true)
  end.
Proof.
  unfold stream_start_boundary.
  destruct (sa_bottom a) as [bottom|].
  - destruct (bs_drv H w bottom) as [drv|]; [|discriminate].
    destruct (is_filter drv); [discriminate|]. intros [= <- <-]. auto.
  - destruct (bdrv_find_overlay H w _ _) as [base_overlay|]; [|discriminate].
    destruct (bs_ptr_eqb (bdrv_cow_bs H w (Some base_overlay)) (sa_base a))
      eqn:Hcow.
    + intros [= <- <-]. auto.
    + destruct (stream_walk_filters H fuel w _ _) as [above|] eqn:Hwalk;
        [|discriminate].
      intros [= <- <-]. split; [reflexivity|]. right.
      exact (stream_walk_filters_child H _ _ _ _ _ Hwalk).
Qed.

(** X14.  The job that [stream_start] starts carries the arguments of
    the call, the inserted filter node and the boundary it selected.
    With [bottom], no [base] and no backing file string were given and
    both [base_overlay] and [above_base] are [bottom].  With [base],
    [base_overlay] is the overlay that [bdrv_find_overlay] found and
    [above_base] is a node whose child is [base]: the overlay itself
    when its COW child is [base], else a node whose filtered child is
    [base]. *)
Theorem stream_start_job_nodes :
  forall {W} (H : Host W) fuel a w s,
    fst (fst (stream_start H fuel a w)) = StartStarted s ->
    target_bs s = Some (sa_bs a) /\
    on_error s = sa_on_error a /\
    backing_file_str s = sa_backing_file_str a /\
    backing_mask_protocol s = sa_backing_mask_protocol a /\
    adaptive_stream s = sa_adaptive_stream a /\
    adaptive_threshold s = sa_adaptive_threshold a /\
    pause_time s = sa_pause_time a /\
    bs_read_only s = bdrv_is_read_only H w (Some (sa_bs a)) /\
    is_some (cor_filter_bs s) = true /\
    match sa_bottom a with
    | Some bottom =>
        sa_base a = None /\ sa_backing_file_str a = None /\
        base_overlay s = Some bottom /\ above_base s = Some bottom
    | None =>
        base_overlay s
        = bdrv_find_overlay H w (Some (sa_bs a)) (sa_base a) /\
        is_some (base_overlay s) = true /\
        ((above_base s = base_overlay s /\
          bs_ptr_eqb (bdrv_cow_bs H w (base_overlay s)) (sa_base a) = true) \/
         bs_ptr_eqb (bdrv_filter_bs H w (above_base s)) (sa_base a) = true)
    end.
Proof.
  intros W H fuel a w s. unfold stream_start.
  destruct (is_some (sa_base a) && is_some (sa_bottom a)) eqn:Hc1;
    [discriminate|].
  destruct (is_some (sa_backing_file_str a) && is_some (sa_bottom a)) eqn:Hc2;
    [discriminate|].
  unfold stream_start_fail, bind, ret, call, exec, ask.
  destruct (stream_start_boundary H fuel a w)
    as [o|[bo ab]] eqn:Hbd.
  { apply stream_start_boundary_outcome in Hbd. cbn. intros [= ->].
    contradiction. }
  apply stream_start_boundary_nodes in Hbd.
  assert (Hgoal : forall cor ro,
    is_some cor = true ->
    ro = bdrv_is_read_only H w (Some (sa_bs a)) ->
    s = mkStreamBlockJob (Some bo) ab cor (Some (sa_bs a)) (sa_on_error a)
          (sa_backing_file_str a) (sa_backing_mask_protocol a) ro
          (sa_adaptive_stream a) (sa_adaptive_threshold a) (sa_pause_time a) ->
    target_bs s = Some (sa_bs a) /\
    on_error s = sa_on_error a /\
    backing_file_str s = sa_backing_file_str a /\
    backing_mask_protocol s = sa_backing_mask_protocol a /\
    adaptive_stream s = sa_adaptive_stream a /\
    adaptive_threshold s = sa_adaptive_threshold a /\
    pause_time s = sa_pause_time a /\
    bs_read_only s = bdrv_is_read_only H w (Some (sa_bs a)) /\
    is_some (cor_filter_bs s) = true /\
    match sa_bottom a with
    | Some bottom =>
        sa_base a = None /\ sa_backing_file_str a = None /\
        base_overlay s = Some bottom /\ above_base s = Some bottom
    | None =>
        base_overlay s
        = bdrv_find_overlay H w (Some (sa_bs a)) (sa_base a) /\
        is_some (base_overlay s) = true /\
        ((above_base s = base_overlay s /\
          bs_ptr_eqb (bdrv_cow_bs H w (base_overlay s)) (sa_base a) = true) \/
         bs_ptr_eqb (bdrv_filter_bs H w (above_base s)) (sa_base a) = true)
    end).
  { intros cor ro Hcor Hro ->. cbn. repeat (split; [auto|]).
    destruct (sa_bottom a) as [bottom|].
    - destruct Hbd as [-> ->].
      destruct (sa_base a), (sa_backing_file_str a); try discriminate. auto.
    - destruct Hbd as [Hfo Hab]. rewrite Hfo. split; [reflexivity|].
      split; [reflexivity|].
      destruct Hab as [[-> Hcow]|Hfil]; auto. }
  repeat match goal with
    | |- context [match ?x with _ => _ end] =>
        lazymatch x with
        | context [match _ with _ => _ end] => fail
        | _ => destruct x eqn:?
        end
    | |- context [if ?x then _ else _] =>
        lazymatch x with
        | context [if _ then _ else _] => fail
        | _ => destruct x eqn:?
        end
    end; cbn; intros Heq; try discriminate;
    injection Heq as <-; refine (Hgoal _ _ _ _ eq_refl); try reflexivity;
    match goal with
    | Hn : negb (is_some ?c) = false |- is_some ?c = true =>
        destruct c; [reflexivity|discriminate]
    end.
Qed.

Lemma stream_start_job_nodes_witness :
  exists s,
    fst (fst (stream_start (sim_host scenario_read_only) 8
                (sim_start_args (Some 3%nat) None None) sim_world0))
    = StartStarted s /\
    base_overlay s = Some 2%nat /\ above_base s = Some 2%nat /\
    bs_read_only s = true /\
    target_bs s = Some 1%nat /\
    on_error s = BLOCKDEV_ON_ERROR_REPORT /\
    backing_file_str s = None /\
    backing_mask_protocol s = false /\
    adaptive_stream s = false /\
    adaptive_threshold s = Double.zero /\
    pause_time s = 0 /\
    bs_read_only s
    = bdrv_is_read_only (sim_host scenario_read_only) sim_world0 (Some 1%nat) /\
    is_some (cor_filter_bs s) = true /\
    base_overlay s
    = bdrv_find_overlay (sim_host scenario_read_only) sim_world0
        (Some 1%nat) (Some 3%nat) /\
    is_some (base_overlay s) = true /\
    ((above_base s = base_overlay s /\
      bs_ptr_eqb (bdrv_cow_bs (sim_host scenario_read_only) sim_world0
                    (base_overlay s)) (Some 3%nat) = true) \/
     bs_ptr_eqb (bdrv_filter_bs (sim_host scenario_read_only) sim_world0
                   (above_base s)) (Some 3%nat) = true).
Proof.
  eexists. split; [vm_compute; reflexivity|].
  split; [reflexivity|]. split; [reflexivity|]. split; [reflexivity|].
  apply (stream_start_job_nodes (sim_host scenario_read_only) 8
           (sim_start_args (Some 3%nat) None None) sim_world0).
  vm_compute. reflexivity.
Defined.

(** ** The throughput tracker, without interference *)

(** X15.  When every sample of a schedule is taken whole (no update
    between its locked part and its reset) and the counter does not
    overflow, the counts of the samples and the count still pending add
    up to the total recorded since the tracker was created. *)
Theorem iops_tracker_whole_samples_exact :
  forall now schedule,
    sampler_atomic schedule = true ->
    updates_fit 0 schedule = true ->
    sampled_total (ts_samples (tracker_run schedule (tracker_new now))) +
    operations (ts_tracker (tracker_run schedule (tracker_new now)))
    = ts_recorded (tracker_run schedule (tracker_new now)).
Proof.
  intros now schedule Hat Hfit.
  apply (iops_tracker_atomic_samples_exact (List.length schedule));
    auto.
Qed.

Lemma iops_tracker_whole_samples_exact_witness :
  map sample_operations
    (ts_samples (tracker_run schedule_atomic (tracker_new 0))) = [5; 3] /\
  sampled_total (ts_samples (tracker_run schedule_atomic (tracker_new 0))) +
  operations (ts_tracker (tracker_run schedule_atomic (tracker_new 0)))
  = ts_recorded (tracker_run schedule_atomic (tracker_new 0)).
Proof.
  split; [vm_compute; reflexivity|].
  apply (iops_tracker_whole_samples_exact 0 schedule_atomic);
    vm_compute; reflexivity.
Defined.

Lemma tracker_run_app l1 l2 st :
  tracker_run (l1 ++ l2) st = tracker_run l2 (tracker_run l1 st).
Proof. unfold tracker_run. apply fold_left_app. Qed.

(** X16.  In any schedule, interleaved or not, whose updates are not
    negative and do not overflow the counter, the counter is never
    negative: every sample counts 0 or more and so does what is
    pending. *)
Theorem iops_tracker_counts_nonnegative :
  forall schedule st,
    updates_nonneg schedule = true ->
    updates_fit (operations (ts_tracker st)) schedule = true ->
    0 <= operations (ts_tracker st) ->
    Forall (fun smp => 0 <= sample_operations smp) (ts_samples st) ->
    0 <= operations (ts_tracker (tracker_run schedule st)) /\
    Forall (fun smp => 0 <= sample_operations smp)
           (ts_samples (tracker_run schedule st)).
Proof.
  induction schedule as [|[ops|now1|now2] rest IH]; intros st Hnn Hfit H0 Hs.
  - cbn. auto.
  - cbn [updates_nonneg updates_fit] in Hnn, Hfit.
    apply andb_true_iff in Hnn. destruct Hnn as [Hops Hnn].
    apply andb_true_iff in Hfit. destruct Hfit as [Hrange Hfit].
    apply andb_true_iff in Hrange. destruct Hrange as [Hlo Hhi].
    apply Z.leb_le in Hops, Hlo, Hhi.
    assert (Hadd : Int.add64 (operations (ts_tracker st)) ops
                   = operations (ts_tracker st) + ops).
    { unfold Int.add64. apply int64_id. split; assumption. }
    unfold tracker_run. cbn [fold_left]. apply IH; auto;
      cbn [tracker_step ts_tracker ts_samples iops_tracker_update operations];
      rewrite ?Hadd; auto; lia.
  - cbn [updates_nonneg updates_fit] in Hnn, Hfit.
    unfold tracker_run. cbn [fold_left]. apply IH; auto.
    cbn [tracker_step ts_samples]. apply Forall_app. split; [assumption|].
    constructor; [cbn; assumption|constructor].
  - cbn [updates_nonneg updates_fit] in Hnn, Hfit.
    unfold tracker_run. cbn [fold_left]. apply IH; auto; cbn; auto; lia.
Qed.

Lemma iops_tracker_counts_nonnegative_witness :
  0 <= operations
         (ts_tracker (tracker_run schedule_lost_update (tracker_new 0))) /\
  Forall (fun smp => 0 <= sample_operations smp)
         (ts_samples (tracker_run schedule_lost_update (tracker_new 0))).
Proof.
  apply (iops_tracker_counts_nonnegative schedule_lost_update (tracker_new 0)).
  - vm_compute. reflexivity.
  - vm_compute. reflexivity.
  - vm_compute. discriminate.
  - constructor.
Defined.

(** X17.  There is no guard on the elapsed time: a sample taken at the
    very clock reading of the last reset, with no operation recorded,
    is 0 divided by 0; [iops_tracker_get_iops] then returns NaN, not
    0. *)
Theorem iops_tracker_zero_elapsed_nan :
  forall now now_init tracker,
    fst (iops_tracker_get_iops now now_init (iops_tracker_init now tracker))
    = S754_nan.
Proof.
  intros now now_init tracker.
  unfold iops_tracker_get_iops, iops_tracker_get_iops_locked,
    iops_tracker_init. cbn [fst operations start_time_ns].
  unfold Int.sub64. rewrite Z.sub_diag. vm_compute. reflexivity.
Qed.
